(** * PyPRT: the generation orchestration layer of [src/client/wrap.cpp]

    A shallow embedding of [InitialShape], [GeneratedModel] and
    [ModelGenerator] (declared in [wrap.h], defined in [wrap.cpp]) together
    with the properties of [generateModel] and [generateAnotherModel].

    Conventions.
    - [std::string] and [std::wstring] are both [string]; the narrow/wide
      conversion helpers of [utils.h] are therefore the identity.
    - [uint32_t] and [int32_t] values are [Z] with the wrap-around written out
      ([uint32], [int32]); [size_t] container sizes are [nat].
    - [py::dict] is a [gmap string PyValue]; a [prt::AttributeMap] is a
      [gmap string AttrValue].
    - The CityEngine SDK (namespace [prt]) and the helpers of [utils.h]
      (namespace [pcu]) are not part of the translation unit: they are the
      fields of the record [Engine], over which every definition is
      parametrised.
    - A member function is a state transformer on [ModelGenerator] that also
      yields the list of [Event]s it emitted (log lines and SDK calls) and a
      [Completion]: falling through, returning, throwing, or running into
      undefined behaviour (out-of-range [operator[]], null dereference).
      A constructor whose behaviour is undefined yields no object ([None]). *)

From Stdlib Require Import ZArith Lia.
From Stdlib Require Import Floats.SpecFloat.
From stdpp Require Import base option list gmap strings.

Local Open Scope Z_scope.

(** ** Machine integers *)

Definition uint32 (z : Z) : Z := z mod 2 ^ 32.
Definition int32 (z : Z) : Z := (z + 2 ^ 31) mod 2 ^ 32 - 2 ^ 31.

(** [double] values are IEEE-754 data; no arithmetic is performed on them. *)
Definition double : Type := spec_float.

(** [std::iota(first, last, 0)] over a [std::vector<uint32_t>] of [n]
    elements. The running [value] is an [int]: for each element it is
    stored, converted to [uint32_t], and then incremented. Incrementing
    [INT_MAX] is a signed overflow, undefined behaviour: [None]. *)
Fixpoint iota (n : nat) (value : Z) : option (list Z) :=
  match n with
  | O => Some []
  | S n' =>
      if decide (value < 2 ^ 31 - 1) then
        match iota n' (value + 1) with
        | Some rest => Some (uint32 value :: rest)
        | None => None
        end
      else None
  end.

(** ** InitialShape *)

Module InitialShape.

Record t := mk {
  mVertices : list double;
  mIndices : list Z;
  mFaceCounts : list Z;
  mPath : string;
  mPathFlag : bool
}.

(** [InitialShape(const std::vector<double>& vert)]: no object when
    [std::iota] runs into undefined behaviour. *)
Definition of_vertices (vert : list double) : option t :=
  match iota (length vert / 3)%nat 0 with
  | Some indices =>
      Some {| mVertices := vert;
              mIndices := indices;
              mFaceCounts := [uint32 (Z.of_nat (length indices))];
              mPath := "";
              mPathFlag := false |}
  | None => None
  end.

(** [InitialShape(vert, ind, faceCnt)] *)
Definition of_geometry (vert : list double) (ind faceCnt : list Z) : t :=
  {| mVertices := vert;
     mIndices := ind;
     mFaceCounts := faceCnt;
     mPath := "";
     mPathFlag := false |}.

(** [InitialShape(const std::string& initShapePath)] *)
Definition of_path (initShapePath : string) : t :=
  {| mVertices := [];
     mIndices := [];
     mFaceCounts := [];
     mPath := initShapePath;
     mPathFlag := true |}.

Definition getVertexCount (s : t) : nat := length (mVertices s).
Definition getIndexCount (s : t) : nat := length (mIndices s).
Definition getFaceCountsCount (s : t) : nat := length (mFaceCounts s).
Definition getPath (s : t) : string := mPath s.
Definition getPathFlag (s : t) : bool := mPathFlag s.

End InitialShape.

(** ** GeneratedModel *)

(** Values a Python object can take in the dictionaries exchanged with the
    host ([py::dict]). *)
Inductive PyValue :=
| PyStr (s : string)
| PyInt (z : Z)
| PyFloat (d : double)
| PyBool (b : bool)
| PyNone.

Module GeneratedModel.

Record t := mk {
  mInitialShapeIndex : nat;
  mVertices : list double;
  mIndices : list Z;
  mFaces : list Z;
  mReport : gmap string PyValue
}.

Definition getInitialShapeIndex (m : t) : nat := mInitialShapeIndex m.
Definition getVertices (m : t) : list double := mVertices m.
Definition getIndices (m : t) : list Z := mIndices m.
Definition getFaces (m : t) : list Z := mFaces m.
Definition getReport (m : t) : gmap string PyValue := mReport m.

End GeneratedModel.

(** ** The SDK's data, as far as the orchestration observes it *)

Inductive Status :=
| STATUS_OK
| STATUS_UNSPECIFIED_ERROR
| STATUS_OTHER (code : positive).

#[global] Instance Status_eq_dec : EqDecision Status.
Proof. solve_decision. Defined.

Inductive PrimitiveType := PT_UNDEFINED | PT_STRING | PT_FLOAT | PT_BOOL | PT_INT.

#[global] Instance PrimitiveType_eq_dec : EqDecision PrimitiveType.
Proof. solve_decision. Defined.

Inductive AttrValue :=
| AV_String (s : string)
| AV_Float (d : double)
| AV_Bool (b : bool)
| AV_Int (z : Z).

(** [prt::AttributeMap] with its introspection interface. *)
Module AttributeMap.

Definition hasKey (m : gmap string AttrValue) (key : string) : bool :=
  bool_decide (is_Some (m !! key)).

Definition getType (m : gmap string AttrValue) (key : string) : PrimitiveType :=
  match m !! key with
  | Some (AV_String _) => PT_STRING
  | Some (AV_Float _) => PT_FLOAT
  | Some (AV_Bool _) => PT_BOOL
  | Some (AV_Int _) => PT_INT
  | None => PT_UNDEFINED
  end.

Definition getString (m : gmap string AttrValue) (key : string) : string :=
  match m !! key with Some (AV_String s) => s | _ => "" end.

Definition getInt (m : gmap string AttrValue) (key : string) : Z :=
  match m !! key with Some (AV_Int z) => int32 z | _ => 0 end.

End AttributeMap.

(** A [prt::ResolveMap]: logical asset names to URIs. *)
Record ResolveMap := { rm_entries : gmap string string }.

(** What [InitialShapeBuilder::setAttributes] attaches to a builder. *)
Record ShapeAttributes := {
  sa_ruleFile : string;
  sa_startRule : string;
  sa_seed : Z;
  sa_shapeName : string;
  sa_attributes : option (gmap string AttrValue);
  sa_resolveMap : option ResolveMap
}.

Inductive Geometry :=
| GeometryInline (vertices : list double) (indices faceCounts : list Z)
| GeometryURI (uri : string).

(** A [prt::InitialShapeBuilder]: the geometry and the attributes last set. *)
Record InitialShapeBuilder := {
  isb_geometry : option Geometry;
  isb_attributes : option ShapeAttributes
}.

(** The immutable [prt::InitialShape] a builder finalises into. *)
Record NativeInitialShape := {
  nis_geometry : option Geometry;
  nis_attributes : option ShapeAttributes
}.

Definition InitialShapeBuilder_create : InitialShapeBuilder :=
  {| isb_geometry := None; isb_attributes := None |}.

Definition InitialShapeBuilder_withGeometry (g : Geometry) (isb : InitialShapeBuilder)
  : InitialShapeBuilder :=
  {| isb_geometry := Some g; isb_attributes := isb_attributes isb |}.

Definition setAttributes (a : ShapeAttributes) (isb : InitialShapeBuilder)
  : InitialShapeBuilder :=
  {| isb_geometry := isb_geometry isb; isb_attributes := Some a |}.

Definition createInitialShape (isb : InitialShapeBuilder) : NativeInitialShape :=
  {| nis_geometry := isb_geometry isb; nis_attributes := isb_attributes isb |}.

(** The callback sink handed to [prt::generate]. *)
Inductive Sink :=
| PyCallbacksSink (initialShapeCount : nat)
| FileOutputCallbacksSink (dir : string).

(** The three operations of [IPyCallbacks]. *)
Inductive Callback :=
| addGeometry (initialShapeIndex : Z) (verticesCoord : list double) (facesCoord : list (list Z))
| addReports (initialShapeIndex : Z) (CGAfloatreport : gmap string double)
    (CGAstringreport : gmap string string) (CGAboolreport : gmap string bool)
| addIndex (initialShapeIndex : Z).

(** A C++ exception in flight: one derived from [std::exception], or any
    other. *)
Inductive Exception :=
| std_exception (what : string)
| unknown_exception.

(** The outcome of a call into native code that may raise a C++ exception. *)
Inductive NativeCall (A : Type) :=
| Returns (a : A)
| Throws (e : Exception).
Arguments Returns {A} a.
Arguments Throws {A} e.

(** ** The external collaborators: the SDK and the helpers of [utils.h] *)

Record Engine := {
  (** [InitialShapeBuilder::setGeometry(vertices, indices, faceCounts)] *)
  prt_setGeometry : list double -> list Z -> list Z -> Status;
  (** [InitialShapeBuilder::resolveGeometry(uri, nullptr, cache)] *)
  prt_resolveGeometry : string -> Status;
  (** [prt::createResolveMap(uri, nullptr, &status)] *)
  prt_createResolveMap : string -> NativeCall (option ResolveMap * Status);
  (** [prt::generate(shapes, n, nullptr, encoders, m, options, sink, cache, nullptr)] *)
  prt_generate : list NativeInitialShape -> list string ->
                 list (option (gmap string AttrValue)) -> Sink ->
                 NativeCall (list Callback * Status);
  prt_getStatusDescription : Status -> string;
  (** [pcu::toFileURI] *)
  pcu_toFileURI : string -> string;
  (** [pcu::createAttributeMapFromPythonDict(dict, builder)]: the attribute
      map created and the contents left in the builder. *)
  pcu_createAttributeMapFromPythonDict :
    gmap string PyValue -> gmap string AttrValue ->
    option (gmap string AttrValue) * gmap string AttrValue;
  (** [createValidatedOptions(encoderId, options)] *)
  pcu_createValidatedOptions :
    string -> option (gmap string AttrValue) -> option (gmap string AttrValue);
  (** [std::filesystem::is_directory] and [std::filesystem::exists] *)
  fs_is_directory : string -> bool;
  fs_exists : string -> bool
}.

(** ** The process-wide context [prtCtx] *)

Record PRTContext := { mPRTHandle : bool }.

(** [std::unique_ptr<PRTContext> prtCtx]; [handle] is what [prt::init]
    hands back to the [PRTContext] constructor. *)
Definition initializePRT (handle : bool) (prtCtx : option PRTContext) : option PRTContext :=
  match prtCtx with
  | None => Some {| mPRTHandle := handle |}
  | Some c => Some c
  end.

Definition isPRTInitialized (prtCtx : option PRTContext) : bool :=
  bool_decide (is_Some prtCtx).

Definition shutdownPRT (prtCtx : option PRTContext) : option PRTContext := None.

(** ** The result collector [PyCallbacks] *)

(** Modelled from the spec: what the collector accumulates for one shape
    index (geometry, report, and whether the index was seen). *)
Record Model := {
  mdl_vertices : list double;
  mdl_indices : list Z;
  mdl_faces : list Z;
  mdl_report : gmap string PyValue;
  mdl_seen : bool
}.

(** Modelled from the spec: the entry of a shape index before any callback. *)
Definition Model_empty : Model :=
  {| mdl_vertices := []; mdl_indices := []; mdl_faces := [];
     mdl_report := ∅; mdl_seen := false |}.

(** Modelled from the spec: [PyCallbacks.h] and [PyCallbacks.cpp] are missing;
    only the interface [IPyCallbacks] is at hand. The collector keeps one
    entry per initial shape. [addGeometry] overwrites the geometry of its
    index, flattening the faces into an index sequence and a per-face count
    sequence; [addReports] merges the three typed mappings into the report
    of its index, a later value for a key replacing the earlier one;
    [addIndex] marks its index as seen. An index outside the collector is
    not expected from the SDK and leaves the collector as it is. *)
Definition PyCallbacks_create (initialShapeCount : nat) : list Model :=
  replicate initialShapeCount Model_empty.

(** Modelled from the spec: the effect of one callback on the collector
    (section 4.5 of the specification). *)
Definition PyCallbacks_handle (foc : list Model) (cb : Callback) : list Model :=
  match cb with
  | addGeometry idx verticesCoord facesCoord =>
      alter (fun m => {| mdl_vertices := verticesCoord;
                         mdl_indices := concat facesCoord;
                         mdl_faces := map (fun f => uint32 (Z.of_nat (length f))) facesCoord;
                         mdl_report := mdl_report m;
                         mdl_seen := mdl_seen m |}) (Z.to_nat idx) foc
  | addReports idx floats strings bools =>
      alter (fun m => {| mdl_vertices := mdl_vertices m;
                         mdl_indices := mdl_indices m;
                         mdl_faces := mdl_faces m;
                         mdl_report := (PyFloat <$> floats) ∪ (PyStr <$> strings)
                                         ∪ (PyBool <$> bools) ∪ mdl_report m;
                         mdl_seen := mdl_seen m |}) (Z.to_nat idx) foc
  | addIndex idx =>
      alter (fun m => {| mdl_vertices := mdl_vertices m;
                         mdl_indices := mdl_indices m;
                         mdl_faces := mdl_faces m;
                         mdl_report := mdl_report m;
                         mdl_seen := true |}) (Z.to_nat idx) foc
  end.

(** Modelled from the spec: the collector after the callbacks of one
    generation pass, in the order the Engine made them. *)
Definition PyCallbacks_run (foc : list Model) (cbs : list Callback) : list Model :=
  fold_left PyCallbacks_handle cbs foc.

(** Modelled from the spec: the accessors of the collector, per shape
    index. *)
Definition PyCallbacks_getVertices (foc : list Model) (idx : nat) : list double :=
  from_option mdl_vertices [] (foc !! idx).
Definition PyCallbacks_getIndices (foc : list Model) (idx : nat) : list Z :=
  from_option mdl_indices [] (foc !! idx).
Definition PyCallbacks_getFaces (foc : list Model) (idx : nat) : list Z :=
  from_option mdl_faces [] (foc !! idx).
Definition PyCallbacks_getReport (foc : list Model) (idx : nat) : gmap string PyValue :=
  from_option mdl_report ∅ (foc !! idx).

(** ** Observable events, completions and the state monad *)

Inductive Event :=
| LOG_ERR (msg : string)
| LOG_WRN (msg : string)
| LOG_INF (msg : string)
| LOG_DBG (msg : string)
| py_print (msg : string)
| call_createResolveMap (uri : string)
| call_generate (initialShapes : list NativeInitialShape) (encoders : list string)
    (encodersOptions : list (option (gmap string AttrValue))) (callbacks : Sink).

(** The calls that reach the Engine's rule packages and generation pass. *)
Definition is_engine_call (ev : Event) : bool :=
  match ev with
  | call_createResolveMap _ | call_generate _ _ _ _ => true
  | _ => false
  end.

Definition is_generate_call (ev : Event) : bool :=
  match ev with call_generate _ _ _ _ => true | _ => false end.

Definition is_error (ev : Event) : bool :=
  match ev with LOG_ERR _ => true | _ => false end.

Definition is_warning (ev : Event) : bool :=
  match ev with LOG_WRN _ => true | _ => false end.

Inductive Completion (A : Type) :=
| Normal (a : A)
| Return_ (models : list GeneratedModel.t)
| Throw (e : Exception)
| Undefined.
Arguments Normal {A} a.
Arguments Return_ {A} models.
Arguments Throw {A} e.
Arguments Undefined {A}.

(** What a call of a member function amounts to for the caller. *)
Inductive Outcome :=
| Returned (models : list GeneratedModel.t)
| UndefinedBehaviour.

(** The members of [ModelGenerator]. A smart pointer is an [option], a
    vector a [list]. [mCache] only memoises inside the Engine and is left
    out. *)
Record ModelGenerator := {
  mResolveMap : option ResolveMap;
  mEncoderBuilder : option (gmap string AttrValue);
  mEncodersOptionsPtr : list (option (gmap string AttrValue));
  mEncodersNames : list string;
  mInitialShapesBuilders : list (option InitialShapeBuilder);
  mRuleFile : string;
  mStartRule : string;
  mSeed : Z;
  mShapeName : string;
  mValid : bool
}.

Definition set_mResolveMap (v : option ResolveMap) (g : ModelGenerator) : ModelGenerator :=
  {| mResolveMap := v; mEncoderBuilder := mEncoderBuilder g;
     mEncodersOptionsPtr := mEncodersOptionsPtr g; mEncodersNames := mEncodersNames g;
     mInitialShapesBuilders := mInitialShapesBuilders g; mRuleFile := mRuleFile g;
     mStartRule := mStartRule g; mSeed := mSeed g; mShapeName := mShapeName g;
     mValid := mValid g |}.

Definition set_mEncoderBuilder (v : option (gmap string AttrValue)) (g : ModelGenerator)
  : ModelGenerator :=
  {| mResolveMap := mResolveMap g; mEncoderBuilder := v;
     mEncodersOptionsPtr := mEncodersOptionsPtr g; mEncodersNames := mEncodersNames g;
     mInitialShapesBuilders := mInitialShapesBuilders g; mRuleFile := mRuleFile g;
     mStartRule := mStartRule g; mSeed := mSeed g; mShapeName := mShapeName g;
     mValid := mValid g |}.

Definition set_mEncoders (names : list string)
    (options : list (option (gmap string AttrValue))) (g : ModelGenerator) : ModelGenerator :=
  {| mResolveMap := mResolveMap g; mEncoderBuilder := mEncoderBuilder g;
     mEncodersOptionsPtr := options; mEncodersNames := names;
     mInitialShapesBuilders := mInitialShapesBuilders g; mRuleFile := mRuleFile g;
     mStartRule := mStartRule g; mSeed := mSeed g; mShapeName := mShapeName g;
     mValid := mValid g |}.

Definition set_mInitialShapesBuilders (v : list (option InitialShapeBuilder))
    (g : ModelGenerator) : ModelGenerator :=
  {| mResolveMap := mResolveMap g; mEncoderBuilder := mEncoderBuilder g;
     mEncodersOptionsPtr := mEncodersOptionsPtr g; mEncodersNames := mEncodersNames g;
     mInitialShapesBuilders := v; mRuleFile := mRuleFile g;
     mStartRule := mStartRule g; mSeed := mSeed g; mShapeName := mShapeName g;
     mValid := mValid g |}.

Definition set_mValid (v : bool) (g : ModelGenerator) : ModelGenerator :=
  {| mResolveMap := mResolveMap g; mEncoderBuilder := mEncoderBuilder g;
     mEncodersOptionsPtr := mEncodersOptionsPtr g; mEncodersNames := mEncodersNames g;
     mInitialShapesBuilders := mInitialShapesBuilders g; mRuleFile := mRuleFile g;
     mStartRule := mStartRule g; mSeed := mSeed g; mShapeName := mShapeName g;
     mValid := v |}.

(** State passing with an event log and the four completions. *)
Definition M (A : Type) : Type :=
  ModelGenerator -> Completion A * ModelGenerator * list Event.

Definition ret {A} (a : A) : M A := fun g => (Normal a, g, []).

Definition bind {A B} (m : M A) (k : A -> M B) : M B :=
  fun g =>
    match m g with
    | (Normal a, g1, ev1) =>
        match k a g1 with (c, g2, ev2) => (c, g2, ev1 ++ ev2) end
    | (Return_ ms, g1, ev1) => (Return_ ms, g1, ev1)
    | (Throw e, g1, ev1) => (Throw e, g1, ev1)
    | (Undefined, g1, ev1) => (Undefined, g1, ev1)
    end.

Notation "'do' x <~ m ; k" := (bind m (fun x => k))
  (at level 10, x name, m at level 100, k at level 200).

Definition gets {A} (f : ModelGenerator -> A) : M A := fun g => (Normal (f g), g, []).
Definition modify (f : ModelGenerator -> ModelGenerator) : M unit :=
  fun g => (Normal tt, f g, []).
Definition emit (ev : Event) : M unit := fun g => (Normal tt, g, [ev]).
Definition return_ {A} (models : list GeneratedModel.t) : M A :=
  fun g => (Return_ models, g, []).
Definition throw {A} (e : Exception) : M A := fun g => (Throw e, g, []).
Definition undefined {A} : M A := fun g => (Undefined, g, []).

(** [v[i]] on a [std::vector]: out of range is undefined behaviour. *)
Definition vector_at {A} (v : list A) (i : nat) : M A :=
  match v !! i with
  | Some x => ret x
  | None => undefined
  end.

(** [*p] or [p->] on a smart pointer: null is undefined behaviour. *)
Definition deref {A} (p : option A) : M A :=
  match p with
  | Some x => ret x
  | None => undefined
  end.

Fixpoint mapM {A B} (f : A -> M B) (l : list A) : M (list B) :=
  match l with
  | [] => ret []
  | x :: l' => do y <~ f x; do ys <~ mapM f l'; ret (y :: ys)
  end.

(** ** Constants of [wrap.cpp] *)

Definition FILE_CGA_REPORT : string := "CGAReport.txt".
Definition ENCODER_OPT_NAME : string := "name".
Definition ENCODER_ID_CGA_REPORT : string := "com.esri.prt.core.CGAReportEncoder".
Definition ENCODER_ID_CGA_PRINT : string := "com.esri.prt.core.CGAPrintEncoder".
Definition ENCODER_ID_PYTHON : string := "com.esri.pyprt.PyEncoder".

(** ** ModelGenerator *)

Section ModelGenerator.

Context (E : Engine).

(** The members as the in-class initialisers and the first two statements
    of the constructor leave them. *)
Definition ModelGenerator_init (shapeCount : nat) : ModelGenerator :=
  {| mResolveMap := None;
     mEncoderBuilder := None;
     mEncodersOptionsPtr := [];
     mEncodersNames := [];
     mInitialShapesBuilders := replicate shapeCount None;
     mRuleFile := "bin/rule.cgb";
     mStartRule := "default$init";
     mSeed := 666;
     mShapeName := "InitialShape";
     mValid := true |}.

(** One iteration of the constructor's loop over [myGeo]. *)
Definition ModelGenerator_addShape (ind : nat) (shape : InitialShape.t) : M unit :=
  let fresh := InitialShapeBuilder_create in
  do isb <~
    (if InitialShape.getPathFlag shape then
       let uri := pcu_toFileURI E (InitialShape.getPath shape) in
       if decide (uri = "") then
         do _ <~ emit (LOG_ERR "could not read initial shape geometry, unvalid path");
         do _ <~ modify (set_mValid false);
         ret fresh
       else
         do _ <~ emit (LOG_DBG ("trying to read initial shape geometry from " +:+ uri));
         if decide (prt_resolveGeometry E uri = STATUS_OK) then
           ret (InitialShapeBuilder_withGeometry (GeometryURI uri) fresh)
         else
           do _ <~ emit (LOG_ERR ("could not resolve geometry from " +:+ uri));
           do _ <~ modify (set_mValid false);
           ret fresh
     else
       if decide (prt_setGeometry E (InitialShape.mVertices shape)
                    (InitialShape.mIndices shape) (InitialShape.mFaceCounts shape)
                  = STATUS_OK) then
         ret (InitialShapeBuilder_withGeometry
                (GeometryInline (InitialShape.mVertices shape)
                   (InitialShape.mIndices shape) (InitialShape.mFaceCounts shape)) fresh)
       else
         do _ <~ emit (LOG_ERR "invalid initial geometry");
         do _ <~ modify (set_mValid false);
         ret fresh);
  do valid <~ gets mValid;
  if valid then
    modify (fun g => set_mInitialShapesBuilders
                       (<[ind := Some isb]> (mInitialShapesBuilders g)) g)
  else ret tt.

Fixpoint ModelGenerator_addShapes (ind : nat) (myGeo : list InitialShape.t) : M unit :=
  match myGeo with
  | [] => ret tt
  | shape :: rest =>
      do _ <~ ModelGenerator_addShape ind shape; ModelGenerator_addShapes (S ind) rest
  end.

(** [ModelGenerator::ModelGenerator(const std::vector<InitialShape>& myGeo)]:
    the constructed instance and what was logged. *)
Definition ModelGenerator_new (myGeo : list InitialShape.t)
  : Completion unit * ModelGenerator * list Event :=
  ModelGenerator_addShapes 0 myGeo (ModelGenerator_init (length myGeo)).

Definition ModelGenerator_of (myGeo : list InitialShape.t) : ModelGenerator :=
  (ModelGenerator_new myGeo).1.2.

(** The values [extractMainShapeAttributes] leaves in its reference
    parameters. *)
Record MainShapeAttributes := {
  msa_ruleFile : string;
  msa_startRule : string;
  msa_seed : Z;
  msa_shapeName : string;
  msa_convertShapeAttr : option (gmap string AttrValue)
}.

Definition extractMainShapeAttributes (shapeAttr : gmap string PyValue)
    (ruleFile startRule : string) (seed : Z) (shapeName : string) : MainShapeAttributes :=
  let convertShapeAttr := (pcu_createAttributeMapFromPythonDict E shapeAttr ∅).1 in
  match convertShapeAttr with
  | Some a =>
      {| msa_ruleFile :=
           if AttributeMap.hasKey a "ruleFile" &&
              bool_decide (AttributeMap.getType a "ruleFile" = PT_STRING)
           then AttributeMap.getString a "ruleFile" else ruleFile;
         msa_startRule :=
           if AttributeMap.hasKey a "startRule" &&
              bool_decide (AttributeMap.getType a "startRule" = PT_STRING)
           then AttributeMap.getString a "startRule" else startRule;
         msa_seed :=
           if AttributeMap.hasKey a "seed" &&
              bool_decide (AttributeMap.getType a "seed" = PT_INT)
           then AttributeMap.getInt a "seed" else seed;
         msa_shapeName :=
           if AttributeMap.hasKey a "shapeName" &&
              bool_decide (AttributeMap.getType a "shapeName" = PT_STRING)
           then AttributeMap.getString a "shapeName" else shapeName;
         msa_convertShapeAttr := convertShapeAttr |}
  | None =>
      {| msa_ruleFile := ruleFile; msa_startRule := startRule; msa_seed := seed;
         msa_shapeName := shapeName; msa_convertShapeAttr := convertShapeAttr |}
  end.

(** The attribute dictionary the loop of [setAndCreateInitialShape] picks
    for the shape at [ind]. *)
Definition selectShapeAttr (shapesAttr : list (gmap string PyValue)) (ind : nat)
  : M (gmap string PyValue) :=
  do shapeAttr <~ vector_at shapesAttr 0;
  if bool_decide (ind < length shapesAttr)%nat then vector_at shapesAttr ind
  else ret shapeAttr.

(** One iteration of the loop of [setAndCreateInitialShape]: what ends up
    in [initShapes[ind]]. *)
Definition setAndCreateInitialShape_at (shapesAttr : list (gmap string PyValue))
    (ind : nat) : M NativeInitialShape :=
  do shapeAttr <~ selectShapeAttr shapesAttr ind;
  do ruleF <~ gets mRuleFile;
  do startR <~ gets mStartRule;
  do randomS <~ gets mSeed;
  do shapeN <~ gets mShapeName;
  let x := extractMainShapeAttributes shapeAttr ruleF startR randomS shapeN in
  do builders <~ gets mInitialShapesBuilders;
  do slot <~ vector_at builders ind;
  do isb <~ deref slot;
  do resolveMap <~ gets mResolveMap;
  let isb' :=
    setAttributes {| sa_ruleFile := msa_ruleFile x; sa_startRule := msa_startRule x;
                     sa_seed := msa_seed x; sa_shapeName := msa_shapeName x;
                     sa_attributes := msa_convertShapeAttr x;
                     sa_resolveMap := resolveMap |} isb in
  do _ <~ modify (set_mInitialShapesBuilders (<[ind := Some isb']> builders));
  ret (createInitialShape isb').

Definition setAndCreateInitialShape (shapesAttr : list (gmap string PyValue))
  : M (list NativeInitialShape) :=
  do n <~ gets (fun g => length (mInitialShapesBuilders g));
  mapM (setAndCreateInitialShape_at shapesAttr) (seq 0 n).

Definition initializeEncoderData (encName : string) (encOpt : gmap string PyValue)
  : M unit :=
  do builder <~ gets mEncoderBuilder;
  do bld <~ deref builder;
  let '(encOptions, bld') := pcu_createAttributeMapFromPythonDict E encOpt bld in
  do _ <~ modify (set_mEncoderBuilder (Some bld'));
  let names := [encName] in
  let options := [pcu_createValidatedOptions E encName encOptions] in
  if decide (encName = ENCODER_ID_PYTHON) then
    modify (set_mEncoders names options)
  else
    let reportOptions : gmap string AttrValue :=
      {[ ENCODER_OPT_NAME := AV_String FILE_CGA_REPORT ]} in
    let printOptions : gmap string AttrValue := ∅ in
    modify (set_mEncoders
              (names ++ [ENCODER_ID_CGA_REPORT; ENCODER_ID_CGA_PRINT])
              (options ++
               [pcu_createValidatedOptions E ENCODER_ID_CGA_REPORT (Some reportOptions);
                pcu_createValidatedOptions E ENCODER_ID_CGA_PRINT (Some printOptions)])).

Definition getRawEncoderDataPointers
  : M (list string * list (option (gmap string AttrValue))) :=
  do names <~ gets mEncodersNames;
  do options <~ gets mEncodersOptionsPtr;
  do n0 <~ vector_at names 0;
  if decide (n0 = ENCODER_ID_PYTHON) then
    do o0 <~ vector_at options 0;
    ret ([n0], [o0])
  else
    do n1 <~ vector_at names 1;
    do n2 <~ vector_at names 2;
    do o0 <~ vector_at options 0;
    do o1 <~ vector_at options 1;
    do o2 <~ vector_at options 2;
    ret ([n0; n1; n2], [o0; o1; o2]).

(** The "Resolve Map" block of [generateModel], entered when
    [rulePackagePath] is not empty. *)
Definition resolveRulePackage (rulePackagePath : string) : M unit :=
  do _ <~ emit (LOG_INF ("using rule package " +:+ rulePackagePath));
  let u8rpkURI := pcu_toFileURI E rulePackagePath in
  do _ <~ emit (call_createResolveMap u8rpkURI);
  do status <~ match prt_createResolveMap E u8rpkURI with
               | Returns (rm, s) =>
                   do _ <~ modify (set_mResolveMap rm);
                   ret s
               | Throws (std_exception what) =>
                   do _ <~ emit (py_print ("CAUGHT EXCEPTION: " +:+ what));
                   ret STATUS_UNSPECIFIED_ERROR
               | Throws unknown_exception => throw unknown_exception
               end;
  do resolveMap <~ gets mResolveMap;
  if bool_decide (is_Some resolveMap) && bool_decide (status = STATUS_OK) then
    emit (LOG_DBG "resolve map = ...")
  else
    do _ <~ emit (LOG_ERR ("getting resolve map from '" +:+ rulePackagePath
                           +:+ "' failed, aborting."));
    return_ [].

(** [prt::generate] with the given sink: the call is recorded, a C++
    exception propagates, otherwise the callbacks received and the status. *)
Definition generate (initialShapes : list NativeInitialShape) (encoders : list string)
    (encodersOptions : list (option (gmap string AttrValue))) (foc : Sink)
  : M (list Callback * Status) :=
  do _ <~ emit (call_generate initialShapes encoders encodersOptions foc);
  match prt_generate E initialShapes encoders encodersOptions foc with
  | Returns r => ret r
  | Throws e => throw e
  end.

Definition generateFailed (genStat : Status) : M unit :=
  emit (LOG_ERR ("prt::generate() failed with status: '"
                 +:+ prt_getStatusDescription E genStat +:+ "'")).

(** [geometryEncoderOptions["outputPath"].cast<std::string>()]: a missing
    key or a value that is not a string raises a pybind11 exception. *)
Definition cast_outputPath (geometryEncoderOptions : gmap string PyValue) : M string :=
  match geometryEncoderOptions !! "outputPath" with
  | Some (PyStr s) => ret s
  | Some _ => throw (std_exception "Unable to cast Python instance to C++ type")
  | None => throw (std_exception "KeyError: 'outputPath'")
  end.

(** The loop that drains the collector: one [emplace_back] per index below
    [mInitialShapesBuilders.size()]. *)
Definition newGeneratedGeo (foc : list Model) (shapeCount : nat)
  : list GeneratedModel.t :=
  map (fun idx =>
         GeneratedModel.mk idx (PyCallbacks_getVertices foc idx)
           (PyCallbacks_getIndices foc idx) (PyCallbacks_getFaces foc idx)
           (PyCallbacks_getReport foc idx))
    (seq 0 shapeCount).

(** The body of the [try] block of [generateModel]. A value that falls
    through ([Normal]) is [newGeneratedGeo], returned after the block. *)
Definition generateModel_try (prtCtx : option PRTContext)
    (shapeAttributes : list (gmap string PyValue)) (rulePackagePath : string)
    (geometryEncoderName : string) (geometryEncoderOptions : gmap string PyValue)
  : M (list GeneratedModel.t) :=
  do _ <~ (if prtCtx is None then
             do _ <~ emit (LOG_ERR "prt has not been initialized.");
             return_ []
           else ret tt);
  do _ <~ (if decide (rulePackagePath = "") then ret tt
           else resolveRulePackage rulePackagePath);
  do initialShapes <~ setAndCreateInitialShape shapeAttributes;
  do encoderBuilder <~ gets mEncoderBuilder;
  do _ <~ (if encoderBuilder is None then modify (set_mEncoderBuilder (Some ∅))
           else ret tt);
  do _ <~ (if decide (geometryEncoderName = "") then ret tt
           else initializeEncoderData geometryEncoderName geometryEncoderOptions);
  do raw <~ getRawEncoderDataPointers;
  let '(encoders, encodersOptions) := raw in
  do names <~ gets mEncodersNames;
  do n0 <~ vector_at names 0;
  do shapeCount <~ gets (fun g => length (mInitialShapesBuilders g));
  if decide (n0 = ENCODER_ID_PYTHON) then
    do r <~ generate initialShapes encoders encodersOptions (PyCallbacksSink shapeCount);
    let '(callbacks, genStat) := r in
    let foc := PyCallbacks_run (PyCallbacks_create shapeCount) callbacks in
    if decide (genStat = STATUS_OK) then ret (newGeneratedGeo foc shapeCount)
    else
      do _ <~ generateFailed genStat;
      return_ []
  else
    do outputPath <~ cast_outputPath geometryEncoderOptions;
    do _ <~ emit (LOG_DBG ("got outputPath = " +:+ outputPath));
    if fs_is_directory E outputPath && fs_exists E outputPath then
      do r <~ generate initialShapes encoders encodersOptions
                (FileOutputCallbacksSink outputPath);
      let '(_, genStat) := r in
      if decide (genStat = STATUS_OK) then return_ []
      else
        do _ <~ generateFailed genStat;
        return_ []
    else
      do _ <~ emit (LOG_ERR ("The directory specified by 'outputPath' is not valid or "
                             +:+ "does not exist: " +:+ outputPath));
      return_ [].

(** [ModelGenerator::generateModel]: the outcome for the caller, the
    instance afterwards and the events emitted. *)
Definition generateModel (prtCtx : option PRTContext)
    (shapeAttributes : list (gmap string PyValue)) (rulePackagePath : string)
    (geometryEncoderName : string) (geometryEncoderOptions : gmap string PyValue)
    (g : ModelGenerator) : Outcome * ModelGenerator * list Event :=
  if negb (mValid g) then
    (Returned [], g, [LOG_ERR "invalid ModelGenerator instance."])
  else if bool_decide (length shapeAttributes ≠ 1%nat) &&
          bool_decide (length shapeAttributes < length (mInitialShapesBuilders g))%nat then
    (Returned [], g, [LOG_ERR "not enough shape attributes dictionaries defined."])
  else
    let warning :=
      if bool_decide (length (mInitialShapesBuilders g) < length shapeAttributes)%nat then
        [LOG_WRN ("number of shape attributes dictionaries defined greater than "
                  +:+ "number of initial shapes given.")]
      else [] in
    match generateModel_try prtCtx shapeAttributes rulePackagePath geometryEncoderName
            geometryEncoderOptions g with
    | (Normal newGeneratedGeo, g', evs) => (Returned newGeneratedGeo, g', warning ++ evs)
    | (Return_ models, g', evs) => (Returned models, g', warning ++ evs)
    | (Throw (std_exception what), g', evs) =>
        (Returned [], g', warning ++ evs ++ [LOG_ERR ("caught exception: " +:+ what)])
    | (Throw unknown_exception, g', evs) =>
        (Returned [], g', warning ++ evs ++ [LOG_ERR "caught unknown exception."])
    | (Undefined, g', evs) => (UndefinedBehaviour, g', warning ++ evs)
    end.

(** [ModelGenerator::generateAnotherModel] *)
Definition generateAnotherModel (prtCtx : option PRTContext)
    (shapeAttributes : list (gmap string PyValue)) (g : ModelGenerator)
  : Outcome * ModelGenerator * list Event :=
  if mResolveMap g is None then
    (Returned [], g, [LOG_ERR "generate model with all required parameters"])
  else generateModel prtCtx shapeAttributes "" "" ∅ g.

End ModelGenerator.

(** ** Vocabulary of the properties *)

(** The attribute dictionary used for the shape at [ind], as a plain
    function: the one at [ind] when there is one, the first otherwise. *)
Definition attrAt (shapesAttr : list (gmap string PyValue)) (ind : nat)
  : option (gmap string PyValue) :=
  if bool_decide (ind < length shapesAttr)%nat then shapesAttr !! ind else shapesAttr !! 0%nat.

(** The attributes a builder receives for the dictionary [shapeAttr] when the
    instance is in state [g]. *)
Definition shapeAttributesFor (E : Engine) (g : ModelGenerator)
    (shapeAttr : gmap string PyValue) : ShapeAttributes :=
  let x := extractMainShapeAttributes E shapeAttr (mRuleFile g) (mStartRule g)
             (mSeed g) (mShapeName g) in
  {| sa_ruleFile := msa_ruleFile x; sa_startRule := msa_startRule x;
     sa_seed := msa_seed x; sa_shapeName := msa_shapeName x;
     sa_attributes := msa_convertShapeAttr x; sa_resolveMap := mResolveMap g |}.

(** The converted attribute map of [shapeAttr] carries no usable entry for
    the recognised key [key] of primitive type [ty]. *)
Definition omitsKey (E : Engine) (shapeAttr : gmap string PyValue) (key : string)
    (ty : PrimitiveType) : Prop :=
  match (pcu_createAttributeMapFromPythonDict E shapeAttr ∅).1 with
  | Some a => AttributeMap.hasKey a key && bool_decide (AttributeMap.getType a key = ty) = false
  | None => True
  end.

(** The construction loop turns the instance invalid on such a shape. *)
Definition rejected (E : Engine) (shape : InitialShape.t) : Prop :=
  if InitialShape.getPathFlag shape then
    pcu_toFileURI E (InitialShape.getPath shape) = "" ∨
    prt_resolveGeometry E (pcu_toFileURI E (InitialShape.getPath shape)) ≠ STATUS_OK
  else
    prt_setGeometry E (InitialShape.mVertices shape) (InitialShape.mIndices shape)
      (InitialShape.mFaceCounts shape) ≠ STATUS_OK.

(** Everything but the builders is the same in [g] and [g']. *)
Definition sameExceptBuilders (g g' : ModelGenerator) : Prop :=
  g' = set_mInitialShapesBuilders (mInitialShapesBuilders g') g.

(** Everything but the builders and the validity flag is the same in [g]
    and [g']. *)
Definition constructed (g g' : ModelGenerator) : Prop :=
  g' = set_mValid (mValid g') (set_mInitialShapesBuilders (mInitialShapesBuilders g') g).

(** What a call never touches: the four defaults, the validity flag and the
    number of builders. *)
Definition frame (g g' : ModelGenerator) : Prop :=
  mRuleFile g' = mRuleFile g ∧ mStartRule g' = mStartRule g ∧ mSeed g' = mSeed g ∧
  mShapeName g' = mShapeName g ∧ mValid g' = mValid g ∧
  length (mInitialShapesBuilders g') = length (mInitialShapesBuilders g).

(** The encoder set is either not yet established, or the in-memory encoder
    alone, or a file-based encoder with the two auxiliary encoders. *)
Definition encodersWf (g : ModelGenerator) : Prop :=
  (mEncodersNames g = [] ∧ mEncodersOptionsPtr g = []) ∨
  (mEncodersNames g = [ENCODER_ID_PYTHON] ∧ length (mEncodersOptionsPtr g) = 1%nat) ∨
  (∃ e, e ≠ ENCODER_ID_PYTHON ∧
        mEncodersNames g = [e; ENCODER_ID_CGA_REPORT; ENCODER_ID_CGA_PRINT] ∧
        length (mEncodersOptionsPtr g) = 3%nat).

(** The invariant of every instance the constructor and the member
    functions produce. *)
Definition wf (g : ModelGenerator) : Prop :=
  (mValid g = true → Forall is_Some (mInitialShapesBuilders g)) ∧ encodersWf g.

(** The encoder a call runs with: the one named, or the first of the
    encoder set kept from an earlier call. *)
Definition selectedEncoder (geometryEncoderName : string) (g : ModelGenerator)
  : option string :=
  if decide (geometryEncoderName = "") then mEncodersNames g !! 0%nat
  else Some geometryEncoderName.

(** The existing directory named by the [outputPath] entry, if any. *)
Definition outputDirectory (E : Engine) (geometryEncoderOptions : gmap string PyValue)
  : option string :=
  match geometryEncoderOptions !! "outputPath" with
  | Some (PyStr s) => if fs_is_directory E s && fs_exists E s then Some s else None
  | _ => None
  end.

(** The attribute-count precondition of [generateModel]. *)
Definition enoughAttributes (shapeAttributes : list (gmap string PyValue))
    (g : ModelGenerator) : Prop :=
  length shapeAttributes = 1%nat ∨
  (length (mInitialShapesBuilders g) ≤ length shapeAttributes)%nat.

(** The rule package, when one is named, resolves. *)
Definition resolves (E : Engine) (rulePackagePath : string) : Prop :=
  rulePackagePath = "" ∨
  ∃ rm, prt_createResolveMap E (pcu_toFileURI E rulePackagePath) = Returns (Some rm, STATUS_OK).

(** A [generateModel] call, for sequences of calls on one instance. *)
Record Call := {
  call_prtCtx : option PRTContext;
  call_shapeAttributes : list (gmap string PyValue);
  call_rulePackagePath : string;
  call_geometryEncoderName : string;
  call_geometryEncoderOptions : gmap string PyValue
}.

Definition runCall (E : Engine) (c : Call) (g : ModelGenerator)
  : Outcome * ModelGenerator * list Event :=
  generateModel E (call_prtCtx c) (call_shapeAttributes c) (call_rulePackagePath c)
    (call_geometryEncoderName c) (call_geometryEncoderOptions c) g.

(** The instance after a sequence of calls. *)
Definition afterCalls (E : Engine) (calls : list Call) (g : ModelGenerator) : ModelGenerator :=
  fold_left (fun g c => (runCall E c g).1.2) calls g.
(** The calls of [prt::generate], respectively of any Engine entry point,
    among the events of a call. *)
Definition generateCalls (evs : list Event) : list Event := List.filter is_generate_call evs.
Definition engineCalls (evs : list Event) : list Event := List.filter is_engine_call evs.
Definition errors (evs : list Event) : list Event := List.filter is_error evs.
Definition warnings (evs : list Event) : list Event := List.filter is_warning evs.

(** The native shapes handed to the Engine: one per builder, the one at [k]
    carrying the attributes of the dictionary chosen for [k]. *)
Definition shapesPrepared (E : Engine) (shapesAttr : list (gmap string PyValue))
    (g' : ModelGenerator) (shapes : list NativeInitialShape) : Prop :=
  length shapes = length (mInitialShapesBuilders g') ∧
  ∀ k shape, shapes !! k = Some shape →
    ∃ a, attrAt shapesAttr k = Some a ∧
         nis_attributes shape = Some (shapeAttributesFor E g' a).

(** How the in-memory branch completes, given what [prt::generate] did. *)
Definition pythonCompletion (shapeCount : nat) (r : NativeCall (list Callback * Status))
  : Completion (list GeneratedModel.t) :=
  match r with
  | Returns (callbacks, genStat) =>
      if decide (genStat = STATUS_OK) then
        Normal (newGeneratedGeo (PyCallbacks_run (PyCallbacks_create shapeCount) callbacks)
                  shapeCount)
      else Return_ []
  | Throws e => Throw e
  end.

(** The ways through the [try] block of [generateModel], with the completion,
    the instance and the events each one ends in. *)
Inductive TryPath (E : Engine) (prtCtx : option PRTContext)
    (shapeAttributes : list (gmap string PyValue)) (rulePackagePath : string)
    (geometryEncoderName : string) (geometryEncoderOptions : gmap string PyValue)
    (g : ModelGenerator)
  : Completion (list GeneratedModel.t) → ModelGenerator → list Event → Prop :=
| tp_uninitialized :
    prtCtx = None →
    TryPath E prtCtx shapeAttributes rulePackagePath geometryEncoderName
      geometryEncoderOptions g (Return_ []) g [LOG_ERR "prt has not been initialized."]
| tp_unresolved cu c g' evs :
    is_Some prtCtx →
    rulePackagePath ≠ "" →
    ¬ resolves E rulePackagePath →
    resolveRulePackage E rulePackagePath g = (cu, g', evs) →
    (cu = Return_ [] ∧ c = Return_ []) ∨
    (cu = Throw unknown_exception ∧ c = Throw unknown_exception) →
    TryPath E prtCtx shapeAttributes rulePackagePath geometryEncoderName
      geometryEncoderOptions g c g' evs
| tp_undefined_shapes g' evs :
    is_Some prtCtx →
    resolves E rulePackagePath →
    ¬ (Forall is_Some (mInitialShapesBuilders g) ∧
       (length (mInitialShapesBuilders g) = 0%nat ∨ shapeAttributes ≠ [])) →
    generateCalls evs = [] →
    TryPath E prtCtx shapeAttributes rulePackagePath geometryEncoderName
      geometryEncoderOptions g Undefined g' evs
| tp_undefined_encoders g' evs :
    is_Some prtCtx →
    resolves E rulePackagePath →
    ¬ (encodersWf g ∧ is_Some (selectedEncoder geometryEncoderName g)) →
    generateCalls evs = [] →
    TryPath E prtCtx shapeAttributes rulePackagePath geometryEncoderName
      geometryEncoderOptions g Undefined g' evs
| tp_python g' evs shapes encs eopts :
    is_Some prtCtx →
    resolves E rulePackagePath →
    selectedEncoder geometryEncoderName g = Some ENCODER_ID_PYTHON →
    shapesPrepared E shapeAttributes g' shapes →
    let sink := PyCallbacksSink (length (mInitialShapesBuilders g)) in
    generateCalls evs = [call_generate shapes encs eopts sink] →
    TryPath E prtCtx shapeAttributes rulePackagePath geometryEncoderName
      geometryEncoderOptions g
      (pythonCompletion (length (mInitialShapesBuilders g))
         (prt_generate E shapes encs eopts sink)) g' evs
| tp_no_output_directory c g' evs e :
    is_Some prtCtx →
    resolves E rulePackagePath →
    selectedEncoder geometryEncoderName g = Some e →
    e ≠ ENCODER_ID_PYTHON →
    outputDirectory E geometryEncoderOptions = None →
    generateCalls evs = [] →
    c = Return_ [] ∨ (∃ what, c = Throw (std_exception what)) →
    TryPath E prtCtx shapeAttributes rulePackagePath geometryEncoderName
      geometryEncoderOptions g c g' evs
| tp_file c g' evs e dir shapes encs eopts :
    is_Some prtCtx →
    resolves E rulePackagePath →
    selectedEncoder geometryEncoderName g = Some e →
    e ≠ ENCODER_ID_PYTHON →
    outputDirectory E geometryEncoderOptions = Some dir →
    shapesPrepared E shapeAttributes g' shapes →
    generateCalls evs = [call_generate shapes encs eopts (FileOutputCallbacksSink dir)] →
    c = Return_ [] ∨ (∃ e, c = Throw e) →
    TryPath E prtCtx shapeAttributes rulePackagePath geometryEncoderName
      geometryEncoderOptions g c g' evs.

(** What the caller of [generateModel] gets for a completion of the [try]
    block, and what the handlers log. *)
Definition outcomeOf (c : Completion (list GeneratedModel.t)) : Outcome :=
  match c with
  | Normal models | Return_ models => Returned models
  | Throw _ => Returned []
  | Undefined => UndefinedBehaviour
  end.

Definition caught (c : Completion (list GeneratedModel.t)) : list Event :=
  match c with
  | Throw (std_exception what) => [LOG_ERR ("caught exception: " +:+ what)]
  | Throw unknown_exception => [LOG_ERR "caught unknown exception."]
  | _ => []
  end.

Definition surplusWarning (shapeAttributes : list (gmap string PyValue))
    (g : ModelGenerator) : list Event :=
  if bool_decide (length (mInitialShapesBuilders g) < length shapeAttributes)%nat then
    [LOG_WRN ("number of shape attributes dictionaries defined greater than "
              +:+ "number of initial shapes given.")]
  else [].

(** ** A concrete Engine and concrete inputs, for the examples *)

Definition demoConvert (v : PyValue) : option AttrValue :=
  match v with
  | PyStr s => Some (AV_String s)
  | PyInt z => Some (AV_Int z)
  | PyFloat d => Some (AV_Float d)
  | PyBool b => Some (AV_Bool b)
  | PyNone => None
  end.

Definition demoResolveMap : ResolveMap :=
  {| rm_entries := {[ "bin/rule.cgb" := "file:/good.rpk!/bin/rule.cgb" ]} |}.

(** An Engine that accepts non-empty inline geometry and the file
    ["shape.obj"], resolves the rule package ["good.rpk"], raises on
    ["throw.rpk"], reports a failure status for any other package, and whose
    generation pass reports the index of the first shape. The directory
    ["/tmp/out"] exists. *)
Definition demoEngine : Engine := {|
  prt_setGeometry := fun vertices _ _ =>
    if bool_decide (vertices = []) then STATUS_OTHER 1 else STATUS_OK;
  prt_resolveGeometry := fun uri =>
    if decide (uri = "file:/shape.obj") then STATUS_OK else STATUS_OTHER 2;
  prt_createResolveMap := fun uri =>
    if decide (uri = "file:/good.rpk") then Returns (Some demoResolveMap, STATUS_OK)
    else if decide (uri = "file:/throw.rpk") then Throws (std_exception "bad uri")
    else Returns (None, STATUS_OTHER 3);
  prt_generate := fun _ _ _ _ => Returns ([addIndex 0], STATUS_OK);
  prt_getStatusDescription := fun _ => "status";
  pcu_toFileURI := fun p => if decide (p = "") then "" else "file:/" +:+ p;
  pcu_createAttributeMapFromPythonDict := fun d bld =>
    let m := omap demoConvert d ∪ bld in (Some m, m);
  pcu_createValidatedOptions := fun _ o => o;
  fs_is_directory := fun p => bool_decide (p = "/tmp/out");
  fs_exists := fun p => bool_decide (p = "/tmp/out")
|}.

Definition demoQuad : list double := replicate 12 (S754_zero false).

(** The shape [InitialShape(demoQuad)] constructs. *)
Definition demoShape : InitialShape.t :=
  InitialShape.of_geometry demoQuad [0; 1; 2; 3] [4].

Definition demoCtx : option PRTContext := initializePRT true None.

(** A fresh instance over one quad, and the same instance after a first
    successful call with the in-memory encoder and seed 42. *)
Definition demoFresh : ModelGenerator :=
  ModelGenerator_of demoEngine [demoShape].

Definition demoFirstCall : Call :=
  {| call_prtCtx := demoCtx;
     call_shapeAttributes := [ {[ "seed" := PyInt 42 ]} ];
     call_rulePackagePath := "good.rpk";
     call_geometryEncoderName := ENCODER_ID_PYTHON;
     call_geometryEncoderOptions := ∅ |}.

Definition demoUsed : ModelGenerator := afterCalls demoEngine [demoFirstCall] demoFresh.

(** The seeds of the shapes handed to the Engine in the generation calls
    among [evs]. *)
Definition seedsOf (evs : list Event) : list (list (option Z)) :=
  omap (fun ev => match ev with
                  | call_generate shapes _ _ _ =>
                      Some (map (fun s => sa_seed <$> nis_attributes s) shapes)
                  | _ => None
                  end) evs.

(** ** [copyToCStr] and [PythonLogHandler::toXML] of [wrap.h] *)

(** The characters of a C string: those before the first NUL. *)
Fixpoint until_nul (s : list Ascii.ascii) : list Ascii.ascii :=
  match s with
  | [] => []
  | c :: s' => if decide (c = Ascii.zero) then [] else c :: until_nul s'
  end.

(** [strncpy(dest, src, n)]: exactly [n] characters of [dest] are written,
    the characters of the C string [src] cut at [n], then NULs. *)
Definition strncpy (dest src : list Ascii.ascii) (n : nat) : list Ascii.ascii :=
  take n (until_nul src ++ replicate n Ascii.zero) ++ drop n dest.

(** [copyToCStr(str, cstr, cstrSize)]: the buffer [cstr] points to and the
    value left in [cstrSize]. A buffer shorter than [cstrSize] is written
    past its end: undefined behaviour, [None]. *)
Definition copyToCStr (str : string) (cstr : list Ascii.ascii) (cstrSize : nat)
  : option (list Ascii.ascii * nat) :=
  if decide (cstrSize = 0)%nat then Some (cstr, (String.length str + 1)%nat)
  else if decide (cstrSize <= length cstr)%nat then
    Some (<[(cstrSize - 1)%nat := Ascii.zero]>
            (strncpy cstr (String.list_ascii_of_string str) cstrSize),
          (String.length str + 1)%nat)
  else None.

(** What a C caller reads from a buffer: the string before the first NUL. *)
Definition c_string (buf : list Ascii.ascii) : string :=
  String.string_of_list_ascii (until_nul buf).

(** [operator<<(std::ostream&, const PythonLogHandler&)] *)
Definition PythonLogHandler_xml : string := "<PythonLogHandler />".

(** [PythonLogHandler::toXML(result, resultSize, stat)]: the buffer and the
    size as [copyToCStr] leaves them, and what is stored through [stat] when
    it is not null ([wantStat]). *)
Definition toXML (result : list Ascii.ascii) (resultSize : nat) (wantStat : bool)
  : option (list Ascii.ascii * nat) * option Status :=
  (copyToCStr PythonLogHandler_xml result resultSize,
   if wantStat then Some STATUS_OK else None).

(** ** The life cycle of [prtCtx] *)

(** [PRTContext::operator bool()] *)
Definition PRTContext_bool (c : PRTContext) : bool := mPRTHandle c.

(** The calls a host makes on the module: [initialize_prt] (with what
    [prt::init] would hand back, were it called) and [shutdown_prt]. *)
Inductive LifecycleCall :=
| initialize_prt (handle : bool)
| shutdown_prt.

Definition lifecycleStep (prtCtx : option PRTContext) (c : LifecycleCall)
  : option PRTContext :=
  match c with
  | initialize_prt handle => initializePRT handle prtCtx
  | shutdown_prt => shutdownPRT prtCtx
  end.

Definition afterLifecycle (cs : list LifecycleCall) (prtCtx : option PRTContext)
  : option PRTContext :=
  fold_left lifecycleStep cs prtCtx.

(** ** Further vocabulary *)

(** The geometry the constructor puts into the builder of [shape]. *)
Definition geometryOf (E : Engine) (shape : InitialShape.t) : Geometry :=
  if InitialShape.getPathFlag shape then
    GeometryURI (pcu_toFileURI E (InitialShape.getPath shape))
  else
    GeometryInline (InitialShape.mVertices shape) (InitialShape.mIndices shape)
      (InitialShape.mFaceCounts shape).

(** The geometry held by each builder slot (none for an empty slot). *)
Definition geometries (g : ModelGenerator) : list (option Geometry) :=
  (fun slot : option InitialShapeBuilder => slot ≫= isb_geometry)
    <$> mInitialShapesBuilders g.

(** The resolve map held after the "Resolve Map" block ran for
    [rulePackagePath] on an instance in state [g]. *)
Definition resolveMapAfter (E : Engine) (rulePackagePath : string) (g : ModelGenerator)
  : option ResolveMap :=
  if decide (rulePackagePath = "") then mResolveMap g
  else match prt_createResolveMap E (pcu_toFileURI E rulePackagePath) with
       | Returns (rm, _) => rm
       | Throws _ => mResolveMap g
       end.

(** Among [evs] there is a generation pass that the Engine completed with
    [STATUS_OK]. *)
Definition succeeded (E : Engine) (evs : list Event) : Prop :=
  ∃ shapes encs eopts sink cbs,
    In (call_generate shapes encs eopts sink) evs ∧
    prt_generate E shapes encs eopts sink = Returns (cbs, STATUS_OK).

(** The number of encoders handed to the Engine when the first is [n0]. *)
Definition encoderCount (n0 : string) : nat :=
  if decide (n0 = ENCODER_ID_PYTHON) then 1%nat else 3%nat.

(** The encoders that accompany [enc] in the encoder set. *)
Definition auxiliaryEncoders (enc : string) : list string :=
  if decide (enc = ENCODER_ID_PYTHON) then []
  else [ENCODER_ID_CGA_REPORT; ENCODER_ID_CGA_PRINT].

(** The Engine calls the "Resolve Map" block makes for [rulePackagePath]. *)
Definition resolvePart (E : Engine) (rulePackagePath : string) : list Event :=
  if decide (rulePackagePath = "") then []
  else [call_createResolveMap (pcu_toFileURI E rulePackagePath)].

(** What a generation pass of a call on [g] that leaves [g'] is handed: the
    geometry held by the builders, the leading one or three entries of the
    encoder set with their options, and a sink chosen by the first encoder. *)
Definition generateArguments (E : Engine) (geometryEncoderOptions : gmap string PyValue)
    (g g' : ModelGenerator) (shapes : list NativeInitialShape) (encs : list string)
    (eopts : list (option (gmap string AttrValue))) (sink : Sink) : Prop :=
  nis_geometry <$> shapes = geometries g ∧
  ∃ n0, mEncodersNames g' !! 0%nat = Some n0 ∧
    encs = take (encoderCount n0) (mEncodersNames g') ∧
    eopts = take (encoderCount n0) (mEncodersOptionsPtr g') ∧
    if decide (n0 = ENCODER_ID_PYTHON) then
      sink = PyCallbacksSink (length (mInitialShapesBuilders g))
    else
      ∃ dir, outputDirectory E geometryEncoderOptions = Some dir ∧
             sink = FileOutputCallbacksSink dir.

(** A call that passes the three guards of [generateModel]. *)
Definition passesGuards (ctx : option PRTContext) (attrs : list (gmap string PyValue))
    (g : ModelGenerator) : Prop :=
  mValid g = true ∧ enoughAttributes attrs g ∧ is_Some ctx.

#[global] Instance rejected_dec (E : Engine) (shape : InitialShape.t) :
  Decision (rejected E shape).
Proof. unfold rejected. destruct (InitialShape.getPathFlag shape); apply _. Defined.

(** A call with a file-based encoder into the existing directory. *)
Definition demoFileCall : Call :=
  {| call_prtCtx := demoCtx;
     call_shapeAttributes := [∅];
     call_rulePackagePath := "good.rpk";
     call_geometryEncoderName := "com.esri.prt.codecs.OBJEncoder";
     call_geometryEncoderOptions := {[ "outputPath" := PyStr "/tmp/out" ]} |}.

#[global] Instance passesGuards_dec (ctx : option PRTContext)
    (attrs : list (gmap string PyValue)) (g : ModelGenerator) :
  Decision (passesGuards ctx attrs g).
Proof. unfold passesGuards, enoughAttributes. apply _. Defined.

(** The resolve map an instance constructed as [g0] holds after the call
    [c], when it held [held] before: a call stopped by a guard, a call with
    an empty rule-package path and a call whose [createResolveMap] raised
    leave it; any other call stores what [createResolveMap] returned,
    whatever the status and whatever the call did afterwards. *)
Definition heldAfterCall (E : Engine) (g0 : ModelGenerator) (held : option ResolveMap)
    (c : Call) : option ResolveMap :=
  if decide (passesGuards (call_prtCtx c) (call_shapeAttributes c) g0) then
    if decide (call_rulePackagePath c = "") then held
    else match prt_createResolveMap E (pcu_toFileURI E (call_rulePackagePath c)) with
         | Returns (rm, _) => rm
         | Throws _ => held
         end
  else held.

(** The resolve map held after the calls [calls], none being held at
    construction. *)
Definition heldResolveMap (E : Engine) (g0 : ModelGenerator) (calls : list Call)
  : option ResolveMap :=
  fold_left (heldAfterCall E g0) calls None.

(** An Engine like [demoEngine], except that the rule package ["half.rpk"]
    yields a resolve map together with a failure status, and that the
    generation pass fails when the first shape carries the seed 13. *)
Definition demoUnreliableEngine : Engine := {|
  prt_setGeometry := prt_setGeometry demoEngine;
  prt_resolveGeometry := prt_resolveGeometry demoEngine;
  prt_createResolveMap := fun uri =>
    if decide (uri = "file:/half.rpk") then Returns (Some demoResolveMap, STATUS_OTHER 3)
    else prt_createResolveMap demoEngine uri;
  prt_generate := fun shapes encs eopts sink =>
    if decide (sa_seed <$> (shapes !! 0%nat ≫= nis_attributes) = Some 13) then
      Returns ([], STATUS_OTHER 4)
    else prt_generate demoEngine shapes encs eopts sink;
  prt_getStatusDescription := prt_getStatusDescription demoEngine;
  pcu_toFileURI := pcu_toFileURI demoEngine;
  pcu_createAttributeMapFromPythonDict := pcu_createAttributeMapFromPythonDict demoEngine;
  pcu_createValidatedOptions := pcu_createValidatedOptions demoEngine;
  fs_is_directory := fs_is_directory demoEngine;
  fs_exists := fs_exists demoEngine
|}.

(** ** Facts about the machine integers and [iota] *)

Lemma uint32_small z : 0 <= z < 2 ^ 32 -> uint32 z = z.
Proof. intros H. unfold uint32. now apply Z.mod_small. Qed.

(** While the counter stays below [INT_MAX], [iota] counts up from
    [start]. *)
Lemma iota_seq n : forall start : nat,
  Z.of_nat start + Z.of_nat n < 2 ^ 31 ->
  iota n (Z.of_nat start) = Some (map Z.of_nat (seq start n)).
Proof.
  induction n as [|n IH]; intros start Hb; simpl; [done|].
  rewrite decide_True by lia. replace (Z.of_nat start + 1) with (Z.of_nat (S start)) by lia.
  rewrite IH by lia. by rewrite uint32_small by lia.
Qed.

(** The increment that follows the store of [INT_MAX] overflows. *)
Lemma iota_overflow n : forall value,
  value < 2 ^ 31 -> 2 ^ 31 <= value + Z.of_nat n -> iota n value = None.
Proof.
  induction n as [|n IH]; intros value Hlt Hge; [lia|].
  cbn [iota]. destruct (decide (value < 2 ^ 31 - 1)) as [Hv|Hv]; [|done].
  by rewrite IH by lia.
Qed.

(** ** Running the monad *)

Section Inversion.

Context {A B : Type}.

Lemma bind_inv (m : M A) (k : A -> M B) g c g' evs :
  bind m k g = (c, g', evs) ->
  (exists a g1 ev1 ev2,
      m g = (Normal a, g1, ev1) /\ k a g1 = (c, g', ev2) /\ evs = ev1 ++ ev2) \/
  ((exists ms, m g = (Return_ ms, g', evs) /\ c = Return_ ms) \/
   (exists e, m g = (Throw e, g', evs) /\ c = Throw e) \/
   (m g = (Undefined, g', evs) /\ c = Undefined)).
Proof.
  unfold bind. destruct (m g) as [[cm g1] ev1]. destruct cm as [a|ms|e|].
  - destruct (k a g1) as [[c2 g2] ev2] eqn:Hk. intros [= <- <- <-].
    left. now exists a, g1, ev1, ev2.
  - intros [= <- <- <-]. right. left. now exists ms.
  - intros [= <- <- <-]. right. right. left. now exists e.
  - intros [= <- <- <-]. right. right. now right.
Qed.

Lemma vector_at_inv (v : list A) i g (c : Completion A) g' evs :
  vector_at v i g = (c, g', evs) ->
  g' = g /\ evs = [] /\
  match v !! i with Some x => c = Normal x | None => c = Undefined end.
Proof. unfold vector_at. destruct (v !! i); intros [= <- <- <-]; done. Qed.

End Inversion.

(** Inversion of one [bind] in hypothesis [H]: the first computation either
    completed normally (the continuation is left in [H]) or cut the rest
    short. *)
Ltac bind_cases H a g1 ev1 Hm :=
  let ev2 := fresh "ev" in
  let ms := fresh "ms" in
  let e := fresh "e" in
  apply bind_inv in H as
    [(a & g1 & ev1 & ev2 & Hm & H & ->) | [(ms & Hm & ->) | [(e & Hm & ->) | (Hm & ->)]]];
  [cbv beta in H | | | ].

(** The step [do x <~ gets f; k] in hypothesis [H]. *)
Ltac bind_gets H :=
  let a := fresh "a" in
  let g1 := fresh "g" in
  let ev1 := fresh "ev" in
  let Hm := fresh "Hm" in
  bind_cases H a g1 ev1 Hm;
  unfold gets in Hm; try congruence;
  injection Hm as <- <- <-; rewrite ?app_nil_l.


(** ** The loop of [setAndCreateInitialShape] *)

Section SetAndCreate.

Context (E : Engine).

Lemma sameExceptBuilders_refl g : sameExceptBuilders g g.
Proof. unfold sameExceptBuilders. now destruct g. Qed.

Lemma attrAt_is_Some attrs ind : attrs <> [] -> is_Some (attrAt attrs ind).
Proof.
  intros Hne. unfold attrAt. case_bool_decide as Hlt.
  - now apply lookup_lt_is_Some.
  - destruct attrs; [done|]. now eexists.
Qed.



Lemma selectShapeAttr_eq attrs ind g :
  selectShapeAttr attrs ind g =
  match attrAt attrs ind with
  | Some a => (Normal a, g, [])
  | None => (Undefined, g, [])
  end.
Proof.
  unfold selectShapeAttr, attrAt, bind, vector_at.
  destruct attrs as [|a0 attrs]; simpl.
  - done.
  - case_bool_decide as Hlt; [|done].
    destruct ((a0 :: attrs) !! ind) eqn:Hl; [done|].
    apply lookup_ge_None in Hl. simpl in *. lia.
Qed.

Lemma setAndCreateInitialShape_at_eq attrs ind g :
  setAndCreateInitialShape_at E attrs ind g =
  match attrAt attrs ind, mInitialShapesBuilders g !! ind with
  | Some a, Some (Some isb) =>
      let isb' := setAttributes (shapeAttributesFor E g a) isb in
      (Normal (createInitialShape isb'),
       set_mInitialShapesBuilders (<[ind := Some isb']> (mInitialShapesBuilders g)) g, [])
  | _, _ => (Undefined, g, [])
  end.
Proof.
  unfold setAndCreateInitialShape_at. unfold bind at 1. rewrite selectShapeAttr_eq.
  destruct (attrAt attrs ind) as [a|]; [|done].
  unfold bind, gets, vector_at, deref, modify, ret, undefined.
  destruct (mInitialShapesBuilders g !! ind) as [[isb|]|]; reflexivity.
Qed.

Lemma setAndCreate_loop attrs : forall n i g c g' evs,
  mapM (setAndCreateInitialShape_at E attrs) (seq i n) g = (c, g', evs) ->
  evs = [] /\ sameExceptBuilders g g' /\
  length (mInitialShapesBuilders g') = length (mInitialShapesBuilders g) /\
  (forall j, (j < i)%nat -> mInitialShapesBuilders g' !! j = mInitialShapesBuilders g !! j) /\
  (forall j, (i + n <= j)%nat ->
             mInitialShapesBuilders g' !! j = mInitialShapesBuilders g !! j) /\
  (Forall is_Some (mInitialShapesBuilders g) -> Forall is_Some (mInitialShapesBuilders g')) /\
  match c with
  | Normal shapes =>
      length shapes = n /\
      forall k shape, shapes !! k = Some shape ->
        exists a isb, attrAt attrs (i + k) = Some a /\
                      mInitialShapesBuilders g !! (i + k)%nat = Some (Some isb) /\
                      shape = createInitialShape (setAttributes (shapeAttributesFor E g a) isb)
  | Undefined =>
      ~ (Forall is_Some (mInitialShapesBuilders g) /\
         (i + n <= length (mInitialShapesBuilders g))%nat /\ (n = 0%nat \/ attrs <> []))
  | _ => False
  end.
Proof.
  induction n as [|n IH]; intros i g c g' evs H.
  - simpl in H. injection H as <- <- <-.
    split; [done|]. split; [apply sameExceptBuilders_refl|].
    repeat split; done.
  - cbn [seq mapM] in H. bind_cases H y g1 ev1 Hy.
    + rewrite setAndCreateInitialShape_at_eq in Hy.
      destruct (attrAt attrs i) as [a|] eqn:Ha; [|done].
      destruct (mInitialShapesBuilders g !! i) as [[isb|]|] eqn:Hi; try done.
      cbv zeta in Hy. injection Hy as <- <- <-.
      bind_cases H ys g2 ev2 Hys.
      * injection H as <- <- <-.
        apply IH in Hys as (-> & Hsame & Hlen & Hlow & Hhigh & Hsome & Hlen' & Hshapes).
        simpl in Hlen, Hlow, Hhigh, Hsome.
        rewrite length_insert in Hlen.
        split; [done|]. split.
        { unfold sameExceptBuilders in *. rewrite Hsame. reflexivity. }
        split; [done|]. split.
        { intros j Hj. rewrite Hlow by lia. apply list_lookup_insert_ne. lia. }
        split.
        { intros j Hj. rewrite Hhigh by lia. apply list_lookup_insert_ne. lia. }
        split.
        { intros HF. apply Hsome.
          assert (Hin : (i < length (mInitialShapesBuilders g))%nat)
            by (apply lookup_lt_is_Some; eauto).
          apply Forall_insert; [done|]. now eexists. }
        split; [simpl; lia|].
        intros [|k] shape Hk.
        { simpl in Hk. injection Hk as <-. exists a, isb.
          rewrite Nat.add_0_r. done. }
        { simpl in Hk. apply Hshapes in Hk as (a' & isb' & Ha' & Hb' & ->).
          simpl in Hb'. rewrite list_lookup_insert_ne in Hb' by lia.
          exists a', isb'. replace (i + S k)%nat with (S i + k)%nat by lia. done. }
      * apply IH in Hys as (_ & _ & _ & _ & _ & _ & []).
      * apply IH in Hys as (_ & _ & _ & _ & _ & _ & []).
      * apply IH in Hys as (-> & Hsame & Hlen & Hlow & Hhigh & Hsome & Hundef).
        simpl in Hlen, Hlow, Hhigh, Hsome, Hundef.
        rewrite length_insert in Hlen, Hundef.
        split; [done|]. split.
        { unfold sameExceptBuilders in *. rewrite Hsame. reflexivity. }
        split; [done|]. split.
        { intros j Hj. rewrite Hlow by lia. apply list_lookup_insert_ne. lia. }
        split.
        { intros j Hj. rewrite Hhigh by lia. apply list_lookup_insert_ne. lia. }
        split.
        { intros HF. apply Hsome.
          assert (Hin : (i < length (mInitialShapesBuilders g))%nat)
            by (apply lookup_lt_is_Some; eauto).
          apply Forall_insert; [done|]. now eexists. }
        intros (HF & Hb & Hne). apply Hundef. split.
        { assert (Hin : (i < length (mInitialShapesBuilders g))%nat)
            by (apply lookup_lt_is_Some; eauto).
          apply Forall_insert; [done|]. now eexists. }
        split; [lia|]. right. destruct Hne as [?|?]; [lia|done].
    + rewrite setAndCreateInitialShape_at_eq in Hy.
      destruct (attrAt attrs i) as [a|]; [|done].
      destruct (mInitialShapesBuilders g !! i) as [[isb|]|]; done.
    + rewrite setAndCreateInitialShape_at_eq in Hy.
      destruct (attrAt attrs i) as [a|]; [|done].
      destruct (mInitialShapesBuilders g !! i) as [[isb|]|]; done.
    + rewrite setAndCreateInitialShape_at_eq in Hy.
      assert (Hg : g' = g /\ evs = []).
      { destruct (attrAt attrs i) as [a|]; [|by injection Hy as <- <-].
        destruct (mInitialShapesBuilders g !! i) as [[isb|]|]; try done;
          by injection Hy as <- <-. }
      destruct Hg as [-> ->].
      split; [done|]. split; [apply sameExceptBuilders_refl|].
      do 4 (split; [done|]).
      intros (HF & Hb & Hne).
      destruct (attrAt attrs i) as [a|] eqn:Ha.
      * destruct (mInitialShapesBuilders g !! i) as [[isb|]|] eqn:Hi; try done.
        -- rewrite Forall_lookup in HF. apply HF in Hi. by destruct Hi.
        -- apply lookup_ge_None in Hi. lia.
      * destruct Hne as [?|Hne]; [lia|].
        apply (attrAt_is_Some _ i) in Hne. rewrite Ha in Hne. by destruct Hne.
Qed.

End SetAndCreate.

(** ** The stages of [generateModel] *)

Section Stages.

Context (E : Engine).

Lemma setAndCreateInitialShape_inv attrs g c g' evs :
  setAndCreateInitialShape E attrs g = (c, g', evs) ->
  evs = [] /\ sameExceptBuilders g g' /\
  length (mInitialShapesBuilders g') = length (mInitialShapesBuilders g) /\
  (Forall is_Some (mInitialShapesBuilders g) -> Forall is_Some (mInitialShapesBuilders g')) /\
  match c with
  | Normal shapes =>
      length shapes = length (mInitialShapesBuilders g) /\
      forall k shape, shapes !! k = Some shape ->
        exists a, attrAt attrs k = Some a /\
                  nis_attributes shape = Some (shapeAttributesFor E g a)
  | Undefined =>
      ~ (Forall is_Some (mInitialShapesBuilders g) /\
         (length (mInitialShapesBuilders g) = 0%nat \/ attrs <> []))
  | _ => False
  end.
Proof.
  unfold setAndCreateInitialShape. intros H.
  bind_cases H n g1 ev1 Hn; try (unfold gets in Hn; congruence).
  unfold gets in Hn. injection Hn as <- <- <-.
  apply setAndCreate_loop in H as (-> & Hsame & Hlen & _ & _ & Hsome & Hc).
  do 4 (split; [done|]).
  destruct c as [shapes|ms|e|]; try done.
  - destruct Hc as [Hl Hshapes]. split; [done|].
    intros k shape Hk. apply Hshapes in Hk as (a & isb & Ha & _ & ->).
    exists a. done.
  - intros [HF Hne]. apply Hc. split; [done|]. split; [simpl; lia|done].
Qed.

(** The four ways the "Resolve Map" block ends. *)
Lemma resolveRulePackage_eq path g :
  resolveRulePackage E path g =
  let uri := pcu_toFileURI E path in
  let before := [LOG_INF ("using rule package " +:+ path); call_createResolveMap uri] in
  let failed := LOG_ERR ("getting resolve map from '" +:+ path +:+ "' failed, aborting.") in
  match prt_createResolveMap E uri with
  | Returns (rm, s) =>
      if bool_decide (is_Some rm) && bool_decide (s = STATUS_OK) then
        (Normal tt, set_mResolveMap rm g, before ++ [LOG_DBG "resolve map = ..."])
      else (Return_ [], set_mResolveMap rm g, before ++ [failed])
  | Throws (std_exception what) =>
      (Return_ [], g, before ++ [py_print ("CAUGHT EXCEPTION: " +:+ what); failed])
  | Throws unknown_exception => (Throw unknown_exception, g, before)
  end.
Proof.
  unfold resolveRulePackage, bind, emit, modify, gets, ret, return_, throw. cbv zeta.
  destruct (prt_createResolveMap E (pcu_toFileURI E path)) as [[rm s]|[what|]]; simpl.
  - destruct (bool_decide (is_Some rm) && bool_decide (s = STATUS_OK)); reflexivity.
  - rewrite andb_false_r. reflexivity.
  - reflexivity.
Qed.

Lemma resolves_iff path :
  path <> "" ->
  resolves E path <->
  exists rm s, prt_createResolveMap E (pcu_toFileURI E path) = Returns (rm, s) /\
               bool_decide (is_Some rm) && bool_decide (s = STATUS_OK) = true.
Proof.
  intros Hne. unfold resolves. split.
  - intros [?|(rm & Hrm)]; [done|]. exists (Some rm), STATUS_OK. split; [done|].
    rewrite !bool_decide_eq_true_2; [done..|]. by eexists.
  - intros (rm & s & Hr & Hb). right. apply andb_true_iff in Hb as [Hrm Hs].
    apply bool_decide_eq_true_1 in Hrm as [rm' ->].
    apply bool_decide_eq_true_1 in Hs as ->. by exists rm'.
Qed.

Lemma initializeEncoderData_inv encName encOpt g c g' evs :
  initializeEncoderData E encName encOpt g = (c, g', evs) ->
  evs = [] /\
  match mEncoderBuilder g with
  | Some bld =>
      c = Normal tt /\ frame g g' /\
      mInitialShapesBuilders g' = mInitialShapesBuilders g /\
      mResolveMap g' = mResolveMap g /\
      encodersWf g' /\ mEncodersNames g' !! 0%nat = Some encName
  | None => c = Undefined /\ g' = g
  end.
Proof.
  unfold initializeEncoderData, bind, gets, deref, modify, ret, undefined.
  destruct (mEncoderBuilder g) as [bld|]; [|by intros [= <- <- <-]].
  destruct (pcu_createAttributeMapFromPythonDict E encOpt bld) as [encOptions bld'].
  destruct (decide (encName = ENCODER_ID_PYTHON)) as [->|Hne]; intros [= <- <- <-].
  - repeat split; try done. right. left. done.
  - repeat split; try done. right. right. exists encName. done.
Qed.

Lemma getRawEncoderDataPointers_inv g c g' evs :
  getRawEncoderDataPointers g = (c, g', evs) ->
  evs = [] /\ g' = g /\
  match c with
  | Normal (encs, eopts) =>
      exists n0, mEncodersNames g !! 0%nat = Some n0 /\
        if decide (n0 = ENCODER_ID_PYTHON) then length encs = 1%nat
        else length encs = 3%nat
  | Undefined => ~ (encodersWf g /\ is_Some (mEncodersNames g !! 0%nat))
  | _ => False
  end.
Proof.
  unfold getRawEncoderDataPointers, bind, gets, vector_at, ret, undefined. simpl.
  destruct (mEncodersNames g) as [|n0 names] eqn:Hnames; simpl.
  { intros [= <- <- <-]. repeat split; try done. intros [_ [? ?]]. done. }
  destruct (decide (n0 = ENCODER_ID_PYTHON)) as [->|Hne].
  - destruct (mEncodersOptionsPtr g) as [|o0 options] eqn:Hopts; simpl;
      intros [= <- <- <-]; repeat split; try done.
    + intros [[[? ?]|[[? Hl]|(e & ? & ? & Hl)]] _]; try congruence;
        rewrite Hopts in Hl; done.
    + exists ENCODER_ID_PYTHON. split; [done|]. by rewrite decide_True.
  - assert (Hwf : encodersWf g -> exists n1 n2 o0 o1 o2,
               names = [n1; n2] /\ mEncodersOptionsPtr g = [o0; o1; o2]).
    { intros [[? ?]|[[? ?]|(e & ? & He & Hl)]]; try congruence.
      rewrite Hnames in He. injection He as -> ->.
      destruct (mEncodersOptionsPtr g) as [|o0 [|o1 [|o2 [|? ?]]]]; try done.
      by exists ENCODER_ID_CGA_REPORT, ENCODER_ID_CGA_PRINT, o0, o1, o2. }
    destruct names as [|n1 [|n2 names]]; simpl.
    1,2: intros [= <- <- <-]; repeat split; try done;
         intros [Hw _]; apply Hwf in Hw as (? & ? & ? & ? & ? & ? & ?); done.
    destruct (mEncodersOptionsPtr g) as [|o0 [|o1 [|o2 options]]]; simpl;
      intros [= <- <- <-]; repeat split; try done.
    1,2,3: intros [Hw _]; apply Hwf in Hw as (? & ? & ? & ? & ? & ? & ?); done.
    exists n0. split; [done|]. by rewrite decide_False.
Qed.

End Stages.

(** ** Every run of the [try] block follows one of the paths *)

Section TryBlock.

Context (E : Engine).

Lemma generate_inv shapes encs eopts sink g c g' evs :
  generate E shapes encs eopts sink g = (c, g', evs) ->
  g' = g /\ evs = [call_generate shapes encs eopts sink] /\
  match prt_generate E shapes encs eopts sink with
  | Returns r => c = Normal r
  | Throws e => c = Throw e
  end.
Proof.
  unfold generate, bind, emit, ret, throw.
  destruct (prt_generate E shapes encs eopts sink); intros [= <- <- <-]; done.
Qed.

Lemma cast_outputPath_inv opts g c g' evs :
  cast_outputPath opts g = (c, g', evs) ->
  g' = g /\ evs = [] /\
  match opts !! "outputPath" with
  | Some (PyStr s) => c = Normal s
  | _ => exists what, c = Throw (std_exception what)
  end.
Proof.
  unfold cast_outputPath, ret, throw.
  destruct (opts !! "outputPath") as [[]|]; intros [= <- <- <-]; eauto.
Qed.

Lemma frame_refl g : frame g g.
Proof. by repeat split. Qed.

Lemma frame_trans g1 g2 g3 : frame g1 g2 -> frame g2 g3 -> frame g1 g3.
Proof.
  unfold frame. intros (?&?&?&?&?&?) (?&?&?&?&?&?). repeat split; congruence.
Qed.

Lemma shapeAttributesFor_frame g g' a :
  frame g g' -> mResolveMap g' = mResolveMap g ->
  shapeAttributesFor E g' a = shapeAttributesFor E g a.
Proof.
  unfold frame, shapeAttributesFor. intros (-> & -> & -> & -> & _) ->. done.
Qed.

Lemma sameExceptBuilders_frame g g' :
  sameExceptBuilders g g' ->
  length (mInitialShapesBuilders g') = length (mInitialShapesBuilders g) ->
  frame g g' /\ mResolveMap g' = mResolveMap g /\
  mEncodersNames g' = mEncodersNames g /\
  mEncodersOptionsPtr g' = mEncodersOptionsPtr g /\
  mEncoderBuilder g' = mEncoderBuilder g.
Proof.
  unfold sameExceptBuilders. intros -> Hlen. simpl in *. by repeat split.
Qed.

(** The "Resolve Map" stage, skipped for an empty path. *)
Lemma resolve_stage_inv path g cu g1 ev1 :
  (if decide (path = "") then ret () else resolveRulePackage E path) g = (cu, g1, ev1) ->
  g1 = set_mResolveMap (mResolveMap g1) g /\ generateCalls ev1 = [] /\
  match cu with
  | Normal _ => resolves E path
  | Undefined => False
  | _ =>
      path <> "" /\ ~ resolves E path /\
      resolveRulePackage E path g = (cu, g1, ev1) /\
      (cu = Return_ [] \/ cu = Throw unknown_exception)
  end.
Proof.
  destruct (decide (path = "")) as [->|Hne].
  { intros [= <- <- <-]. split; [by destruct g|]. split; [done|]. by left. }
  intros H. pose proof H as H'. rewrite resolveRulePackage_eq in H. cbv zeta in H.
  pose proof (resolves_iff E path Hne) as Hiff.
  destruct (prt_createResolveMap E (pcu_toFileURI E path)) as [[rm s]|[what|]] eqn:Hr.
  - destruct (bool_decide (is_Some rm) && bool_decide (s = STATUS_OK)) eqn:Hb;
      injection H as <- <- <-; (split; [done|]); (split; [done|]).
    + apply Hiff. by exists rm, s.
    + split; [done|]. split; [|split; [done|by left]].
      intros (rm' & s' & [= <- <-] & Hb')%Hiff. congruence.
  - injection H as <- <- <-. split; [by destruct g|]. split; [done|].
    split; [done|]. split; [|split; [done|by left]].
    intros (rm' & s' & [=] & _)%Hiff.
  - injection H as <- <- <-. split; [by destruct g|]. split; [done|].
    split; [done|]. split; [|split; [done|by right]].
    intros (rm' & s' & [=] & _)%Hiff.
Qed.

Lemma resolve_stage_frame g1 g :
  g1 = set_mResolveMap (mResolveMap g1) g ->
  frame g g1 /\ mInitialShapesBuilders g1 = mInitialShapesBuilders g /\
  mEncodersNames g1 = mEncodersNames g /\
  mEncodersOptionsPtr g1 = mEncodersOptionsPtr g /\
  mEncoderBuilder g1 = mEncoderBuilder g.
Proof. intros ->. by repeat split. Qed.

(** The encoder builder is created on first use. *)
Lemma builder_stage_inv g cu g3 evs :
  (if mEncoderBuilder g is None then modify (set_mEncoderBuilder (Some ∅))
   else ret ()) g = (cu, g3, evs) ->
  evs = [] /\ cu = Normal () /\ is_Some (mEncoderBuilder g3) /\ frame g g3 /\
  mInitialShapesBuilders g3 = mInitialShapesBuilders g /\
  mResolveMap g3 = mResolveMap g /\
  mEncodersNames g3 = mEncodersNames g /\
  mEncodersOptionsPtr g3 = mEncodersOptionsPtr g.
Proof.
  destruct (mEncoderBuilder g) as [bld|] eqn:Hbld; intros [= <- <- <-].
  - do 2 (split; [done|]). split; [by rewrite Hbld|]. split; [apply frame_refl|]. done.
  - do 2 (split; [done|]). split; [by eexists|]. split; [by repeat split|]. done.
Qed.

(** A named encoder replaces the encoder set; an empty name keeps it. *)
Lemma encoder_stage_inv enc opts g cu g' evs :
  is_Some (mEncoderBuilder g) ->
  (if decide (enc = "") then ret ()
   else initializeEncoderData E enc opts) g = (cu, g', evs) ->
  evs = [] /\ cu = Normal () /\ frame g g' /\
  mInitialShapesBuilders g' = mInitialShapesBuilders g /\
  mResolveMap g' = mResolveMap g /\
  (encodersWf g -> encodersWf g') /\
  (enc = "" -> mEncodersNames g' = mEncodersNames g /\
               mEncodersOptionsPtr g' = mEncodersOptionsPtr g) /\
  mEncodersNames g' !! 0%nat = selectedEncoder enc g.
Proof.
  intros [bld Hbld] H. unfold selectedEncoder.
  destruct (decide (enc = "")) as [->|Hne].
  - injection H as <- <- <-.
    do 2 (split; [done|]). split; [apply frame_refl|]. done.
  - apply initializeEncoderData_inv in H as [-> H]. rewrite Hbld in H.
    destruct H as (-> & Hf' & Hbs' & Hrm' & Hwf & Hsel).
    do 2 (split; [done|]). split; [done|]. by repeat (split; [done|]).
Qed.

Lemma generateModel_try_paths ctx attrs path enc opts g c g' evs :
  generateModel_try E ctx attrs path enc opts g = (c, g', evs) ->
  frame g g' /\
  (Forall is_Some (mInitialShapesBuilders g) -> Forall is_Some (mInitialShapesBuilders g')) /\
  (encodersWf g -> encodersWf g') /\
  (enc = "" -> mEncodersNames g' = mEncodersNames g /\
               mEncodersOptionsPtr g' = mEncodersOptionsPtr g) /\
  TryPath E ctx attrs path enc opts g c g' evs.
Proof.
  unfold generateModel_try. intros H.
  (* the context check *)
  destruct ctx as [ctx|].
  2:{ unfold bind, emit, return_ in H. simpl in H. injection H as <- <- <-.
      split; [apply frame_refl|]. do 3 (split; [done|]). by constructor. }
  assert (Hctx : is_Some (Some ctx)) by (by eexists).
  bind_cases H u0 g0 ev0 H0; try (unfold ret in H0; congruence).
  unfold ret in H0. injection H0 as <- <- <-. rewrite app_nil_l.
  (* the resolve map *)
  bind_cases H u1 g1 ev1 H1;
    apply resolve_stage_inv in H1 as (Hg1 & Hev1 & Hres);
    pose proof (resolve_stage_frame _ _ Hg1) as (Hf1 & Hbs1 & Hn1 & Ho1 & Hb1).
  2,3: destruct Hres as (Hne & Hnres & Hrun & Hcu);
       (split; [done|]); (split; [by rewrite Hbs1|]);
       (split; [unfold encodersWf; by rewrite Hn1, Ho1|]); (split; [done|]);
       eapply tp_unresolved; eauto;
       destruct Hcu as [Hcu|Hcu]; simplify_eq; auto.
  2: done.
  (* the initial shapes *)
  bind_cases H shapes g2 ev2 H2;
    apply setAndCreateInitialShape_inv in H2 as (-> & Hsame & Hlen2 & Hsome2 & Hshapes);
    try done;
    pose proof (sameExceptBuilders_frame _ _ Hsame Hlen2) as (Hf2 & Hrm2 & Hn2 & Ho2 & Hb2).
  2:{ split; [by eapply frame_trans|]. split; [rewrite <- Hbs1; done|].
      split; [unfold encodersWf; by rewrite Hn2, Ho2, Hn1, Ho1|].
      split; [intros _; by rewrite Hn2, Ho2, Hn1, Ho1|].
      apply tp_undefined_shapes; try done.
      - by rewrite <- Hbs1.
      - by rewrite app_nil_r. }
  rewrite app_nil_l.
  (* the encoder builder and the encoder set *)
  bind_gets H.
  bind_cases H u3 g3 ev3 H3;
    apply builder_stage_inv in H3 as (-> & [=] & Hbld3 & Hf3 & Hbs3 & Hrm3 & Hn3 & Ho3).
  rewrite app_nil_l.
  bind_cases H u4 g4 ev4 H4;
    apply (encoder_stage_inv _ _ _ _ _ _ Hbld3) in H4
      as (-> & [=] & Hf4 & Hbs4 & Hrm4 & Hwf4 & Hsame4 & Hsel4).
  rewrite app_nil_l.

  (* what holds of the instance from here on *)
  assert (HF : frame g g4).
  { apply (frame_trans _ g1); [done|]. apply (frame_trans _ g2); [done|].
    by apply (frame_trans _ g3). }
  assert (HLen : length (mInitialShapesBuilders g4) = length (mInitialShapesBuilders g))
    by apply HF.
  assert (HSome : Forall is_Some (mInitialShapesBuilders g) ->
                  Forall is_Some (mInitialShapesBuilders g4)).
  { rewrite Hbs4, Hbs3, <- Hbs1. exact Hsome2. }
  assert (HWf : encodersWf g -> encodersWf g4).
  { intros Hwf. apply Hwf4. unfold encodersWf in *.
    by rewrite Hn3, Ho3, Hn2, Ho2, Hn1, Ho1. }
  assert (HKeep : enc = "" -> mEncodersNames g4 = mEncodersNames g /\
                              mEncodersOptionsPtr g4 = mEncodersOptionsPtr g).
  { intros He. destruct (Hsame4 He) as [-> ->]. split; congruence. }
  assert (HSel : mEncodersNames g4 !! 0%nat = selectedEncoder enc g).
  { rewrite Hsel4. unfold selectedEncoder. by rewrite Hn3, Hn2, Hn1. }
  assert (HPrep : shapesPrepared E attrs g4 shapes).
  { destruct Hshapes as [Hl Hsh]. split; [congruence|].
    intros k shape Hk. apply Hsh in Hk as (a & Ha & ->). exists a. split; [done|].
    f_equal. symmetry. apply shapeAttributesFor_frame.
    - apply (frame_trans _ g2); [done|]. by apply (frame_trans _ g3).
    - congruence. }
  clear Hshapes Hsome2 Hsame Hlen2 Hf2 Hrm2 Hn2 Ho2 Hb2 Hbld3 Hf3 Hbs3 Hrm3 Hn3 Ho3
        Hf4 Hbs4 Hrm4 Hwf4 Hsame4 Hsel4 Hf1 Hbs1 Hn1 Ho1 Hb1 Hg1.
  (* the raw encoder data *)
  bind_cases H raw g5 ev5 H5;
    apply getRawEncoderDataPointers_inv in H5 as (-> & -> & Hraw); try done.
  2:{ do 4 (split; [done|]).
      rewrite app_nil_r. apply tp_undefined_encoders; try done.
      rewrite <- HSel. intros [Hwf Hs]. apply Hraw. by split; [apply HWf|]. }
  destruct raw as [encs eopts]. destruct Hraw as (n0 & Hn0 & Hencs).
  cbv beta iota in H. rewrite app_nil_l.
  bind_gets H.
  bind_cases H n0' g6 ev6 H6;
    apply vector_at_inv in H6 as (-> & -> & Hn0'); rewrite Hn0 in Hn0'; try done.
  injection Hn0' as ->. rewrite ?app_nil_l.
  bind_gets H. rewrite HLen in H. rewrite Hn0 in HSel. symmetry in HSel.
  destruct (decide (n0 = ENCODER_ID_PYTHON)) as [->|Hfile].
  - (* the in-memory encoder *)
    bind_cases H r g7 ev7 H7;
      apply generate_inv in H7 as (-> & -> & Hgen);
      destruct (prt_generate E shapes encs eopts
                  (PyCallbacksSink (length (mInitialShapesBuilders g))))
        as [[callbacks genStat]|e'] eqn:Hr;
      simplify_eq.
    + cbv beta iota in H.
      destruct (decide (genStat = STATUS_OK)) as [->|Hst].
      * unfold ret in H. injection H as <- <- <-. do 4 (split; [done|]).
        replace (Normal _) with
          (pythonCompletion (length (mInitialShapesBuilders g))
             (prt_generate E shapes encs eopts
                (PyCallbacksSink (length (mInitialShapesBuilders g)))))
          by (by rewrite Hr).
        eapply tp_python; try done.
        unfold generateCalls in *. rewrite !List.filter_app, Hev1. done.
      * unfold bind, generateFailed, emit, return_ in H. injection H as <- <- <-.
        do 4 (split; [done|]).
        replace (Return_ []) with
          (pythonCompletion (length (mInitialShapesBuilders g))
             (prt_generate E shapes encs eopts
                (PyCallbacksSink (length (mInitialShapesBuilders g)))))
          by (rewrite Hr; simpl; by rewrite decide_False).
        eapply tp_python; try done.
        unfold generateCalls in *. rewrite !List.filter_app, Hev1. done.
    + do 4 (split; [done|]).
      replace (Throw e') with
          (pythonCompletion (length (mInitialShapesBuilders g))
             (prt_generate E shapes encs eopts
                (PyCallbacksSink (length (mInitialShapesBuilders g)))))
          by (by rewrite Hr).
      eapply tp_python; try done.
      unfold generateCalls in *. rewrite !List.filter_app, Hev1. done.
  - (* a file-based encoder *)
    bind_cases H outputPath g7 ev7 H7;
      apply cast_outputPath_inv in H7 as (-> & -> & Hcast);
      destruct (opts !! "outputPath") as [[s| | | |]|] eqn:Hopt;
      simplify_eq; try (destruct Hcast as [what Hcast]; simplify_eq).
    2-6: do 4 (split; [done|]); rewrite app_nil_r;
         eapply tp_no_output_directory; try done;
         [unfold outputDirectory; by rewrite Hopt | right; by eexists].
    rewrite app_nil_l.
    bind_cases H u8 g8 ev8 H8; unfold emit in H8; simplify_eq.
    destruct (fs_is_directory E s && fs_exists E s) eqn:Hdir.
    + assert (Hout : outputDirectory E opts = Some s).
      { unfold outputDirectory. by rewrite Hopt, Hdir. }
      bind_cases H r g9 ev9 H9;
        apply generate_inv in H9 as (-> & -> & Hgen);
        destruct (prt_generate E shapes encs eopts (FileOutputCallbacksSink s))
          as [[callbacks genStat]|e'] eqn:Hr;
        simplify_eq.
      * cbv beta iota in H.
        destruct (decide (genStat = STATUS_OK));
          [unfold return_ in H | unfold bind, generateFailed, emit, return_ in H];
          simplify_eq; (do 4 (split; [done|])); (eapply tp_file; try done; [|by left]);
          unfold generateCalls in *; rewrite !List.filter_app, Hev1; done.
      * do 4 (split; [done|]).
        eapply tp_file; try done; [|right; by eexists].
        unfold generateCalls in *. rewrite !List.filter_app, Hev1. done.
    + assert (Hout : outputDirectory E opts = None).
      { unfold outputDirectory. by rewrite Hopt, Hdir. }
      unfold bind, emit, return_ in H. simplify_eq. do 4 (split; [done|]).
      eapply tp_no_output_directory; try done; [|by left].
      unfold generateCalls in *. rewrite !List.filter_app, Hev1. done.
Qed.

End TryBlock.

(** ** Calls of [generateModel] *)

Section Calls.

Context (E : Engine).

Lemma enoughAttributes_check attrs g :
  bool_decide (length attrs ≠ 1%nat) &&
  bool_decide (length attrs < length (mInitialShapesBuilders g))%nat = false <->
  enoughAttributes attrs g.
Proof.
  unfold enoughAttributes. rewrite andb_false_iff, !bool_decide_eq_false. lia.
Qed.

(** The three ways a call of [generateModel] goes. *)
Lemma generateModel_inv ctx attrs path enc opts g out g' evs :
  generateModel E ctx attrs path enc opts g = (out, g', evs) ->
  (mValid g = false /\ out = Returned [] /\ g' = g /\
   evs = [LOG_ERR "invalid ModelGenerator instance."]) \/
  (mValid g = true /\ ~ enoughAttributes attrs g /\ out = Returned [] /\ g' = g /\
   evs = [LOG_ERR "not enough shape attributes dictionaries defined."]) \/
  (mValid g = true /\ enoughAttributes attrs g /\
   exists c evt, generateModel_try E ctx attrs path enc opts g = (c, g', evt) /\
                 out = outcomeOf c /\ evs = surplusWarning attrs g ++ evt ++ caught c).
Proof.
  unfold generateModel. destruct (mValid g); simpl.
  2:{ intros [= <- <- <-]. left. done. }
  destruct (bool_decide (length attrs ≠ 1%nat) &&
            bool_decide (length attrs < length (mInitialShapesBuilders g))%nat) eqn:Hc.
  { intros [= <- <- <-]. right. left. repeat split; try done.
    intros He%enoughAttributes_check. congruence. }
  apply enoughAttributes_check in Hc. fold (surplusWarning attrs g).
  destruct (generateModel_try E ctx attrs path enc opts g) as [[c g1] evt].
  intros H. right. right. do 2 (split; [done|]). exists c, evt.
  destruct c as [ms|ms|[what|]|]; injection H as <- <- <-; simpl;
    rewrite ?app_nil_r; done.
Qed.

Lemma generateModel_frame ctx attrs path enc opts g :
  frame g (generateModel E ctx attrs path enc opts g).1.2.
Proof.
  destruct (generateModel E ctx attrs path enc opts g) as [[out g'] evs] eqn:H.
  apply generateModel_inv in H as [(_ & _ & -> & _)|[(_ & _ & _ & -> & _)|H]];
    try apply frame_refl.
  destruct H as (_ & _ & c & evt & H & _). by apply generateModel_try_paths in H as [? _].
Qed.

Lemma generateModel_wf ctx attrs path enc opts g :
  wf g -> wf (generateModel E ctx attrs path enc opts g).1.2.
Proof.
  intros Hwf.
  destruct (generateModel E ctx attrs path enc opts g) as [[out g'] evs] eqn:H.
  apply generateModel_inv in H as [(_ & _ & -> & _)|[(_ & _ & _ & -> & _)|H]]; try done.
  destruct H as (Hv & _ & c & evt & H & _).
  apply generateModel_try_paths in H as (Hf & Hsome & Henc & _).
  destruct Hwf as [Hb He]. split; [|by apply Henc].
  intros _. by apply Hsome, Hb.
Qed.

Lemma afterCalls_frame calls : forall g, frame g (afterCalls E calls g).
Proof.
  induction calls as [|c calls IH]; intros g; [apply frame_refl|].
  simpl. eapply frame_trans; [|apply IH]. apply generateModel_frame.
Qed.

Lemma afterCalls_wf calls : forall g, wf g -> wf (afterCalls E calls g).
Proof.
  induction calls as [|c calls IH]; intros g Hwf; [done|].
  simpl. apply IH. by apply generateModel_wf.
Qed.

(** A generation call among the events of [generateModel] is one of the
    [try] block. *)
Lemma generateCalls_In ev evs :
  In ev evs -> is_generate_call ev = true -> In ev (generateCalls evs).
Proof. intros Hin Hg. apply List.filter_In. done. Qed.

Lemma generateCalls_outer attrs g evt c :
  generateCalls (surplusWarning attrs g ++ evt ++ caught c) = generateCalls evt.
Proof.
  unfold generateCalls. rewrite !List.filter_app.
  replace (List.filter is_generate_call (surplusWarning attrs g)) with (@nil Event)
    by (unfold surplusWarning; by case_bool_decide).
  replace (List.filter is_generate_call (caught c)) with (@nil Event)
    by (by destruct c as [?|?|[?|]|]).
  by rewrite app_nil_r.
Qed.

End Calls.

(** ** The constructor *)

Section Constructor.

Context (E : Engine).

Lemma ModelGenerator_addShape_inv ind shape g c g' evs :
  ModelGenerator_addShape E ind shape g = (c, g', evs) ->
  c = Normal () /\ constructed g g' /\
  (mValid g' = true <-> mValid g = true /\ ~ rejected E shape) /\
  (if mValid g' then
     exists isb, mInitialShapesBuilders g' = <[ind := Some isb]> (mInitialShapesBuilders g)
   else mInitialShapesBuilders g' = mInitialShapesBuilders g).
Proof.
  unfold ModelGenerator_addShape, rejected, constructed, InitialShape.getPathFlag,
    InitialShape.getPath.
  destruct (InitialShape.mPathFlag shape).
  - destruct (decide (pcu_toFileURI E (InitialShape.mPath shape) = "")) as [Hu|Hu].
    + unfold bind, emit, modify, gets, ret. simpl. intros [= <- <- <-].
      split; [done|]. split; [by destruct g|]. simpl. split; [|done].
      split; [done|]. intros [_ Hr]. destruct Hr. by left.
    + destruct (decide (prt_resolveGeometry E (pcu_toFileURI E (InitialShape.mPath shape))
                        = STATUS_OK)) as [Hs|Hs].
      * unfold bind, emit, modify, gets, ret. simpl.
        destruct (mValid g) eqn:Hv; intros [= <- <- <-]; simpl.
        -- split; [done|]. split; [by destruct g; simpl in *; subst|].
           rewrite Hv. split; [|by eexists]. split; [|done].
           intros _. split; [done|]. by intros [?|?].
        -- split; [done|]. split; [by destruct g; simpl in *; subst|].
           rewrite Hv. split; [|done]. split; [done|by intros [? _]].
      * unfold bind, emit, modify, gets, ret. simpl. intros [= <- <- <-].
        split; [done|]. split; [by destruct g|]. simpl. split; [|done].
        split; [done|]. intros [_ Hr]. destruct Hr. by right.
  - destruct (decide (prt_setGeometry E (InitialShape.mVertices shape)
                        (InitialShape.mIndices shape) (InitialShape.mFaceCounts shape)
                      = STATUS_OK)) as [Hs|Hs].
    + unfold bind, emit, modify, gets, ret. simpl.
      destruct (mValid g) eqn:Hv; intros [= <- <- <-]; simpl.
      * split; [done|]. split; [by destruct g; simpl in *; subst|].
        rewrite Hv. split; [|by eexists]. split; [|done].
        intros _. split; [done|]. by intros ?.
      * split; [done|]. split; [by destruct g; simpl in *; subst|].
        rewrite Hv. split; [|done]. split; [done|by intros [? _]].
    + unfold bind, emit, modify, gets, ret. simpl. intros [= <- <- <-].
      split; [done|]. split; [by destruct g|]. simpl. split; [|done].
      split; [done|]. by intros [_ Hr].
Qed.

Lemma constructed_trans g1 g2 g3 : constructed g1 g2 -> constructed g2 g3 -> constructed g1 g3.
Proof. unfold constructed. intros H12 H23. rewrite H23, H12. done. Qed.

Lemma ModelGenerator_addShapes_inv : forall myGeo ind g c g' evs,
  ModelGenerator_addShapes E ind myGeo g = (c, g', evs) ->
  (ind + length myGeo <= length (mInitialShapesBuilders g))%nat ->
  c = Normal () /\ constructed g g' /\
  length (mInitialShapesBuilders g') = length (mInitialShapesBuilders g) /\
  (mValid g' = true <-> mValid g = true /\ Forall (fun shape => ~ rejected E shape) myGeo) /\
  (forall j, (j < ind)%nat ->
             mInitialShapesBuilders g' !! j = mInitialShapesBuilders g !! j) /\
  (mValid g' = true ->
   forall j, (ind <= j < ind + length myGeo)%nat ->
             exists isb, mInitialShapesBuilders g' !! j = Some (Some isb)).
Proof.
  induction myGeo as [|shape rest IH]; intros ind g c g' evs H Hlen.
  - simpl in H. injection H as <- <- <-. split; [done|]. split; [by destruct g|].
    split; [done|]. split; [split; [by split|by intros [? _]]|]. split; [done|].
    intros _ j Hj. simpl in Hj. lia.
  - cbn [ModelGenerator_addShapes] in H.
    bind_cases H u g1 ev1 H1;
      apply ModelGenerator_addShape_inv in H1 as (Hc & Hcons & Hvalid & Hbs); try done.
    simpl in Hlen.
    assert (Hlen1 : length (mInitialShapesBuilders g1) = length (mInitialShapesBuilders g)).
    { revert Hbs. destruct (mValid g1); [intros [isb ->]|by intros ->].
      by rewrite length_insert. }
    apply IH in H as (-> & Hcons' & Hlen' & Hvalid' & Hlow & Hnew); [|lia].
    split; [done|]. split; [by eapply constructed_trans|]. split; [congruence|].
    split.
    { rewrite Hvalid', Hvalid, Forall_cons. tauto. }
    split.
    { intros j Hj. rewrite Hlow by lia.
      revert Hbs. destruct (mValid g1); [intros [isb ->]|by intros ->].
      apply list_lookup_insert_ne. lia. }
    intros Hv j Hj. destruct (decide (j = ind)) as [->|Hne].
    + rewrite Hlow by lia.
      apply Hvalid' in Hv as [Hv1 _]. rewrite Hv1 in Hbs. destruct Hbs as [isb ->].
      exists isb. apply list_lookup_insert_eq. lia.
    + apply Hnew; [done|]. simpl in Hj. lia.
Qed.

(** The constructed instance: the construction completes normally, holds
    one builder slot per shape, neither resolve map nor encoder set, the
    defaults of the class, and is valid exactly when no shape was
    rejected. *)
Lemma ModelGenerator_new_inv myGeo :
  let g := ModelGenerator_of E myGeo in
  (ModelGenerator_new E myGeo).1.1 = Normal () /\
  length (mInitialShapesBuilders g) = length myGeo /\
  mResolveMap g = None /\ mEncodersNames g = [] /\ mEncodersOptionsPtr g = [] /\
  mRuleFile g = "bin/rule.cgb" /\ mStartRule g = "default$init" /\
  mSeed g = 666 /\ mShapeName g = "InitialShape" /\
  (mValid g = true <-> Forall (fun shape => ~ rejected E shape) myGeo) /\
  wf g.
Proof.
  unfold ModelGenerator_of, ModelGenerator_new.
  destruct (ModelGenerator_addShapes E 0 myGeo (ModelGenerator_init (length myGeo)))
    as [[c g'] evs] eqn:H.
  apply ModelGenerator_addShapes_inv in H as (-> & Hcons & Hlen & Hvalid & _ & Hnew);
    [|simpl; by rewrite length_replicate].
  simpl in *. rewrite length_replicate in Hlen.
  pose proof (f_equal mResolveMap Hcons) as Hrm.
  pose proof (f_equal mEncodersNames Hcons) as Hn.
  pose proof (f_equal mEncodersOptionsPtr Hcons) as Ho.
  pose proof (f_equal mRuleFile Hcons) as Hrf.
  pose proof (f_equal mStartRule Hcons) as Hsr.
  pose proof (f_equal mSeed Hcons) as Hseed.
  pose proof (f_equal mShapeName Hcons) as Hsn.
  simpl in Hrm, Hn, Ho, Hrf, Hsr, Hseed, Hsn.
  do 9 (split; [done|]).
  split; [rewrite Hvalid; tauto|]. split; [|by left].
  intros Hv. apply Forall_lookup. intros j slot Hj.
  assert (Hlt : (j < length myGeo)%nat) by (apply lookup_lt_Some in Hj; lia).
  destruct (Hnew Hv j) as [isb Hisb]; [lia|]. rewrite Hj in Hisb.
  injection Hisb as ->. by eexists.
Qed.

End Constructor.

(** ** The default indexing of [InitialShape] *)

Lemma of_vertices_Some (vert : list double) :
  Z.of_nat (length vert / 3) < 2 ^ 31 ->
  InitialShape.of_vertices vert =
    Some (InitialShape.of_geometry vert (map Z.of_nat (seq 0 (length vert / 3)))
            [Z.of_nat (length vert / 3)]).
Proof.
  intros Hb. unfold InitialShape.of_vertices, InitialShape.of_geometry.
  pose proof (iota_seq (length vert / 3) 0) as Hi. change (Z.of_nat 0) with 0 in Hi.
  rewrite Hi by lia. rewrite length_map, length_seq, uint32_small by lia. done.
Qed.

Lemma of_vertices_None (vert : list double) :
  2 ^ 31 <= Z.of_nat (length vert / 3) -> InitialShape.of_vertices vert = None.
Proof.
  intros Hb. unfold InitialShape.of_vertices. by rewrite iota_overflow by lia.
Qed.

(** C9, as amended. For every vertex coordinate list with fewer than [2 ^ 31]
    vertex triples, the constructor taking only the vertices completes and
    produces a shape with the index sequence 0, 1, ..., |v|/3 - 1 and the
    single face count |v|/3. *)
Theorem of_vertices_default_indexing (vert : list double) :
  Z.of_nat (length vert / 3) < 2 ^ 31 ->
  exists shape,
    InitialShape.of_vertices vert = Some shape /\
    InitialShape.mIndices shape = map Z.of_nat (seq 0 (length vert / 3)) /\
    InitialShape.mFaceCounts shape = [Z.of_nat (length vert / 3)].
Proof. intros Hb. eexists. split; [by apply of_vertices_Some|]. done. Qed.

Lemma of_vertices_default_indexing_quad :
  exists shape,
    InitialShape.of_vertices demoQuad = Some shape /\
    InitialShape.mIndices shape = [0; 1; 2; 3] /\
    InitialShape.mFaceCounts shape = [4].
Proof. apply (of_vertices_default_indexing demoQuad). reflexivity. Defined.

(** C9, as stated, fails: with [2 ^ 31] vertex triples [std::iota] stores
    [INT_MAX] into the last index and then increments its [int] counter
    once more, a signed overflow: the behaviour of the constructor is
    undefined and no shape with the claimed indices is produced. *)
Lemma of_vertices_counter_overflows :
  let vert := replicate (Z.to_nat (2 ^ 31) * 3) (S754_zero false) in
  Z.of_nat (length vert / 3) = 2 ^ 31 /\
  InitialShape.of_vertices vert = None.
Proof.
  intros vert. subst vert.
  assert (Hn : Z.of_nat (Z.to_nat (2 ^ 31)) = 2 ^ 31) by (by apply Z2Nat.id).
  assert (Hlen : Z.of_nat (length (replicate (Z.to_nat (2 ^ 31) * 3) (S754_zero false)) / 3)
                 = 2 ^ 31).
  { by rewrite length_replicate, Nat.div_mul. }
  split; [done|]. apply of_vertices_None, Z.eq_le_incl. symmetry. exact Hlen.
Qed.

(** ** The claims about [generateModel] and [generateAnotherModel] *)

(** C10. A call made while the engine context is not initialized (never
    initialized, or shut down since) returns an empty sequence, leaves the
    instance as it is and invokes no Engine entry point; it logs exactly one
    error, and the validity and attribute-count errors take precedence over
    the one about the missing context. *)
Theorem generateModel_uninitialized (E : Engine) (prtCtx : option PRTContext)
    (shapeAttributes : list (gmap string PyValue)) (rulePackagePath : string)
    (geometryEncoderName : string) (geometryEncoderOptions : gmap string PyValue)
    (g : ModelGenerator) :
  isPRTInitialized prtCtx = false ->
  isPRTInitialized None = false /\
  isPRTInitialized (shutdownPRT (initializePRT true prtCtx)) = false /\
  exists evs,
    generateModel E prtCtx shapeAttributes rulePackagePath geometryEncoderName
      geometryEncoderOptions g = (Returned [], g, evs) /\
    engineCalls evs = [] /\
    errors evs =
      [LOG_ERR (if negb (mValid g) then "invalid ModelGenerator instance."
                else if bool_decide (enoughAttributes shapeAttributes g)
                then "prt has not been initialized."
                else "not enough shape attributes dictionaries defined.")].
Proof.
  intros Hctx. do 2 (split; [done|]).
  assert (prtCtx = None) as ->.
  { destruct prtCtx; [|done]. unfold isPRTInitialized in Hctx.
    apply bool_decide_eq_false in Hctx. destruct Hctx. by eexists. }
  unfold generateModel. destruct (mValid g); simpl.
  2:{ eexists. split; [done|]. done. }
  destruct (bool_decide (length shapeAttributes ≠ 1%nat) &&
            bool_decide (length shapeAttributes < length (mInitialShapesBuilders g))%nat)
    eqn:Hc.
  - eexists. split; [done|]. split; [done|].
    rewrite bool_decide_eq_false_2; [done|].
    intros He%enoughAttributes_check. congruence.
  - apply enoughAttributes_check in Hc. rewrite (bool_decide_eq_true_2 _ Hc).
    eexists. split; [done|]. by case_bool_decide.
Qed.

Lemma generateModel_uninitialized_fresh :
  isPRTInitialized None = false /\
  isPRTInitialized (shutdownPRT (initializePRT true None)) = false /\
  exists evs,
    generateModel demoEngine None [∅] "good.rpk" ENCODER_ID_PYTHON ∅ demoFresh
      = (Returned [], demoFresh, evs) /\
    engineCalls evs = [] /\
    errors evs =
      [LOG_ERR (if negb (mValid demoFresh) then "invalid ModelGenerator instance."
                else if bool_decide (enoughAttributes [∅] demoFresh)
                then "prt has not been initialized."
                else "not enough shape attributes dictionaries defined.")].
Proof.
  apply (generateModel_uninitialized demoEngine None [∅] "good.rpk" ENCODER_ID_PYTHON ∅
           demoFresh).
  reflexivity.
Defined.

(** C3. If a shape is rejected at construction (an empty or unresolvable
    file path, or inline geometry the Engine refuses), the construction
    still completes normally, the instance is invalid, it stays invalid
    after any sequence of calls, and every call returns an empty sequence
    with only an error logged, so without any Engine invocation. *)
Theorem invalid_instance_is_sticky (E : Engine) (myGeo : list InitialShape.t)
    (calls : list Call) (call : Call) :
  Exists (rejected E) myGeo ->
  let g := afterCalls E calls (ModelGenerator_of E myGeo) in
  (ModelGenerator_new E myGeo).1.1 = Normal () /\
  mValid g = false /\
  runCall E call g = (Returned [], g, [LOG_ERR "invalid ModelGenerator instance."]).
Proof.
  intros Hrej g.
  destruct (ModelGenerator_new_inv E myGeo) as (Hc & _ & _ & _ & _ & _ & _ & _ & _ & Hv & _).
  split; [done|].
  assert (Hg : mValid g = false).
  { destruct (afterCalls_frame E calls (ModelGenerator_of E myGeo)) as (_&_&_&_& Hvg &_).
    fold g in Hvg. rewrite Hvg. destruct (mValid (ModelGenerator_of E myGeo)); [|done].
    exfalso. destruct Hv as [Hv _]. specialize (Hv eq_refl).
    apply Exists_exists in Hrej as (shape & Hin & Hr).
    rewrite Forall_forall in Hv. by apply (Hv shape). }
  split; [done|]. unfold runCall, generateModel. by rewrite Hg.
Qed.

Lemma invalid_instance_is_sticky_empty_path :
  let g := afterCalls demoEngine [demoFirstCall]
             (ModelGenerator_of demoEngine [InitialShape.of_path ""]) in
  (ModelGenerator_new demoEngine [InitialShape.of_path ""]).1.1 = Normal () /\
  mValid g = false /\
  runCall demoEngine demoFirstCall g =
    (Returned [], g, [LOG_ERR "invalid ModelGenerator instance."]).
Proof.
  apply (invalid_instance_is_sticky demoEngine [InitialShape.of_path ""] [demoFirstCall]
           demoFirstCall).
  apply Exists_cons_hd. left. reflexivity.
Defined.

Lemma newGeneratedGeo_indices foc shapeCount :
  map GeneratedModel.getInitialShapeIndex (newGeneratedGeo foc shapeCount) = seq 0 shapeCount.
Proof. unfold newGeneratedGeo. rewrite map_map. simpl. apply map_id. Qed.

(** A call whose events show a generation pass into a [PyCallbacks] sink
    that the Engine completed with [STATUS_OK] returns the drained
    collector. *)
Lemma generateModel_python_ok E ctx attrs path enc opts g out g' evs shapes encs eopts n cbs :
  generateModel E ctx attrs path enc opts g = (out, g', evs) ->
  In (call_generate shapes encs eopts (PyCallbacksSink n)) evs ->
  prt_generate E shapes encs eopts (PyCallbacksSink n) = Returns (cbs, STATUS_OK) ->
  n = length (mInitialShapesBuilders g) /\
  out = Returned (newGeneratedGeo (PyCallbacks_run (PyCallbacks_create n) cbs) n).
Proof.
  intros H Hin Hgen.
  apply generateModel_inv in H as [(_ & _ & _ & ->)|[(_ & _ & _ & _ & ->)|H]].
  1,2: by destruct Hin as [?|[]].
  destruct H as (_ & _ & c & evt & Htry & -> & ->).
  apply generateCalls_In in Hin; [|done]. rewrite generateCalls_outer in Hin.
  apply generateModel_try_paths in Htry as (_ & _ & _ & _ & Hpath).
  destruct Hpath as [ | ? ? ? ? ? ? ? Hrun ? | ? ? ? ? ? Hev | ? ? ? ? ? Hev
                    | ? ? ? ? ? ? ? ? ? sink Hev | ? ? ? ? ? ? ? ? ? Hev ?
                    | ? ? ? ? ? ? ? ? ? ? ? ? ? ? Hev ? ].
  - by destruct Hin.
  - exfalso. rewrite resolveRulePackage_eq in Hrun. cbv zeta in Hrun.
    destruct (prt_createResolveMap E (pcu_toFileURI E path)) as [[rm s]|[what|]];
      [destruct (bool_decide (is_Some rm) && bool_decide (s = STATUS_OK))| |];
      injection Hrun as <- <- <-; simpl in Hin; tauto.
  - rewrite Hev in Hin. by destruct Hin.
  - rewrite Hev in Hin. by destruct Hin.
  - rewrite Hev in Hin. destruct Hin as [[= <- <- <- <-]|[]].
    split; [done|]. subst sink. by rewrite Hgen.
  - rewrite Hev in Hin. by destruct Hin.
  - rewrite Hev in Hin. by destruct Hin as [?|[]].
Qed.

(** C1. For an instance constructed over [myGeo], after any earlier calls: a
    call that runs the generation pass with the in-memory encoder and gets
    [STATUS_OK] from the Engine returns exactly one model per initial shape,
    the model at position [k] carrying initial-shape index [k]; for a single
    shape that is exactly one model, with index 0. *)
Theorem generateModel_one_model_per_shape (E : Engine) (myGeo : list InitialShape.t)
    (calls : list Call) (prtCtx : option PRTContext)
    (shapeAttributes : list (gmap string PyValue)) (rulePackagePath : string)
    (geometryEncoderName : string) (geometryEncoderOptions : gmap string PyValue)
    (out : Outcome) (g' : ModelGenerator) (evs : list Event)
    (shapes : list NativeInitialShape) (encs : list string)
    (eopts : list (option (gmap string AttrValue))) (n : nat) (cbs : list Callback) :
  generateModel E prtCtx shapeAttributes rulePackagePath geometryEncoderName
    geometryEncoderOptions (afterCalls E calls (ModelGenerator_of E myGeo)) = (out, g', evs) ->
  In (call_generate shapes encs eopts (PyCallbacksSink n)) evs ->
  prt_generate E shapes encs eopts (PyCallbacksSink n) = Returns (cbs, STATUS_OK) ->
  exists models,
    out = Returned models /\
    length models = length myGeo /\
    map GeneratedModel.getInitialShapeIndex models = seq 0 (length myGeo) /\
    (forall k m, models !! k = Some m -> GeneratedModel.getInitialShapeIndex m = k) /\
    (length myGeo = 1%nat ->
     exists m, models = [m] /\ GeneratedModel.getInitialShapeIndex m = 0%nat).
Proof.
  intros H Hin Hgen.
  destruct (generateModel_python_ok _ _ _ _ _ _ _ _ _ _ _ _ _ _ _ H Hin Hgen) as [Hn ->].
  assert (HN : n = length myGeo).
  { rewrite Hn. destruct (afterCalls_frame E calls (ModelGenerator_of E myGeo))
      as (_&_&_&_&_& ->). apply ModelGenerator_new_inv. }
  eexists. split; [done|].
  assert (Hidx := newGeneratedGeo_indices (PyCallbacks_run (PyCallbacks_create n) cbs) n).
  assert (Hlen : length (newGeneratedGeo (PyCallbacks_run (PyCallbacks_create n) cbs) n) = n).
  { unfold newGeneratedGeo. by rewrite length_map, length_seq. }
  rewrite <- HN. split; [done|]. split; [done|]. split.
  - intros k m Hk.
    assert (Hk' : map GeneratedModel.getInitialShapeIndex
                    (newGeneratedGeo (PyCallbacks_run (PyCallbacks_create n) cbs) n) !! k
                  = Some (GeneratedModel.getInitialShapeIndex m)).
    { change (map ?f ?l) with (f <$> l). by rewrite list_lookup_fmap, Hk. }
    rewrite Hidx in Hk'. apply lookup_seq in Hk' as [-> _]. done.
  - intros ->. eexists. split; [reflexivity|done].
Qed.

Lemma generateModel_one_model_per_shape_quad :
  exists models,
    (runCall demoEngine demoFirstCall demoFresh).1.1 = Returned models /\
    length models = 1%nat /\
    map GeneratedModel.getInitialShapeIndex models = [0%nat] /\
    (forall k m, models !! k = Some m -> GeneratedModel.getInitialShapeIndex m = k) /\
    (1 = 1 -> exists m, models = [m] /\ GeneratedModel.getInitialShapeIndex m = 0)%nat.
Proof.
  pose (r := runCall demoEngine demoFirstCall demoFresh).
  assert (Hr : generateModel demoEngine demoCtx [ {[ "seed" := PyInt 42 ]} ] "good.rpk"
                 ENCODER_ID_PYTHON ∅
                 (afterCalls demoEngine []
                    (ModelGenerator_of demoEngine [demoShape]))
               = (r.1.1, r.1.2, r.2)).
  { subst r. unfold runCall, demoFirstCall, demoFresh. cbn [afterCalls fold_left
      call_prtCtx call_shapeAttributes call_rulePackagePath call_geometryEncoderName
      call_geometryEncoderOptions].
    by destruct (generateModel _ _ _ _ _ _ _) as [[? ?] ?]. }
  assert (Hin : exists shapes encs eopts,
             In (call_generate shapes encs eopts (PyCallbacksSink 1)) r.2).
  { let l := eval vm_compute in r.2 in
    assert (Hl : r.2 = l) by (vm_compute; reflexivity).
    rewrite Hl. do 3 eexists. do 3 right. left. reflexivity. }
  destruct Hin as (shapes & encs & eopts & Hin).
  apply (generateModel_one_model_per_shape demoEngine [demoShape]
           [] demoCtx _ _ _ _ _ _ _ shapes encs eopts 1 [addIndex 0] Hr Hin).
  reflexivity.
Defined.

(** ** The shapes handed to the Engine *)

Lemma no_generate_when_unresolved E path g cu g' evs :
  resolveRulePackage E path g = (cu, g', evs) -> generateCalls evs = [].
Proof.
  rewrite resolveRulePackage_eq. cbv zeta.
  destruct (prt_createResolveMap E (pcu_toFileURI E path)) as [[rm s]|[what|]];
    [destruct (bool_decide (is_Some rm) && bool_decide (s = STATUS_OK))| |];
    by intros [= <- <- <-].
Qed.

(** The generation calls of a run of the [try] block: none, or one whose
    shapes are the prepared ones. *)
Lemma TryPath_generateCalls E ctx attrs path enc opts g c g' evs :
  TryPath E ctx attrs path enc opts g c g' evs ->
  generateCalls evs = [] \/
  exists shapes encs eopts sink,
    generateCalls evs = [call_generate shapes encs eopts sink] /\
    shapesPrepared E attrs g' shapes.
Proof.
  intros [ | ? ? ? ? ? ? ? Hrun ? | ? ? ? ? ? Hev | ? ? ? ? ? Hev
         | ? ? ? ? ? ? ? ? ? sink Hev | ? ? ? ? ? ? ? ? ? Hev ?
         | ? ? ? ? ? ? ? ? ? ? ? ? ? ? Hev ? ]; eauto 10.
  left. by eapply no_generate_when_unresolved.
Qed.

Lemma generateModel_shapes E ctx attrs path enc opts g out g' evs shapes encs eopts sink :
  generateModel E ctx attrs path enc opts g = (out, g', evs) ->
  In (call_generate shapes encs eopts sink) evs ->
  frame g g' /\ shapesPrepared E attrs g' shapes.
Proof.
  intros H Hin.
  apply generateModel_inv in H as [(_ & _ & _ & ->)|[(_ & _ & _ & _ & ->)|H]].
  1,2: by destruct Hin as [?|[]].
  destruct H as (_ & _ & c & evt & Htry & -> & ->).
  apply generateCalls_In in Hin; [|done]. rewrite generateCalls_outer in Hin.
  apply generateModel_try_paths in Htry as (Hf & _ & _ & _ & Hpath).
  split; [done|].
  apply TryPath_generateCalls in Hpath as [Hev|(shapes' & ? & ? & ? & Hev & Hprep)];
    rewrite Hev in Hin; [by destruct Hin|].
  by destruct Hin as [[= <- <- <- <-]|[]].
Qed.

(** A recognised key the dictionary omits leaves the value passed in. *)
Lemma extractMainShapeAttributes_omitted E a ruleFile startRule seed shapeName :
  let x := extractMainShapeAttributes E a ruleFile startRule seed shapeName in
  (omitsKey E a "ruleFile" PT_STRING -> msa_ruleFile x = ruleFile) /\
  (omitsKey E a "startRule" PT_STRING -> msa_startRule x = startRule) /\
  (omitsKey E a "seed" PT_INT -> msa_seed x = seed) /\
  (omitsKey E a "shapeName" PT_STRING -> msa_shapeName x = shapeName).
Proof.
  unfold omitsKey, extractMainShapeAttributes.
  destruct (pcu_createAttributeMapFromPythonDict E a ∅).1 as [m|]; [|done].
  cbn. repeat split; by intros ->.
Qed.

(** C5, as amended. [generateModel] never mutates the per-shape defaults:
    after any sequence of calls on a constructed instance they are the values
    of the class (rule file ["bin/rule.cgb"], start rule ["default$init"],
    seed 666, shape name ["InitialShape"]), and in any call a shape whose
    attribute mapping omits a recognised key is handed to the Engine with
    that construction-time default, whatever earlier calls supplied. *)
Theorem defaults_are_never_mutated (E : Engine) (myGeo : list InitialShape.t)
    (calls : list Call) (prtCtx : option PRTContext)
    (shapeAttributes : list (gmap string PyValue)) (rulePackagePath : string)
    (geometryEncoderName : string) (geometryEncoderOptions : gmap string PyValue)
    (out : Outcome) (g' : ModelGenerator) (evs : list Event) :
  let g := afterCalls E calls (ModelGenerator_of E myGeo) in
  generateModel E prtCtx shapeAttributes rulePackagePath geometryEncoderName
    geometryEncoderOptions g = (out, g', evs) ->
  (mRuleFile g = "bin/rule.cgb" /\ mStartRule g = "default$init" /\
   mSeed g = 666 /\ mShapeName g = "InitialShape") /\
  (mRuleFile g' = "bin/rule.cgb" /\ mStartRule g' = "default$init" /\
   mSeed g' = 666 /\ mShapeName g' = "InitialShape") /\
  forall shapes encs eopts sink k shape,
    In (call_generate shapes encs eopts sink) evs ->
    shapes !! k = Some shape ->
    exists a sa,
      attrAt shapeAttributes k = Some a /\ nis_attributes shape = Some sa /\
      (omitsKey E a "ruleFile" PT_STRING -> sa_ruleFile sa = "bin/rule.cgb") /\
      (omitsKey E a "startRule" PT_STRING -> sa_startRule sa = "default$init") /\
      (omitsKey E a "seed" PT_INT -> sa_seed sa = 666) /\
      (omitsKey E a "shapeName" PT_STRING -> sa_shapeName sa = "InitialShape").
Proof.
  intros g H.
  destruct (ModelGenerator_new_inv E myGeo)
    as (_ & _ & _ & _ & _ & Hrf & Hsr & Hseed & Hsn & _).
  destruct (afterCalls_frame E calls (ModelGenerator_of E myGeo))
    as (Hrf1 & Hsr1 & Hseed1 & Hsn1 & _).
  fold g in Hrf1, Hsr1, Hseed1, Hsn1.
  assert (Hg : mRuleFile g = "bin/rule.cgb" /\ mStartRule g = "default$init" /\
               mSeed g = 666 /\ mShapeName g = "InitialShape")
    by (repeat split; congruence).
  pose proof (generateModel_frame E prtCtx shapeAttributes rulePackagePath
                geometryEncoderName geometryEncoderOptions g) as Hf.
  rewrite H in Hf. destruct Hf as (Hrf2 & Hsr2 & Hseed2 & Hsn2 & _). simpl in *.
  destruct Hg as (Hg1 & Hg2 & Hg3 & Hg4).
  split; [done|]. split; [repeat split; congruence|].
  intros shapes encs eopts sink k shape Hin Hk.
  destruct (generateModel_shapes _ _ _ _ _ _ _ _ _ _ _ _ _ _ H Hin) as [_ [_ Hprep]].
  apply Hprep in Hk as (a & Ha & Hattr). exists a, (shapeAttributesFor E g' a).
  do 2 (split; [done|]). unfold shapeAttributesFor. cbn.
  rewrite Hrf2, Hsr2, Hseed2, Hsn2, Hg1, Hg2, Hg3, Hg4.
  apply extractMainShapeAttributes_omitted.
Qed.

Lemma defaults_are_never_mutated_second_call :
  let g := afterCalls demoEngine [demoFirstCall]
             (ModelGenerator_of demoEngine [demoShape]) in
  let r := generateModel demoEngine demoCtx [∅] "" "" ∅ g in
  (mRuleFile g = "bin/rule.cgb" /\ mStartRule g = "default$init" /\
   mSeed g = 666 /\ mShapeName g = "InitialShape") /\
  (mRuleFile r.1.2 = "bin/rule.cgb" /\ mStartRule r.1.2 = "default$init" /\
   mSeed r.1.2 = 666 /\ mShapeName r.1.2 = "InitialShape") /\
  forall shapes encs eopts sink k shape,
    In (call_generate shapes encs eopts sink) r.2 ->
    shapes !! k = Some shape ->
    exists a sa,
      attrAt [∅] k = Some a /\ nis_attributes shape = Some sa /\
      (omitsKey demoEngine a "ruleFile" PT_STRING -> sa_ruleFile sa = "bin/rule.cgb") /\
      (omitsKey demoEngine a "startRule" PT_STRING -> sa_startRule sa = "default$init") /\
      (omitsKey demoEngine a "seed" PT_INT -> sa_seed sa = 666) /\
      (omitsKey demoEngine a "shapeName" PT_STRING -> sa_shapeName sa = "InitialShape").
Proof.
  intros g r.
  apply (defaults_are_never_mutated demoEngine [demoShape]
           [demoFirstCall] demoCtx [∅] "" "" ∅ r.1.1 r.1.2 r.2).
  subst r. by destruct (generateModel _ _ _ _ _ _ _) as [[? ?] ?].
Defined.

(** C5, as stated, fails: the first call supplies seed 42, the second call
    omits the seed, and its shape is handed to the Engine with seed 666. *)
Lemma last_supplied_seed_is_not_kept :
  seedsOf (runCall demoEngine demoFirstCall demoFresh).2 = [[Some 42]] /\
  seedsOf (generateModel demoEngine demoCtx [∅] "" "" ∅ demoUsed).2 = [[Some 666]] /\
  seedsOf (generateModel demoEngine demoCtx [∅] "" "" ∅ demoUsed).2 <> [[Some 42]].
Proof. vm_compute. repeat split; congruence. Qed.

(** ** Resolution of the rule package *)

(** C4, as amended. When a rule package is named and its resolution fails
    on a valid instance with enough attribute sets and an initialised
    context, the call returns an empty sequence without a generation pass and
    the instance stays valid. If the resolution raised an exception, the
    instance, its resolve map included, is untouched; if the resolution
    returned (a null map or a status other than OK), the resolve map held
    is replaced by what the Engine returned, and nothing else changes. *)
Theorem failed_resolution (E : Engine) (prtCtx : option PRTContext)
    (shapeAttributes : list (gmap string PyValue)) (rulePackagePath : string)
    (geometryEncoderName : string) (geometryEncoderOptions : gmap string PyValue)
    (g : ModelGenerator) :
  mValid g = true ->
  enoughAttributes shapeAttributes g ->
  is_Some prtCtx ->
  rulePackagePath <> "" ->
  ~ resolves E rulePackagePath ->
  exists evs,
    generateModel E prtCtx shapeAttributes rulePackagePath geometryEncoderName
      geometryEncoderOptions g =
    (Returned [],
     match prt_createResolveMap E (pcu_toFileURI E rulePackagePath) with
     | Returns (rm, _) => set_mResolveMap rm g
     | Throws _ => g
     end, evs) /\
    generateCalls evs = [] /\ errors evs <> [].
Proof.
  intros Hv Hen Hctx Hne Hnres.
  destruct (generateModel E prtCtx shapeAttributes rulePackagePath geometryEncoderName
              geometryEncoderOptions g) as [[out g'] evs] eqn:H.
  exists evs.
  apply generateModel_inv in H as [(? & _)|[(_ & ? & _)|H]]; [congruence|done|].
  destruct H as (_ & _ & c & evt & Htry & -> & ->).
  apply generateModel_try_paths in Htry as (_ & _ & _ & _ & Hpath).
  destruct Hpath as [ Hc | cu ? ? ? ? ? ? Hrun Hcu | | | | | ]; try done.
  { subst. by destruct Hctx. }
  rewrite generateCalls_outer. rewrite resolveRulePackage_eq in Hrun. cbv zeta in Hrun.
  destruct (prt_createResolveMap E (pcu_toFileURI E rulePackagePath)) as [[rm s]|[what|]].
  - destruct (bool_decide (is_Some rm) && bool_decide (s = STATUS_OK));
      injection Hrun as <- <- <-; destruct Hcu as [[? ->]|[? ->]]; try done.
    split; [done|]. split; [done|]. unfold errors. rewrite !List.filter_app. simpl.
    by destruct (List.filter is_error (surplusWarning shapeAttributes g)).
  - injection Hrun as <- <- <-. destruct Hcu as [[? ->]|[? ->]]; try done.
    split; [done|]. split; [done|]. unfold errors. rewrite !List.filter_app. simpl.
    by destruct (List.filter is_error (surplusWarning shapeAttributes g)).
  - injection Hrun as <- <- <-. destruct Hcu as [[? ->]|[? ->]]; try done.
    split; [done|]. split; [done|]. unfold errors. rewrite !List.filter_app. simpl.
    by destruct (List.filter is_error (surplusWarning shapeAttributes g)).
Qed.

Lemma failed_resolution_bad_package :
  exists evs,
    generateModel demoEngine demoCtx [∅] "bad.rpk" "" ∅ demoUsed =
    (Returned [],
     match prt_createResolveMap demoEngine (pcu_toFileURI demoEngine "bad.rpk") with
     | Returns (rm, _) => set_mResolveMap rm demoUsed
     | Throws _ => demoUsed
     end, evs) /\
    generateCalls evs = [] /\ errors evs <> [].
Proof.
  apply (failed_resolution demoEngine demoCtx [∅] "bad.rpk" "" ∅ demoUsed).
  - vm_compute. reflexivity.
  - left. reflexivity.
  - eexists. reflexivity.
  - discriminate.
  - intros [Hempty|[rm Hrm]]; [discriminate|]. vm_compute in Hrm. discriminate.
Defined.

(** C4, as stated, fails: the instance holds the resolve map of a successful
    call; a later call names a package for which the Engine reports a failure
    status; the call returns empty and the resolve map held is gone. *)
Lemma failed_resolution_drops_resolve_map :
  let r := generateModel demoEngine demoCtx [∅] "bad.rpk" "" ∅ demoUsed in
  mResolveMap demoUsed = Some demoResolveMap /\
  prt_createResolveMap demoEngine (pcu_toFileURI demoEngine "bad.rpk")
    = Returns (None, STATUS_OTHER 3) /\
  r.1.1 = Returned [] /\
  mResolveMap r.1.2 = None /\
  mResolveMap r.1.2 <> mResolveMap demoUsed.
Proof. vm_compute. repeat split; congruence. Qed.

(** ** The encoder set *)

(** C6 at its failing input: a fresh instance, an initialised context, a
    resolvable rule package and an empty encoder name. No encoder set
    exists, [getRawEncoderDataPointers] reads [mEncodersNames[0]] of an
    empty vector, and the call has undefined behaviour after the rule package
    has been resolved, where the claim has it report an error and return an
    empty sequence. *)
Theorem empty_encoder_name_on_fresh_instance :
  mEncodersNames demoFresh = [] /\
  (generateModel demoEngine demoCtx [∅] "good.rpk" "" ∅ demoFresh).1.1 = UndefinedBehaviour /\
  errors (generateModel demoEngine demoCtx [∅] "good.rpk" "" ∅ demoFresh).2 = [] /\
  engineCalls (generateModel demoEngine demoCtx [∅] "good.rpk" "" ∅ demoFresh).2
    = [call_createResolveMap "file:/good.rpk"].
Proof. vm_compute. repeat split; reflexivity. Qed.

(** The other half of C6 holds: with an empty encoder name the encoder set
    and its options are the ones the instance held before the call. *)
Lemma empty_encoder_name_keeps_encoder_set E ctx attrs path opts g :
  let g' := (generateModel E ctx attrs path "" opts g).1.2 in
  mEncodersNames g' = mEncodersNames g /\ mEncodersOptionsPtr g' = mEncodersOptionsPtr g.
Proof.
  intros g'. subst g'.
  destruct (generateModel E ctx attrs path "" opts g) as [[out g'] evs] eqn:H.
  apply generateModel_inv in H as [(_ & _ & -> & _)|[(_ & _ & _ & -> & _)|H]]; try done.
  destruct H as (_ & _ & c & evt & Htry & _).
  apply generateModel_try_paths in Htry as (_ & _ & _ & Hkeep & _). by apply Hkeep.
Qed.

(** On any instance without an encoder set, a call with an empty encoder
    name never reaches the generation pass: it is stopped by an earlier
    check, or it has undefined behaviour. *)
Lemma empty_encoder_name_without_encoder_set E ctx attrs path opts g out g' evs :
  mEncodersNames g = [] ->
  generateModel E ctx attrs path "" opts g = (out, g', evs) ->
  generateCalls evs = [] /\
  (mValid g = true -> enoughAttributes attrs g -> is_Some ctx -> resolves E path ->
   out = UndefinedBehaviour).
Proof.
  intros Hnames H.
  assert (Hsel : selectedEncoder "" g = None) by (unfold selectedEncoder; by rewrite Hnames).
  apply generateModel_inv in H as [(? & _ & _ & ->)|[(_ & ? & _ & _ & ->)|H]].
  1,2: split; [done|]; intros; congruence || done.
  destruct H as (_ & _ & c & evt & Htry & -> & ->). rewrite generateCalls_outer.
  apply generateModel_try_paths in Htry as (_ & _ & _ & _ & Hpath).
  destruct Hpath as [ Hc | ? ? ? ? ? ? Hnres Hrun ? | ? ? ? ? ? Hev | ? ? ? ? ? Hev
                    | ? ? ? ? ? ? Hs | ? ? ? ? ? ? Hs | ? ? ? ? ? ? ? ? ? ? Hs ];
    try congruence.
  - split; [done|]. intros _ _ [? ?] _. congruence.
  - split; [by eapply no_generate_when_unresolved|]. by intros _ _ _ ?.
  - done.
  - done.
Qed.

(** ** Surplus attribute sets *)

Section Surplus.

Context (E : Engine).






End Surplus.



(** ** The file-based encoders *)

Lemma enoughAttributes_nonempty attrs g :
  enoughAttributes attrs g ->
  length (mInitialShapesBuilders g) = 0%nat \/ attrs <> [].
Proof.
  intros [H1|Hle]; [right; by destruct attrs|].
  destruct attrs; [left; simpl in Hle; lia|by right].
Qed.

(** C8. On a constructed instance, after any earlier calls, a call whose
    encoder is a file-based one always returns an empty sequence
    (no exception escapes, the behaviour is defined). If the encoder
    options name no existing directory under [outputPath] (wrong or missing
    directory, missing key, value that is no string) there is no generation
    pass. If they do, and the call passes the preconditions tested before
    the encoder is looked at (valid instance, enough attribute sets,
    initialised context, resolvable rule package), there is exactly one
    generation pass, into a file-output sink on that directory. *)
Theorem file_based_encoder (E : Engine) (myGeo : list InitialShape.t)
    (calls : list Call) (prtCtx : option PRTContext)
    (shapeAttributes : list (gmap string PyValue)) (rulePackagePath : string)
    (geometryEncoderName : string) (geometryEncoderOptions : gmap string PyValue)
    (e : string) (out : Outcome) (g' : ModelGenerator) (evs : list Event) :
  let g := afterCalls E calls (ModelGenerator_of E myGeo) in
  selectedEncoder geometryEncoderName g = Some e ->
  e <> ENCODER_ID_PYTHON ->
  generateModel E prtCtx shapeAttributes rulePackagePath geometryEncoderName
    geometryEncoderOptions g = (out, g', evs) ->
  out = Returned [] /\
  (outputDirectory E geometryEncoderOptions = None -> generateCalls evs = []) /\
  (forall dir,
     outputDirectory E geometryEncoderOptions = Some dir ->
     mValid g = true -> enoughAttributes shapeAttributes g -> is_Some prtCtx ->
     resolves E rulePackagePath ->
     exists shapes encs eopts,
       generateCalls evs = [call_generate shapes encs eopts (FileOutputCallbacksSink dir)]).
Proof.
  intros g Hsel Hfile H.
  assert (Hwf : wf g).
  { apply afterCalls_wf. apply ModelGenerator_new_inv. }
  apply generateModel_inv in H as [(Hv & -> & _ & ->)|[(_ & Hne & -> & _ & ->)|H]].
  1,2: split; [done|]; split; [done|]; intros; congruence || done.
  destruct H as (Hv & Hen & c & evt & Htry & -> & ->). rewrite generateCalls_outer.
  apply generateModel_try_paths in Htry as (_ & _ & _ & _ & Hpath).
  destruct Hwf as [Hbs Henc].
  destruct Hpath as [ Hc | cu ? ? ? ? ? Hnres Hrun Hcu | ? ? ? ? Hundef Hev
                    | ? ? ? ? Hundef Hev | ? ? ? ? ? ? ? Hs
                    | ? ? ? e' ? ? Hs ? Hout Hev Hc
                    | ? ? ? e' dir' ? ? ? ? ? Hs ? Hout ? Hev Hc ].
  - split; [done|]. split; [done|]. intros dir _ _ _ [? ?]. congruence.
  - split; [by destruct Hcu as [[_ ->]|[_ ->]]|].
    split; [intros _; by eapply no_generate_when_unresolved|]. by intros dir _ _ _ _ ?.
  - destruct Hundef. split; [by apply Hbs|]. by apply enoughAttributes_nonempty.
  - destruct Hundef. split; [done|]. rewrite Hsel. by eexists.
  - congruence.
  - split; [by destruct Hc as [->|[what ->]]|]. split; [done|]. intros dir ?. congruence.
  - split; [by destruct Hc as [->|[? ->]]|]. split; [intros ?; congruence|].
    intros dir Hdir _ _ _ _. rewrite Hout in Hdir. injection Hdir as <-. eauto.
Qed.

Lemma file_based_encoder_quad :
  let opts : gmap string PyValue := {[ "outputPath" := PyStr "/tmp/out" ]} in
  let r := generateModel demoEngine demoCtx [∅] "good.rpk" "com.esri.prt.codecs.OBJEncoder"
             opts demoFresh in
  r.1.1 = Returned [] /\
  exists shapes encs eopts,
    generateCalls r.2 = [call_generate shapes encs eopts (FileOutputCallbacksSink "/tmp/out")].
Proof.
  intros opts r.
  assert (Hr : generateModel demoEngine demoCtx [∅] "good.rpk"
                 "com.esri.prt.codecs.OBJEncoder" opts
                 (afterCalls demoEngine []
                    (ModelGenerator_of demoEngine [demoShape]))
               = (r.1.1, r.1.2, r.2)).
  { subst r. unfold demoFresh. cbn [afterCalls fold_left].
    by destruct (generateModel _ _ _ _ _ _ _) as [[? ?] ?]. }
  destruct (file_based_encoder demoEngine [demoShape] [] demoCtx
              [∅] "good.rpk" "com.esri.prt.codecs.OBJEncoder" opts
              "com.esri.prt.codecs.OBJEncoder" r.1.1 r.1.2 r.2)
    as (Hout & _ & Hcall).
  - reflexivity.
  - intros Heq. vm_compute in Heq. discriminate.
  - exact Hr.
  - split; [exact Hout|]. apply (Hcall "/tmp/out").
    + vm_compute. reflexivity.
    + vm_compute. reflexivity.
    + left. reflexivity.
    + eexists. reflexivity.
    + right. eexists. vm_compute. reflexivity.
Defined.

(** * Further properties of the code *)

(** ** [InitialShape]: the default indexing is well formed *)

(** X1. The constructor taking only the vertices has defined behaviour
    exactly when the list holds fewer than [2 ^ 31] vertex triples. In the
    shape it then produces, each default index addresses a complete triple
    of the coordinate list, no index occurs twice, and the single face has
    as many vertices as there are indices. *)
Theorem of_vertices_indices_in_range (vert : list double) :
  (is_Some (InitialShape.of_vertices vert) <-> Z.of_nat (length vert / 3) < 2 ^ 31) /\
  forall shape, InitialShape.of_vertices vert = Some shape ->
    Forall (fun i => 0 <= i /\ 3 * i + 2 < Z.of_nat (length vert))
      (InitialShape.mIndices shape) /\
    NoDup (InitialShape.mIndices shape) /\
    InitialShape.mFaceCounts shape = [Z.of_nat (InitialShape.getIndexCount shape)].
Proof.
  destruct (decide (Z.of_nat (length vert / 3) < 2 ^ 31)) as [Hb|Hb].
  - rewrite (of_vertices_Some vert Hb). split; [split; [done|by eexists]|].
    intros shape Hs.
    assert (shape = InitialShape.of_geometry vert (map Z.of_nat (seq 0 (length vert / 3)))
                      [Z.of_nat (length vert / 3)]) as -> by congruence.
    clear Hs. unfold InitialShape.getIndexCount, InitialShape.of_geometry.
    cbn [InitialShape.mIndices InitialShape.mFaceCounts].
    split; [|split].
    + apply Forall_forall. intros i Hi.
      apply list_elem_of_In, in_map_iff in Hi as (k & <- & Hk).
      apply in_seq in Hk. split; [lia|].
      pose proof (Nat.div_mod_eq (length vert) 3) as Hdm.
      pose proof (Nat.mod_upper_bound (length vert) 3). lia.
    + change (map Z.of_nat ?l) with (Z.of_nat <$> l).
      apply (NoDup_fmap_2 _), NoDup_ListNoDup, seq_NoDup.
    + by rewrite length_map, length_seq.
  - rewrite (of_vertices_None vert) by lia. split; [|done].
    split; [by intros [? ?]|done].
Qed.

Lemma of_vertices_indices_in_range_quad :
  Forall (fun i => 0 <= i /\ 3 * i + 2 < Z.of_nat (length demoQuad))
    (InitialShape.mIndices demoShape) /\
  NoDup (InitialShape.mIndices demoShape) /\
  InitialShape.mFaceCounts demoShape = [Z.of_nat (InitialShape.getIndexCount demoShape)].
Proof. apply (of_vertices_indices_in_range demoQuad). reflexivity. Defined.

(** ** The life cycle of the Engine context *)

Lemma afterLifecycle_snoc cs c ctx :
  afterLifecycle (cs ++ [c]) ctx = lifecycleStep (afterLifecycle cs ctx) c.
Proof. unfold afterLifecycle. by rewrite fold_left_app. Qed.

Lemma afterLifecycle_initialized cs : forall c0,
  (forall c, In c cs -> exists h, c = initialize_prt h) ->
  afterLifecycle cs (Some c0) = Some c0.
Proof.
  induction cs as [|c cs IH]; intros c0 Hall; [done|].
  destruct (Hall c) as [h ->]; [by left|]. simpl. apply IH.
  intros c' Hc'. apply Hall. by right.
Qed.

(** X3. Whether the context is initialised after a sequence of [initialize_prt]
    and [shutdown_prt] calls depends on the last call only. The context of
    the first [initialize_prt] is kept by every later one up to the next
    [shutdown_prt]: [prt::init] is not called again, also when it had
    failed, and [is_prt_initialized] answers true although the context
    itself converts to false. *)
Theorem lifecycle_last_call_decides (cs : list LifecycleCall) (c : LifecycleCall)
    (prtCtx : option PRTContext) (handle : bool) (later : list bool) :
  isPRTInitialized (afterLifecycle (cs ++ [c]) prtCtx) =
    match c with initialize_prt _ => true | shutdown_prt => false end /\
  afterLifecycle (cs ++ shutdown_prt :: initialize_prt handle :: map initialize_prt later)
    prtCtx = Some {| mPRTHandle := handle |} /\
  (PRTContext_bool <$>
     afterLifecycle (cs ++ shutdown_prt :: initialize_prt handle :: map initialize_prt later)
       prtCtx) = Some handle.
Proof.
  split.
  - rewrite afterLifecycle_snoc. destruct c as [h|]; [|done].
    by destruct (afterLifecycle cs prtCtx).
  - assert (Hctx : afterLifecycle
                     (cs ++ shutdown_prt :: initialize_prt handle :: map initialize_prt later)
                     prtCtx = Some {| mPRTHandle := handle |}).
    { unfold afterLifecycle. rewrite fold_left_app. cbn [fold_left lifecycleStep].
      unfold shutdownPRT. cbn [initializePRT].
      apply (afterLifecycle_initialized (map initialize_prt later)).
      intros c' Hc'. apply in_map_iff in Hc' as (h & <- & _). by eexists. }
    by rewrite Hctx.
Qed.

(** ** [copyToCStr] *)

Lemma String_length_chars (s : string) :
  String.length s = length (String.list_ascii_of_string s).
Proof. induction s as [|c s IH]; simpl; congruence. Qed.

Lemma until_nul_app_nul (l r : list Ascii.ascii) (k : nat) :
  Forall (fun c => c <> Ascii.zero) l ->
  until_nul (l ++ replicate k Ascii.zero ++ Ascii.zero :: r) = l.
Proof.
  induction 1 as [|c l Hc Hl IH]; simpl.
  - destruct k; simpl; by destruct (decide (Ascii.zero = Ascii.zero)).
  - destruct (decide (c = Ascii.zero)); [done|]. by rewrite IH.
Qed.

Lemma until_nul_no_nul (s : list Ascii.ascii) :
  Forall (fun c => c <> Ascii.zero) (until_nul s).
Proof.
  induction s as [|c s IH]; simpl; [done|].
  destruct (decide (c = Ascii.zero)); [done|]. by constructor.
Qed.

Lemma until_nul_id (s : list Ascii.ascii) :
  Forall (fun c => c <> Ascii.zero) s -> until_nul s = s.
Proof.
  induction 1 as [|c s Hc Hs IH]; simpl; [done|].
  destruct (decide (c = Ascii.zero)); [done|]. by rewrite IH.
Qed.

(** The buffer after [strncpy] and the terminating store, laid out. *)
Lemma copyToCStr_layout (str : string) (cstr : list Ascii.ascii) (cstrSize : nat) :
  (0 < cstrSize <= length cstr)%nat ->
  let u := until_nul (String.list_ascii_of_string str) in
  copyToCStr str cstr cstrSize =
    Some (take (cstrSize - 1) u ++
          replicate (cstrSize - 1 - length u) Ascii.zero ++
          Ascii.zero :: drop cstrSize cstr,
          (String.length str + 1)%nat).
Proof.
  intros Hsz u. unfold copyToCStr, strncpy. fold u.
  rewrite decide_False, decide_True by lia. do 2 f_equal.
  set (X := take cstrSize (u ++ replicate cstrSize Ascii.zero)).
  assert (HX : length X = cstrSize).
  { unfold X. rewrite length_take, length_app, length_replicate. lia. }
  rewrite insert_app_l by lia. rewrite insert_take_drop by lia.
  replace (drop (S (cstrSize - 1)) X) with (@nil Ascii.ascii)
    by (symmetry; apply drop_ge; lia).
  unfold X. rewrite take_take, Nat.min_l by lia.
  rewrite take_app, take_replicate, Nat.min_l by lia.
  by rewrite <- !app_assoc.
Qed.

(** X4. When [cstrSize] is positive and the buffer has that much space, the
    copy stays within the first [cstrSize] characters, keeps the length of
    the buffer and what lies behind, stores a NUL at the last of the
    [cstrSize] positions, and reports [str.length() + 1] as the size needed;
    the C string then read from the buffer is shorter than [cstrSize]. *)
Theorem copyToCStr_bounded_and_terminated (str : string) (cstr : list Ascii.ascii)
    (cstrSize : nat) :
  (0 < cstrSize <= length cstr)%nat ->
  exists buf,
    copyToCStr str cstr cstrSize = Some (buf, (String.length str + 1)%nat) /\
    length buf = length cstr /\
    buf !! (cstrSize - 1)%nat = Some Ascii.zero /\
    drop cstrSize buf = drop cstrSize cstr /\
    (String.length (c_string buf) < cstrSize)%nat.
Proof.
  intros Hsz. eexists. split; [by apply copyToCStr_layout|].
  set (u := until_nul (String.list_ascii_of_string str)).
  assert (Hlen : length (take (cstrSize - 1) u ++
                         replicate (cstrSize - 1 - length u) Ascii.zero) = (cstrSize - 1)%nat).
  { rewrite length_app, length_take, length_replicate. lia. }
  split; [|split; [|split]].
  - rewrite !length_app, length_take, length_replicate. simpl. rewrite length_drop. lia.
  - rewrite app_assoc, lookup_app_r by lia. rewrite Hlen, Nat.sub_diag. done.
  - rewrite app_assoc, drop_app_ge by lia. rewrite Hlen.
    replace (cstrSize - (cstrSize - 1))%nat with 1%nat by lia. done.
  - unfold c_string. rewrite until_nul_app_nul.
    + rewrite String_length_chars, String.list_ascii_of_string_of_list_ascii, length_take. lia.
    + apply Forall_take, until_nul_no_nul.
Qed.

Lemma copyToCStr_bounded_and_terminated_small_buffer :
  exists buf,
    copyToCStr "InitialShape" (replicate 8 Ascii.Space) 5 = Some (buf, 13%nat) /\
    length buf = 8%nat /\
    buf !! 4%nat = Some Ascii.zero /\
    drop 5 buf = drop 5 (replicate 8 Ascii.Space) /\
    (String.length (c_string buf) < 5)%nat.
Proof.
  apply (copyToCStr_bounded_and_terminated "InitialShape" (replicate 8 Ascii.Space) 5).
  vm_compute. lia.
Defined.

(** X5. When [cstrSize] is positive and the buffer has that much space, the C
    string read from the buffer is the C string of [str] cut to
    [cstrSize - 1] characters: a string that does not fit is truncated, never
    written past [cstrSize]. *)
Theorem copyToCStr_truncates (str : string) (cstr : list Ascii.ascii) (cstrSize : nat) :
  (0 < cstrSize <= length cstr)%nat ->
  exists buf n,
    copyToCStr str cstr cstrSize = Some (buf, n) /\
    c_string buf =
      String.string_of_list_ascii
        (take (cstrSize - 1) (until_nul (String.list_ascii_of_string str))).
Proof.
  intros Hsz. do 2 eexists. split; [by apply copyToCStr_layout|].
  unfold c_string. f_equal. apply until_nul_app_nul, Forall_take, until_nul_no_nul.
Qed.

Lemma copyToCStr_truncates_small_buffer :
  exists buf n,
    copyToCStr "InitialShape" (replicate 8 Ascii.Space) 5 = Some (buf, n) /\
    c_string buf = "Init".
Proof.
  apply (copyToCStr_truncates "InitialShape" (replicate 8 Ascii.Space) 5). vm_compute. lia.
Defined.

(** X6. The two-call protocol. A call with [cstrSize = 0] leaves the buffer
    alone and reports the size needed; a second call on any buffer of at
    least that size gives the string back, provided the string holds no NUL
    character. *)
Theorem copyToCStr_round_trip (str : string) (cstr0 cstr : list Ascii.ascii) :
  Forall (fun c => c <> Ascii.zero) (String.list_ascii_of_string str) ->
  exists needed,
    copyToCStr str cstr0 0 = Some (cstr0, needed) /\
    ((needed <= length cstr)%nat ->
     forall cstrSize, (needed <= cstrSize <= length cstr)%nat ->
       exists buf,
         copyToCStr str cstr cstrSize = Some (buf, needed) /\ c_string buf = str).
Proof.
  intros Hnul. exists (String.length str + 1)%nat. split; [done|].
  intros _ cstrSize Hsz. eexists. split; [apply copyToCStr_layout; lia|].
  unfold c_string. rewrite until_nul_app_nul by apply Forall_take, until_nul_no_nul.
  rewrite until_nul_id by done. rewrite String_length_chars in Hsz.
  rewrite take_ge by lia. apply String.string_of_list_ascii_of_string.
Qed.

Lemma copyToCStr_round_trip_shape_name :
  exists needed,
    copyToCStr "InitialShape" [] 0 = Some ([], needed) /\
    ((needed <= length (replicate 16 Ascii.Space))%nat ->
     forall cstrSize, (needed <= cstrSize <= length (replicate 16 Ascii.Space))%nat ->
       exists buf,
         copyToCStr "InitialShape" (replicate 16 Ascii.Space) cstrSize = Some (buf, needed) /\
         c_string buf = "InitialShape").
Proof.
  apply (copyToCStr_round_trip "InitialShape" [] (replicate 16 Ascii.Space)).
  vm_compute. repeat constructor; discriminate.
Defined.

(** ** [PythonLogHandler::toXML] *)

(** X7. [toXML] reports 21 as the size needed whatever the buffer, stores
    [STATUS_OK] whenever a status is asked for, and any buffer with room for
    21 characters reads back as the XML of the handler. *)
Theorem toXML_reports_size_and_xml (result : list Ascii.ascii) (resultSize : nat)
    (wantStat : bool) :
  (resultSize <= length result)%nat ->
  exists buf,
    toXML result resultSize wantStat =
      (Some (buf, 21%nat), if wantStat then Some STATUS_OK else None) /\
    length buf = length result /\
    ((21 <= resultSize)%nat -> c_string buf = "<PythonLogHandler />").
Proof.
  intros Hsz. unfold toXML. destruct (decide (resultSize = 0)%nat) as [->|Hne].
  - exists result. split; [done|]. split; [done|]. lia.
  - rewrite copyToCStr_layout by lia. eexists. split; [done|].
    change (until_nul (String.list_ascii_of_string PythonLogHandler_xml))
      with (String.list_ascii_of_string PythonLogHandler_xml).
    set (u := String.list_ascii_of_string PythonLogHandler_xml).
    assert (Hu : length u = 20%nat) by done.
    split.
    + rewrite !length_app, length_take, length_replicate. simpl. rewrite length_drop. lia.
    + intros H21. unfold c_string.
      rewrite until_nul_app_nul.
      * rewrite take_ge by lia. done.
      * apply Forall_take. unfold u. vm_compute. repeat constructor; discriminate.
Qed.

Lemma toXML_reports_size_and_xml_large_buffer :
  exists buf,
    toXML (replicate 32 Ascii.Space) 32 true = (Some (buf, 21%nat), Some STATUS_OK) /\
    length buf = 32%nat /\
    ((21 <= 32)%nat -> c_string buf = "<PythonLogHandler />").
Proof.
  apply (toXML_reports_size_and_xml (replicate 32 Ascii.Space) 32 true). vm_compute. lia.
Defined.

(** ** The anatomy of a call *)

Section Anatomy.

Context (E : Engine).

Lemma resolve_stage_anatomy path g cu g1 ev1 :
  (if decide (path = "") then ret () else resolveRulePackage E path) g = (cu, g1, ev1) ->
  mResolveMap g1 = resolveMapAfter E path g /\
  warnings ev1 = [] /\
  engineCalls ev1 = resolvePart E path /\
  match cu with
  | Normal _ => errors ev1 = []
  | Return_ ms => length (errors ev1) = 1%nat
  | Throw e => e = unknown_exception /\ errors ev1 = []
  | Undefined => False
  end.
Proof.
  unfold resolveMapAfter, resolvePart. destruct (decide (path = "")) as [->|Hne].
  { by intros [= <- <- <-]. }
  rewrite resolveRulePackage_eq. cbv zeta.
  destruct (prt_createResolveMap E (pcu_toFileURI E path)) as [[rm s]|[what|]].
  - destruct (bool_decide (is_Some rm) && bool_decide (s = STATUS_OK));
      by intros [= <- <- <-].
  - by intros [= <- <- <-].
  - by intros [= <- <- <-].
Qed.

Lemma geometries_insert_attributes g ind isb a :
  mInitialShapesBuilders g !! ind = Some (Some isb) ->
  geometries (set_mInitialShapesBuilders
                (<[ind := Some (setAttributes a isb)]> (mInitialShapesBuilders g)) g)
  = geometries g.
Proof.
  intros Hi. unfold geometries. simpl. rewrite list_fmap_insert. apply list_insert_id.
  by rewrite list_lookup_fmap, Hi.
Qed.

Lemma geometries_same g g1 :
  mInitialShapesBuilders g1 = mInitialShapesBuilders g -> geometries g1 = geometries g.
Proof. unfold geometries. by intros ->. Qed.

Lemma setAndCreate_loop_geometry attrs : forall n i g c g' evs,
  mapM (setAndCreateInitialShape_at E attrs) (seq i n) g = (c, g', evs) ->
  geometries g' = geometries g.
Proof.
  induction n as [|n IH]; intros i g c g' evs H.
  - simpl in H. by injection H as <- <- <-.
  - cbn [seq mapM] in H.
    assert (Hstep : forall cy g1 ev1,
               setAndCreateInitialShape_at E attrs i g = (cy, g1, ev1) ->
               geometries g1 = geometries g).
    { intros cy g1 ev1 Hy. rewrite setAndCreateInitialShape_at_eq in Hy.
      destruct (attrAt attrs i) as [a|]; [|by injection Hy as <- <- <-].
      destruct (mInitialShapesBuilders g !! i) as [[isb|]|] eqn:Hi; cbv zeta in Hy;
        injection Hy as <- <- <-; try done.
      by apply geometries_insert_attributes. }
    bind_cases H y g1 ev1 Hy; try (by eapply Hstep).
    apply Hstep in Hy. rewrite <- Hy.
    bind_cases H ys g2 ev2 Hys; try (by eapply IH).
    injection H as <- <- <-. by eapply IH.
Qed.

Lemma setAndCreateInitialShape_geometry attrs g c g' evs :
  setAndCreateInitialShape E attrs g = (c, g', evs) ->
  geometries g' = geometries g /\
  forall shapes, c = Normal shapes -> nis_geometry <$> shapes = geometries g.
Proof.
  unfold setAndCreateInitialShape. intros H.
  bind_cases H n g1 ev1 Hn; try (unfold gets in Hn; congruence).
  unfold gets in Hn. injection Hn as <- <- <-.
  split; [by eapply setAndCreate_loop_geometry|].
  intros shapes ->. apply setAndCreate_loop in H as (_ & _ & _ & _ & _ & _ & Hlen & Hshapes).
  apply list_eq. intros k. unfold geometries. rewrite !list_lookup_fmap.
  destruct (shapes !! k) as [shape|] eqn:Hk; simpl.
  - apply Hshapes in Hk as (a & isb & _ & Hb & ->). simpl in Hb. by rewrite Hb.
  - apply lookup_ge_None in Hk. rewrite lookup_ge_None_2; [done|lia].
Qed.

Lemma getRawEncoderDataPointers_take g encs eopts g' evs :
  getRawEncoderDataPointers g = (Normal (encs, eopts), g', evs) ->
  exists n0, mEncodersNames g !! 0%nat = Some n0 /\
    encs = take (encoderCount n0) (mEncodersNames g) /\
    eopts = take (encoderCount n0) (mEncodersOptionsPtr g).
Proof.
  unfold getRawEncoderDataPointers, bind, gets, vector_at, ret, undefined, encoderCount.
  simpl.
  destruct (mEncodersNames g) as [|n0 names]; simpl; [done|].
  destruct (decide (n0 = ENCODER_ID_PYTHON)) as [->|Hne].
  - destruct (mEncodersOptionsPtr g) as [|o0 options]; simpl; intros H; simplify_eq.
    exists ENCODER_ID_PYTHON. by rewrite decide_True.
  - destruct names as [|n1 [|n2 names]]; simpl; try done.
    destruct (mEncodersOptionsPtr g) as [|o0 [|o1 [|o2 options]]]; simpl;
      intros H; simplify_eq.
    exists n0. by rewrite decide_False.
Qed.

Lemma encoder_stage_names enc opts g cu g' evs :
  (if decide (enc = "") then ret ()
   else initializeEncoderData E enc opts) g = (cu, g', evs) ->
  cu = Normal () -> enc <> "" ->
  mEncodersNames g' = enc :: auxiliaryEncoders enc /\
  length (mEncodersOptionsPtr g') = length (mEncodersNames g').
Proof.
  intros H -> Hne. rewrite decide_False in H by done.
  unfold initializeEncoderData, bind, gets, deref, modify, ret, undefined, auxiliaryEncoders in *.
  destruct (mEncoderBuilder g) as [bld|]; [|done].
  destruct (pcu_createAttributeMapFromPythonDict E opts bld) as [encOptions bld'].
  destruct (decide (enc = ENCODER_ID_PYTHON)); by simplify_eq.
Qed.

Lemma no_generate_In evs shapes encs eopts sink :
  generateCalls evs = [] -> ~ In (call_generate shapes encs eopts sink) evs.
Proof. intros Hg Hin. apply generateCalls_In in Hin; [|done]. by rewrite Hg in Hin. Qed.

Lemma no_generate_not_succeeded evs : generateCalls evs = [] -> ~ succeeded E evs.
Proof. intros Hg (? & ? & ? & ? & ? & Hin & _). by eapply no_generate_In. Qed.

Lemma one_generate_In evs s e o k s' e' o' k' :
  generateCalls evs = [call_generate s e o k] ->
  In (call_generate s' e' o' k') evs -> s' = s /\ e' = e /\ o' = o /\ k' = k.
Proof.
  intros Hg Hin. apply generateCalls_In in Hin; [|done]. rewrite Hg in Hin.
  by destruct Hin as [[= -> -> -> ->]|[]].
Qed.

Lemma one_generate_succeeded evs s e o k :
  generateCalls evs = [call_generate s e o k] ->
  succeeded E evs <-> exists cbs, prt_generate E s e o k = Returns (cbs, STATUS_OK).
Proof.
  intros Hg. split.
  - intros (s' & e' & o' & k' & cbs & Hin & Hr).
    apply (one_generate_In _ _ _ _ _ _ _ _ _ Hg) in Hin as (-> & -> & -> & ->). eauto.
  - intros [cbs Hr]. exists s, e, o, k, cbs. split; [|done].
    assert (Hin : In (call_generate s e o k) (generateCalls evs)) by (rewrite Hg; by left).
    by apply List.filter_In in Hin as [? _].
Qed.

(** The filters of the events of a run, computed. *)
Ltac filter_events :=
  unfold errors, warnings, engineCalls, generateCalls in *;
  rewrite ?List.filter_app; cbn [List.filter is_error is_warning is_engine_call
                                   is_generate_call];
  repeat match goal with
         | H : List.filter _ _ = _ |- _ => rewrite H
         end;
  rewrite ?app_nil_r; cbn [app length caught].

(** A run of the [try] block with an initialised context: the resolve map
    and the geometry it leaves, the calls it makes, the errors it logs. *)
Lemma generateModel_try_anatomy ctx attrs path enc opts g c g' evs :
  generateModel_try E (Some ctx) attrs path enc opts g = (c, g', evs) ->
  mResolveMap g' = resolveMapAfter E path g /\
  geometries g' = geometries g /\
  warnings evs = [] /\
  engineCalls evs = resolvePart E path ++ generateCalls evs /\
  ((generateCalls evs = [] /\
    ((c = Undefined /\ errors evs = []) \/
     (outcomeOf c = Returned [] /\ length (errors evs ++ caught c) = 1%nat))) \/
   (exists shapes encs eopts sink,
      generateCalls evs = [call_generate shapes encs eopts sink] /\
      generateArguments E opts g g' shapes encs eopts sink /\
      (enc <> "" -> mEncodersNames g' = enc :: auxiliaryEncoders enc /\
                    length (mEncodersOptionsPtr g') = length (mEncodersNames g')) /\
      c <> Undefined /\
      match prt_generate E shapes encs eopts sink with
      | Returns (_, STATUS_OK) => errors evs ++ caught c = []
      | _ => outcomeOf c = Returned [] /\ length (errors evs ++ caught c) = 1%nat
      end)).
Proof.
  unfold generateModel_try. intros H.
  bind_cases H u0 g0 ev0 H0; try (unfold ret in H0; congruence).
  unfold ret in H0. injection H0 as <- <- <-. rewrite app_nil_l.
  (* the resolve map *)
  bind_cases H u1 g1 ev1 H1;
    pose proof (resolve_stage_anatomy _ _ _ _ _ H1) as (Hrm1 & Hw1 & Hec1 & Herr1);
    apply resolve_stage_inv in H1 as (Hg1 & Hev1 & Hres);
    pose proof (resolve_stage_frame _ _ Hg1) as (Hf1 & Hbs1 & Hn1 & Ho1 & Hb1);
    pose proof (geometries_same _ _ Hbs1) as Hgeo1.
  2,3: do 2 (split; [done|]); split; [done|]; split; [by filter_events|];
       left; split; [done|]; right;
       (split; [by destruct Hres as (_ & _ & _ & [[= ->]|[= ->]])|]).
  2: { by filter_events. }
  2: { destruct Herr1 as [-> Herr1]. by filter_events. }
  2: done.
  (* the initial shapes *)
  bind_cases H shapes g2 ev2 H2;
    pose proof (setAndCreateInitialShape_geometry _ _ _ _ _ H2) as (Hgeo2 & Hsg);
    apply setAndCreateInitialShape_inv in H2 as (-> & Hsame & Hlen2 & _ & Hshapes);
    try done;
    pose proof (sameExceptBuilders_frame _ _ Hsame Hlen2) as (Hf2 & Hrm2 & Hn2 & Ho2 & Hb2).
  2:{ split; [congruence|]. split; [congruence|]. split; [by filter_events|].
      split; [by filter_events|]. left. split; [by filter_events|]. left.
      split; [done|]. by filter_events. }
  rewrite app_nil_l. specialize (Hsg _ eq_refl).
  (* the encoder builder and the encoder set *)
  bind_gets H.
  bind_cases H u3 g3 ev3 H3;
    apply builder_stage_inv in H3 as (-> & [=] & Hbld3 & Hf3 & Hbs3 & Hrm3 & Hn3 & Ho3).
  rewrite app_nil_l.
  bind_cases H u4 g4 ev4 H4;
    try destruct u4;
    pose proof (encoder_stage_names _ _ _ _ _ _ H4) as Hnames4;
    apply (encoder_stage_inv _ _ _ _ _ _ _ Hbld3) in H4
      as (-> & [=] & Hf4 & Hbs4 & Hrm4 & _ & _ & _).
  specialize (Hnames4 eq_refl). rewrite app_nil_l.
  assert (HRm : mResolveMap g4 = resolveMapAfter E path g) by congruence.
  assert (HGeo : geometries g4 = geometries g).
  { rewrite (geometries_same _ _ Hbs4), (geometries_same _ _ Hbs3). congruence. }
  assert (HLen : length (mInitialShapesBuilders g4) = length (mInitialShapesBuilders g)).
  { rewrite Hbs4, Hbs3, Hlen2. by rewrite Hbs1. }
  rewrite Hgeo1 in Hsg.
  clear Hshapes Hsame Hlen2 Hf2 Hrm2 Hn2 Ho2 Hb2 Hbld3 Hf3 Hbs3 Hrm3 Hn3 Ho3
        Hf4 Hbs4 Hrm4 Hf1 Hbs1 Hn1 Ho1 Hb1 Hg1 Hgeo1 Hgeo2 Hrm1.
  (* the raw encoder data *)
  bind_cases H raw g5 ev5 H5.
  2,3: by apply getRawEncoderDataPointers_inv in H5 as (_ & _ & ?).
  2:{ apply getRawEncoderDataPointers_inv in H5 as (-> & -> & _).
      do 2 (split; [done|]). split; [by filter_events|].
      split; [by filter_events|]. left. split; [by filter_events|]. left.
      split; [done|]. by filter_events. }
  destruct raw as [encs eopts].
  pose proof (getRawEncoderDataPointers_take _ _ _ _ _ H5) as (n0 & Hn0 & Hencs & Heopts).
  apply getRawEncoderDataPointers_inv in H5 as (-> & -> & _).
  cbv beta iota in H. rewrite app_nil_l.
  bind_gets H.
  bind_cases H n0' g6 ev6 H6;
    apply vector_at_inv in H6 as (-> & -> & Hn0'); rewrite Hn0 in Hn0'; try done.
  injection Hn0' as ->. rewrite ?app_nil_l.
  bind_gets H. rewrite HLen in H.
  assert (HArgs : forall sink,
             (if decide (n0 = ENCODER_ID_PYTHON)
              then sink = PyCallbacksSink (length (mInitialShapesBuilders g))
              else exists dir, outputDirectory E opts = Some dir /\
                               sink = FileOutputCallbacksSink dir) ->
             generateArguments E opts g g4 shapes encs eopts sink).
  { intros sink Hsink. split; [done|]. by exists n0. }
  clear Hn0 Hencs Heopts Hsg.
  destruct (decide (n0 = ENCODER_ID_PYTHON)) as [->|Hfile].
  - (* the in-memory encoder *)
    specialize (HArgs _ eq_refl).
    bind_cases H r g7 ev7 H7;
      apply generate_inv in H7 as (-> & -> & Hgen);
      destruct (prt_generate E shapes encs eopts
                  (PyCallbacksSink (length (mInitialShapesBuilders g))))
        as [[callbacks genStat]|e'] eqn:Hr;
      simplify_eq.
    + cbv beta iota in H.
      destruct (decide (genStat = STATUS_OK)) as [->|Hst];
        [unfold ret in H | unfold bind, generateFailed, emit, return_ in H];
        injection H as <- <- <-;
        (do 2 (split; [done|])); (split; [by filter_events|]);
        (split; [by filter_events|]);
        right; eexists _, _, _, _; (split; [by filter_events|]);
        (do 3 (split; [done|])); rewrite Hr.
      * by filter_events.
      * destruct genStat; try done; by filter_events.
    + do 2 (split; [done|]). split; [by filter_events|]. split; [by filter_events|].
      right. eexists _, _, _, _. split; [by filter_events|].
      do 3 (split; [done|]). rewrite Hr. destruct e'; by filter_events.
  - (* a file-based encoder *)
    bind_cases H outputPath g7 ev7 H7;
      apply cast_outputPath_inv in H7 as (-> & -> & Hcast);
      destruct (opts !! "outputPath") as [[s| | | |]|] eqn:Hopt;
      simplify_eq; try (destruct Hcast as [what Hcast]; simplify_eq).
    2-6: do 2 (split; [done|]); (split; [by filter_events|]);
         (split; [by filter_events|]); left; (split; [by filter_events|]);
         right; (split; [done|]); by filter_events.
    rewrite app_nil_l.
    bind_cases H u8 g8 ev8 H8; unfold emit in H8; simplify_eq.
    destruct (fs_is_directory E s && fs_exists E s) eqn:Hdir.
    + assert (Hout : outputDirectory E opts = Some s).
      { unfold outputDirectory. by rewrite Hopt, Hdir. }
      specialize (HArgs (FileOutputCallbacksSink s) (ex_intro _ s (conj Hout eq_refl))).
      bind_cases H r g9 ev9 H9;
        apply generate_inv in H9 as (-> & -> & Hgen);
        destruct (prt_generate E shapes encs eopts (FileOutputCallbacksSink s))
          as [[callbacks genStat]|e'] eqn:Hr;
        simplify_eq.
      * cbv beta iota in H.
        destruct (decide (genStat = STATUS_OK)) as [->|Hst];
          [unfold return_ in H | unfold bind, generateFailed, emit, return_ in H];
          injection H as <- <- <-;
          (do 2 (split; [done|])); (split; [by filter_events|]);
          (split; [by filter_events|]);
          right; eexists _, _, _, _; (split; [by filter_events|]);
          (do 3 (split; [done|])); rewrite Hr.
        -- by filter_events.
        -- destruct genStat; try done; by filter_events.
      * do 2 (split; [done|]). split; [by filter_events|]. split; [by filter_events|].
        right. eexists _, _, _, _. split; [by filter_events|].
        do 3 (split; [done|]). rewrite Hr. destruct e'; by filter_events.
    + unfold bind, emit, return_ in H. simplify_eq.
      do 2 (split; [done|]). split; [by filter_events|]. split; [by filter_events|].
      left. split; [by filter_events|]. right. split; [done|]. by filter_events.
Qed.

Lemma errors_outer attrs g evt c :
  errors (surplusWarning attrs g ++ evt ++ caught c) = errors evt ++ caught c.
Proof.
  unfold errors. rewrite !List.filter_app.
  replace (List.filter is_error (surplusWarning attrs g)) with (@nil Event)
    by (unfold surplusWarning; by case_bool_decide).
  by destruct c as [?|?|[?|]|].
Qed.

Lemma engineCalls_outer attrs g evt c :
  engineCalls (surplusWarning attrs g ++ evt ++ caught c) = engineCalls evt.
Proof.
  unfold engineCalls. rewrite !List.filter_app.
  replace (List.filter is_engine_call (surplusWarning attrs g)) with (@nil Event)
    by (unfold surplusWarning; by case_bool_decide).
  replace (List.filter is_engine_call (caught c)) with (@nil Event)
    by (by destruct c as [?|?|[?|]|]).
  by rewrite app_nil_r.
Qed.

Lemma warnings_outer attrs g evt c :
  warnings (surplusWarning attrs g ++ evt ++ caught c)
  = surplusWarning attrs g ++ warnings evt.
Proof.
  unfold warnings. rewrite !List.filter_app.
  replace (List.filter is_warning (caught c)) with (@nil Event)
    by (by destruct c as [?|?|[?|]|]).
  rewrite app_nil_r. f_equal. unfold surplusWarning. by case_bool_decide.
Qed.

(** A call of [generateModel]: stopped by a guard, or the run of the [try]
    block with what the handlers add. *)
Lemma generateModel_anatomy ctx attrs path enc opts g out g' evs :
  generateModel E ctx attrs path enc opts g = (out, g', evs) ->
  geometries g' = geometries g /\
  (enc = "" -> mEncodersNames g' = mEncodersNames g /\
               mEncodersOptionsPtr g' = mEncodersOptionsPtr g) /\
  ((~ passesGuards ctx attrs g /\
    g' = g /\ out = Returned [] /\ engineCalls evs = [] /\ length (errors evs) = 1%nat) \/
   (passesGuards ctx attrs g /\
    mResolveMap g' = resolveMapAfter E path g /\
    warnings evs = surplusWarning attrs g /\
    engineCalls evs = resolvePart E path ++ generateCalls evs /\
    ((generateCalls evs = [] /\
      ((out = UndefinedBehaviour /\ errors evs = []) \/
       (out = Returned [] /\ length (errors evs) = 1%nat))) \/
     (exists shapes encs eopts sink,
        generateCalls evs = [call_generate shapes encs eopts sink] /\
        generateArguments E opts g g' shapes encs eopts sink /\
        (enc <> "" -> mEncodersNames g' = enc :: auxiliaryEncoders enc /\
                      length (mEncodersOptionsPtr g') = length (mEncodersNames g')) /\
        out <> UndefinedBehaviour /\
        match prt_generate E shapes encs eopts sink with
        | Returns (_, STATUS_OK) => errors evs = []
        | _ => out = Returned [] /\ length (errors evs) = 1%nat
        end)))).
Proof.
  intros H. unfold passesGuards.
  apply generateModel_inv in H as [(Hv & -> & -> & ->)|[(Hv & Hne & -> & -> & ->)|H]].
  - do 2 (split; [done|]). left. split; [|done]. intros [? _]. congruence.
  - do 2 (split; [done|]). left. split; [|done]. by intros (_ & ? & _).
  - destruct H as (Hv & Hen & c & evt & Htry & -> & ->).
    pose proof (generateModel_try_paths E _ _ _ _ _ _ _ _ _ Htry) as (_ & _ & _ & Hkeep & _).
    destruct ctx as [ctx|].
    2:{ unfold generateModel_try, bind, emit, return_ in Htry. simpl in Htry.
        injection Htry as <- <- <-. do 2 (split; [done|]). left.
        split; [by intros (_ & _ & [? ?])|]. do 2 (split; [done|]).
        by rewrite engineCalls_outer, errors_outer. }
    apply generateModel_try_anatomy in Htry as (Hrm & Hgeo & Hw & Hec & Hsum).
    do 2 (split; [done|]). right. split; [by repeat split|]. split; [done|].
    rewrite warnings_outer, engineCalls_outer, generateCalls_outer, errors_outer, Hw, app_nil_r.
    do 2 (split; [done|]).
    destruct Hsum as [(Hgc & [[-> Herr]|[Hout Herr]])
                     |(shapes & encs & eopts & sink & Hgc & Hargs & Hnames & Hc & Hm)].
    + left. split; [done|]. left. by rewrite Herr.
    + left. split; [done|]. by right.
    + right. exists shapes, encs, eopts, sink. do 3 (split; [done|]).
      split; [by destruct c|]. done.
Qed.

Lemma afterCalls_geometries calls : forall g, geometries (afterCalls E calls g) = geometries g.
Proof.
  induction calls as [|c calls IH]; intros g; [done|].
  simpl. rewrite IH. unfold runCall.
  destruct (generateModel E (call_prtCtx c) (call_shapeAttributes c) (call_rulePackagePath c)
              (call_geometryEncoderName c) (call_geometryEncoderOptions c) g)
    as [[out g'] evs] eqn:H.
  by apply generateModel_anatomy in H as [? _].
Qed.

(** ** The constructor, shape by shape *)

Lemma ModelGenerator_addShape_anatomy ind shape g c g' evs :
  ModelGenerator_addShape E ind shape g = (c, g', evs) ->
  engineCalls evs = [] /\ warnings evs = [] /\
  if decide (rejected E shape) then
    length (errors evs) = 1%nat /\ g' = set_mValid false g
  else
    errors evs = [] /\
    g' = if mValid g then
           set_mInitialShapesBuilders
             (<[ind := Some {| isb_geometry := Some (geometryOf E shape);
                               isb_attributes := None |}]> (mInitialShapesBuilders g)) g
         else g.
Proof.
  intros H. unfold geometryOf.
  destruct (decide (rejected E shape)) as [Hr|Hr];
    unfold ModelGenerator_addShape, rejected, InitialShape.getPathFlag,
      InitialShape.getPath in *;
    destruct (InitialShape.mPathFlag shape);
    repeat match type of H with
           | context [decide ?P] => destruct (decide P)
           end;
    try tauto;
    unfold bind, emit, modify, gets, ret in H; simpl in H;
    try (destruct (mValid g) eqn:Hv);
    injection H as <- <- <-; simpl; by destruct g.
Qed.

Lemma ModelGenerator_addShapes_anatomy : forall myGeo ind g c g' evs,
  ModelGenerator_addShapes E ind myGeo g = (c, g', evs) ->
  (ind + length myGeo <= length (mInitialShapesBuilders g))%nat ->
  engineCalls evs = [] /\ warnings evs = [] /\
  length (errors evs) = length (filter (rejected E) myGeo) /\
  forall k shape, myGeo !! k = Some shape ->
    (mValid g = true -> Forall (fun s => ~ rejected E s) (take (S k) myGeo) ->
     mInitialShapesBuilders g' !! (ind + k)%nat =
       Some (Some {| isb_geometry := Some (geometryOf E shape); isb_attributes := None |})) /\
    (~ (mValid g = true /\ Forall (fun s => ~ rejected E s) (take (S k) myGeo)) ->
     mInitialShapesBuilders g' !! (ind + k)%nat = mInitialShapesBuilders g !! (ind + k)%nat).
Proof.
  induction myGeo as [|shape rest IH]; intros ind g c g' evs H Hlen.
  - simpl in H. by injection H as <- <- <-.
  - cbn [ModelGenerator_addShapes] in H. simpl in Hlen.
    bind_cases H u g1 ev1 H1;
      pose proof (ModelGenerator_addShape_anatomy _ _ _ _ _ _ H1) as (Hec1 & Hw1 & Hstep);
      apply ModelGenerator_addShape_inv in H1 as (Hc & _ & Hvalid & Hbs); try done.
    assert (Hlen1 : length (mInitialShapesBuilders g1) = length (mInitialShapesBuilders g)).
    { revert Hbs. destruct (mValid g1); [intros [isb ->]|by intros ->].
      by rewrite length_insert. }
    pose proof H as H'.
    apply ModelGenerator_addShapes_inv in H' as (_ & _ & _ & _ & Hlow & _); [|lia].
    apply IH in H as (Hec & Hw & Herr & Hslots); [|lia].
    split; [unfold engineCalls in *; by rewrite List.filter_app, Hec1, Hec|].
    split; [unfold warnings in *; by rewrite List.filter_app, Hw1, Hw|].
    split.
    { unfold errors in *. rewrite List.filter_app, length_app, Herr.
      rewrite filter_cons. destruct (decide (rejected E shape)) as [Hr|Hr].
      - destruct Hstep as [-> _]. done.
      - destruct Hstep as [-> _]. done. }
    intros [|k] shape' Hk.
    + simpl in Hk. injection Hk as <-. rewrite Nat.add_0_r, Hlow by lia.
      cbn [take]. split.
      * intros Hv [Hr _]%Forall_cons. rewrite decide_False in Hstep by done.
        destruct Hstep as [_ ->]. rewrite Hv. simpl.
        apply list_lookup_insert_eq. lia.
      * intros Hn. destruct (decide (rejected E shape)) as [Hr|Hr].
        -- by destruct Hstep as [_ ->].
        -- destruct Hstep as [_ ->]. destruct (mValid g); [|done].
           destruct Hn. split; [done|]. by repeat constructor.
    + simpl in Hk. replace (ind + S k)%nat with (S ind + k)%nat by lia.
      destruct (Hslots k shape' Hk) as [Hyes Hno].
      assert (Hsame : mInitialShapesBuilders g1 !! (S ind + k)%nat
                      = mInitialShapesBuilders g !! (S ind + k)%nat).
      { revert Hbs. destruct (mValid g1); [intros [isb ->]|by intros ->].
        apply list_lookup_insert_ne. lia. }
      cbn [take]. split.
      * intros Hv [Hr HF]%Forall_cons. apply Hyes; [|done]. by apply Hvalid.
      * intros Hn. rewrite <- Hsame. apply Hno. intros [Hv1 HF]. apply Hn.
        apply Hvalid in Hv1 as [? ?]. split; [done|]. by constructor.
Qed.

(** The constructed instance, slot by slot and error by error. *)
Lemma ModelGenerator_new_anatomy myGeo :
  let g := ModelGenerator_of E myGeo in
  let evs := (ModelGenerator_new E myGeo).2 in
  engineCalls evs = [] /\ warnings evs = [] /\
  length (errors evs) = length (filter (rejected E) myGeo) /\
  forall k shape, myGeo !! k = Some shape ->
    (Forall (fun s => ~ rejected E s) (take (S k) myGeo) ->
     mInitialShapesBuilders g !! k =
       Some (Some {| isb_geometry := Some (geometryOf E shape); isb_attributes := None |})) /\
    (Exists (rejected E) (take (S k) myGeo) -> mInitialShapesBuilders g !! k = Some None).
Proof.
  unfold ModelGenerator_of, ModelGenerator_new.
  destruct (ModelGenerator_addShapes E 0 myGeo (ModelGenerator_init (length myGeo)))
    as [[c g'] evs] eqn:H.
  apply ModelGenerator_addShapes_anatomy in H as (Hec & Hw & Herr & Hslots);
    [|simpl; by rewrite length_replicate].
  simpl. do 3 (split; [done|]).
  intros k shape Hk. destruct (Hslots k shape Hk) as [Hyes Hno]. simpl in Hyes, Hno.
  split; [by apply Hyes|].
  intros Hex. rewrite Hno.
  - apply lookup_replicate_2. by apply lookup_lt_Some in Hk.
  - intros [_ HF]. apply Exists_exists in Hex as (s & Hin & Hr).
    rewrite Forall_forall in HF. by apply (HF s).
Qed.

Lemma engineCalls_nil_generateCalls evs : engineCalls evs = [] -> generateCalls evs = [].
Proof.
  unfold engineCalls, generateCalls. induction evs as [|ev evs IH]; [done|].
  destruct ev; simpl; try done.
Qed.

End Anatomy.

(** ** The resolve map *)

(** X8. After a call of [generateModel] that passes the guards, the resolve map
    held is decided by the "Resolve Map" block alone, whatever happens later
    in the call: for an empty rule-package path, or when [createResolveMap]
    raises, the map held before is kept; otherwise the map is what
    [createResolveMap] returned. A call stopped by a guard leaves the
    instance as it is. Every shape handed to a generation pass carries the
    resolve map the instance holds after the call. *)
Theorem generateModel_resolve_map (E : Engine) (prtCtx : option PRTContext)
    (shapeAttributes : list (gmap string PyValue)) (rulePackagePath : string)
    (geometryEncoderName : string) (geometryEncoderOptions : gmap string PyValue)
    (g : ModelGenerator) (out : Outcome) (g' : ModelGenerator) (evs : list Event) :
  generateModel E prtCtx shapeAttributes rulePackagePath geometryEncoderName
    geometryEncoderOptions g = (out, g', evs) ->
  (passesGuards prtCtx shapeAttributes g ->
   mResolveMap g' = resolveMapAfter E rulePackagePath g) /\
  (~ passesGuards prtCtx shapeAttributes g -> g' = g) /\
  (rulePackagePath = "" -> mResolveMap g' = mResolveMap g) /\
  (forall shapes encs eopts sink shape,
     In (call_generate shapes encs eopts sink) evs -> In shape shapes ->
     sa_resolveMap <$> nis_attributes shape = Some (mResolveMap g')).
Proof.
  intros H.
  pose proof (generateModel_anatomy E _ _ _ _ _ _ _ _ _ H)
    as (_ & _ & [(Hng & -> & _)|(Hg & Hrm & _)]).
  - split; [done|]. split; [done|]. split; [done|].
    intros shapes encs eopts sink shape Hin Hshape.
    destruct (generateModel_shapes _ _ _ _ _ _ _ _ _ _ _ _ _ _ H Hin) as [_ [_ Hprep]].
    apply list_elem_of_In, list_elem_of_lookup in Hshape as [k Hk].
    apply Hprep in Hk as (a & _ & ->). done.
  - split; [done|]. split; [done|]. split.
    { intros ->. by rewrite Hrm. }
    intros shapes encs eopts sink shape Hin Hshape.
    destruct (generateModel_shapes _ _ _ _ _ _ _ _ _ _ _ _ _ _ H Hin) as [_ [_ Hprep]].
    apply list_elem_of_In, list_elem_of_lookup in Hshape as [k Hk].
    apply Hprep in Hk as (a & _ & ->). done.
Qed.

Lemma generateModel_resolve_map_first_call :
  let r := runCall demoEngine demoFirstCall demoFresh in
  (passesGuards demoCtx [ {[ "seed" := PyInt 42 ]} ] demoFresh ->
   mResolveMap r.1.2 = resolveMapAfter demoEngine "good.rpk" demoFresh) /\
  (~ passesGuards demoCtx [ {[ "seed" := PyInt 42 ]} ] demoFresh -> r.1.2 = demoFresh) /\
  ("good.rpk" = "" -> mResolveMap r.1.2 = mResolveMap demoFresh) /\
  (forall shapes encs eopts sink shape,
     In (call_generate shapes encs eopts sink) r.2 -> In shape shapes ->
     sa_resolveMap <$> nis_attributes shape = Some (mResolveMap r.1.2)).
Proof.
  intros r.
  apply (generateModel_resolve_map demoEngine demoCtx [ {[ "seed" := PyInt 42 ]} ] "good.rpk"
           ENCODER_ID_PYTHON ∅ demoFresh r.1.1 r.1.2 r.2).
  subst r. unfold runCall, demoFirstCall. cbn [call_prtCtx call_shapeAttributes
    call_rulePackagePath call_geometryEncoderName call_geometryEncoderOptions].
  by destruct (generateModel _ _ _ _ _ _ _) as [[? ?] ?].
Defined.

(** ** The Engine calls of a call *)

(** X9. Of the two entry points [prt::createResolveMap] and [prt::generate],
    a call of [generateModel] calls [prt::generate] at most once. When it
    passes the guards, its calls of the two are one [prt::createResolveMap],
    made on every call that names a rule package, followed by the
    [prt::generate] call if there is one; when a guard stops it, it calls
    neither. [prt::generate] is called only after the guards are passed and
    the rule package, if one is named, has resolved. *)
Theorem generateModel_engine_calls (E : Engine) (prtCtx : option PRTContext)
    (shapeAttributes : list (gmap string PyValue)) (rulePackagePath : string)
    (geometryEncoderName : string) (geometryEncoderOptions : gmap string PyValue)
    (g : ModelGenerator) (out : Outcome) (g' : ModelGenerator) (evs : list Event) :
  generateModel E prtCtx shapeAttributes rulePackagePath geometryEncoderName
    geometryEncoderOptions g = (out, g', evs) ->
  (length (generateCalls evs) <= 1)%nat /\
  (passesGuards prtCtx shapeAttributes g ->
   engineCalls evs = resolvePart E rulePackagePath ++ generateCalls evs) /\
  (~ passesGuards prtCtx shapeAttributes g -> engineCalls evs = []) /\
  (generateCalls evs <> [] ->
   passesGuards prtCtx shapeAttributes g /\ resolves E rulePackagePath).
Proof.
  intros H.
  pose proof (generateModel_anatomy E _ _ _ _ _ _ _ _ _ H)
    as (_ & _ & [(Hng & _ & _ & Hec & _)|(Hg & _ & _ & Hec & Hsum)]).
  - pose proof (engineCalls_nil_generateCalls _ Hec) as Hgc. rewrite Hgc.
    split; [simpl; lia|]. done.
  - assert (Hlen : (length (generateCalls evs) <= 1)%nat).
    { destruct Hsum as [[-> _]|(? & ? & ? & ? & -> & _)]; simpl; lia. }
    split; [done|]. split; [done|]. split; [done|].
    intros Hne. split; [done|].
    apply generateModel_inv in H as [(_ & _ & _ & ->)|[(_ & _ & _ & _ & ->)|H]]; try done.
    destruct H as (_ & _ & c & evt & Htry & -> & ->). rewrite generateCalls_outer in Hne.
    apply generateModel_try_paths in Htry as (_ & _ & _ & _ & Hpath).
    destruct Hpath as [ | ? ? ? ? ? ? ? Hrun ? | ? ? ? ? ? Hev | ? ? ? ? ? Hev
                      | ? ? ? ? ? ? ? ? ? ? Hev | ? ? ? ? ? ? ? ? ? Hev ?
                      | ? ? ? ? ? ? ? ? ? ? ? ? ? ? Hev ? ]; try done.
    by apply no_generate_when_unresolved in Hrun.
Qed.

Lemma generateModel_engine_calls_first_call :
  let r := runCall demoEngine demoFirstCall demoFresh in
  (length (generateCalls r.2) <= 1)%nat /\
  (passesGuards demoCtx [ {[ "seed" := PyInt 42 ]} ] demoFresh ->
   engineCalls r.2 = resolvePart demoEngine "good.rpk" ++ generateCalls r.2) /\
  (~ passesGuards demoCtx [ {[ "seed" := PyInt 42 ]} ] demoFresh -> engineCalls r.2 = []) /\
  (generateCalls r.2 <> [] ->
   passesGuards demoCtx [ {[ "seed" := PyInt 42 ]} ] demoFresh /\
   resolves demoEngine "good.rpk").
Proof.
  intros r.
  apply (generateModel_engine_calls demoEngine demoCtx [ {[ "seed" := PyInt 42 ]} ] "good.rpk"
           ENCODER_ID_PYTHON ∅ demoFresh r.1.1 r.1.2 r.2).
  subst r. unfold runCall, demoFirstCall. cbn [call_prtCtx call_shapeAttributes
    call_rulePackagePath call_geometryEncoderName call_geometryEncoderOptions].
  by destruct (generateModel _ _ _ _ _ _ _) as [[? ?] ?].
Defined.

(** ** The errors of a call *)

(** X10. A call of [generateModel] logs at most one error. It logs none exactly
    when a generation pass was made that the Engine completed with
    [STATUS_OK] (or the behaviour is undefined): no call fails silently, and
    none reports an error after a successful pass. Whenever an error is
    logged the call returns an empty sequence. *)
Theorem generateModel_error_accounting (E : Engine) (prtCtx : option PRTContext)
    (shapeAttributes : list (gmap string PyValue)) (rulePackagePath : string)
    (geometryEncoderName : string) (geometryEncoderOptions : gmap string PyValue)
    (g : ModelGenerator) (out : Outcome) (g' : ModelGenerator) (evs : list Event) :
  generateModel E prtCtx shapeAttributes rulePackagePath geometryEncoderName
    geometryEncoderOptions g = (out, g', evs) ->
  (length (errors evs) <= 1)%nat /\
  (errors evs = [] <-> out = UndefinedBehaviour \/ succeeded E evs) /\
  (errors evs <> [] -> out = Returned []).
Proof.
  intros H.
  pose proof (generateModel_anatomy E _ _ _ _ _ _ _ _ _ H)
    as (_ & _ & [(_ & _ & -> & Hec & Herr)|(_ & _ & _ & _ & Hsum)]).
  - apply engineCalls_nil_generateCalls in Hec.
    split; [lia|]. split; [|done]. split.
    + intros Hnil. rewrite Hnil in Herr. done.
    + intros [?|Hs]; [done|]. by apply no_generate_not_succeeded in Hs.
  - destruct Hsum as [(Hgc & [[-> Herr]|[-> Herr]])
                     |(shapes & encs & eopts & sink & Hgc & _ & _ & Hub & Hm)].
    + rewrite Herr. split; [simpl; lia|]. split; [|done]. split; [by left|done].
    + split; [lia|]. split; [|done]. split.
      * intros Hnil. rewrite Hnil in Herr. done.
      * intros [?|Hs]; [done|]. by apply no_generate_not_succeeded in Hs.
    + pose proof (one_generate_succeeded E _ _ _ _ _ Hgc) as Hs.
      destruct (prt_generate E shapes encs eopts sink) as [[cbs st]|e] eqn:Hr.
      * destruct (decide (st = STATUS_OK)) as [->|Hst].
        -- rewrite Hm. split; [simpl; lia|]. split; [|done].
           split; [|done]. intros _. right. apply Hs. by exists cbs.
        -- assert (Hf : out = Returned [] /\ length (errors evs) = 1%nat)
             by (by destruct st).
           destruct Hf as [-> Herr]. split; [lia|]. split; [|done]. split.
           ++ intros Hnil. rewrite Hnil in Herr. done.
           ++ intros [?|[cbs' Hs']%Hs]; [done|]. congruence.
      * destruct Hm as [-> Herr]. split; [lia|]. split; [|done]. split.
        -- intros Hnil. rewrite Hnil in Herr. done.
        -- intros [?|[cbs' Hs']%Hs]; done.
Qed.

Lemma generateModel_error_accounting_first_call :
  let r := runCall demoEngine demoFirstCall demoFresh in
  (length (errors r.2) <= 1)%nat /\
  (errors r.2 = [] <-> r.1.1 = UndefinedBehaviour \/ succeeded demoEngine r.2) /\
  (errors r.2 <> [] -> r.1.1 = Returned []).
Proof.
  intros r.
  apply (generateModel_error_accounting demoEngine demoCtx [ {[ "seed" := PyInt 42 ]} ]
           "good.rpk" ENCODER_ID_PYTHON ∅ demoFresh r.1.1 r.1.2 r.2).
  subst r. unfold runCall, demoFirstCall. cbn [call_prtCtx call_shapeAttributes
    call_rulePackagePath call_geometryEncoderName call_geometryEncoderOptions].
  by destruct (generateModel _ _ _ _ _ _ _) as [[? ?] ?].
Defined.

(** ** The encoders of a generation pass *)

(** X11. On a constructed instance, after any earlier calls, a generation pass is
    handed the whole encoder set the instance holds after the call, with one
    option map per encoder, and that set is: the named encoder alone when it
    is the in-memory encoder, with a sink collecting one model per initial
    shape; the named encoder followed by the CGA report and print encoders
    otherwise, with a file sink on the directory named by [outputPath]. With
    an empty encoder name the set and the options are the ones left by the
    earlier calls. *)
Theorem generateModel_encoders_handed_over (E : Engine) (myGeo : list InitialShape.t)
    (calls : list Call) (prtCtx : option PRTContext)
    (shapeAttributes : list (gmap string PyValue)) (rulePackagePath : string)
    (geometryEncoderName : string) (geometryEncoderOptions : gmap string PyValue)
    (out : Outcome) (g' : ModelGenerator) (evs : list Event)
    (shapes : list NativeInitialShape) (encs : list string)
    (eopts : list (option (gmap string AttrValue))) (sink : Sink) :
  let g := afterCalls E calls (ModelGenerator_of E myGeo) in
  generateModel E prtCtx shapeAttributes rulePackagePath geometryEncoderName
    geometryEncoderOptions g = (out, g', evs) ->
  In (call_generate shapes encs eopts sink) evs ->
  encs = mEncodersNames g' /\ eopts = mEncodersOptionsPtr g' /\
  length eopts = length encs /\
  (geometryEncoderName <> "" ->
   encs = geometryEncoderName :: auxiliaryEncoders geometryEncoderName) /\
  (geometryEncoderName = "" ->
   encs = mEncodersNames g /\ eopts = mEncodersOptionsPtr g) /\
  ((encs = [ENCODER_ID_PYTHON] /\ sink = PyCallbacksSink (length myGeo)) \/
   (exists e dir,
      e <> ENCODER_ID_PYTHON /\
      encs = [e; ENCODER_ID_CGA_REPORT; ENCODER_ID_CGA_PRINT] /\
      outputDirectory E geometryEncoderOptions = Some dir /\
      sink = FileOutputCallbacksSink dir)).
Proof.
  intros g H Hin.
  assert (Hwf : wf g) by (apply afterCalls_wf, ModelGenerator_new_inv).
  assert (Hwf' : wf g').
  { pose proof (generateModel_wf E prtCtx shapeAttributes rulePackagePath
                  geometryEncoderName geometryEncoderOptions g Hwf) as Hw.
    by rewrite H in Hw. }
  assert (HN : length (mInitialShapesBuilders g) = length myGeo).
  { unfold g. destruct (afterCalls_frame E calls (ModelGenerator_of E myGeo))
      as (_&_&_&_&_& ->). apply ModelGenerator_new_inv. }
  pose proof (generateModel_anatomy E _ _ _ _ _ _ _ _ _ H)
    as (_ & Hkeep & [(_ & _ & _ & Hec & _)|(_ & _ & _ & _ & Hsum)]).
  { apply engineCalls_nil_generateCalls in Hec. by apply no_generate_In in Hin. }
  destruct Hsum as [(Hgc & _)|(shapes' & encs' & eopts' & sink' & Hgc & Hargs & Hnames & _)].
  { by apply no_generate_In in Hin. }
  apply (one_generate_In _ _ _ _ _ _ _ _ _ Hgc) in Hin as (-> & -> & -> & ->).
  destruct Hargs as (_ & n0 & Hn0 & Hencs & Heopts & Hsink).
  destruct Hwf' as [_ [[Hn _]|[[Hn Ho]|(e & He & Hn & Ho)]]].
  - by rewrite Hn in Hn0.
  - rewrite Hn in Hn0, Hencs. injection Hn0 as <-.
    unfold encoderCount in *. rewrite decide_True in Hencs by done.
    rewrite decide_True in Heopts by done. rewrite decide_True in Hsink by done.
    destruct (mEncodersOptionsPtr g') as [|o0 [|? ?]] eqn:Hopts; try done.
    simpl in Hencs, Heopts. subst encs' eopts'.
    split; [done|]. split; [done|]. split; [done|]. split.
    { intros Hne. destruct (Hnames Hne) as [Hn' _]. congruence. }
    split.
    { intros He. destruct (Hkeep He) as [<- <-]. by rewrite Hn. }
    left. by rewrite <- HN.
  - rewrite Hn in Hn0, Hencs. injection Hn0 as <-.
    unfold encoderCount in *. rewrite decide_False in Hencs by done.
    rewrite decide_False in Heopts by done. rewrite decide_False in Hsink by done.
    destruct (mEncodersOptionsPtr g') as [|o0 [|o1 [|o2 [|? ?]]]] eqn:Hopts; try done.
    simpl in Hencs, Heopts. subst encs' eopts'.
    split; [done|]. split; [done|]. split; [done|]. split.
    { intros Hne. destruct (Hnames Hne) as [Hn' _]. congruence. }
    split.
    { intros He'. destruct (Hkeep He') as [<- <-]. by rewrite Hn. }
    right. destruct Hsink as (dir & Hdir & ->). by exists e, dir.
Qed.

Lemma generateModel_encoders_handed_over_file_call :
  let g := afterCalls demoEngine [] (ModelGenerator_of demoEngine
                                       [demoShape]) in
  let r := runCall demoEngine demoFileCall g in
  exists shapes encs eopts sink,
    In (call_generate shapes encs eopts sink) r.2 /\
    encs = mEncodersNames r.1.2 /\ eopts = mEncodersOptionsPtr r.1.2 /\
    length eopts = length encs /\
    encs = ["com.esri.prt.codecs.OBJEncoder"; ENCODER_ID_CGA_REPORT; ENCODER_ID_CGA_PRINT] /\
    sink = FileOutputCallbacksSink "/tmp/out".
Proof.
  intros g r.
  assert (Hin : exists shapes encs eopts sink, In (call_generate shapes encs eopts sink) r.2).
  { let l := eval vm_compute in r.2 in
    assert (Hl : r.2 = l) by (vm_compute; reflexivity).
    rewrite Hl. do 4 eexists. do 4 right. left. reflexivity. }
  destruct Hin as (shapes & encs & eopts & sink & Hin).
  exists shapes, encs, eopts, sink. split; [exact Hin|].
  destruct (generateModel_encoders_handed_over demoEngine [demoShape]
              [] demoCtx [∅] "good.rpk" "com.esri.prt.codecs.OBJEncoder"
              {[ "outputPath" := PyStr "/tmp/out" ]} r.1.1 r.1.2 r.2 shapes encs eopts sink)
    as (Hn & Ho & Hl & Hnamed & _ & Hsink).
  - subst r. unfold runCall, demoFileCall. cbn [call_prtCtx call_shapeAttributes
      call_rulePackagePath call_geometryEncoderName call_geometryEncoderOptions].
    by destruct (generateModel _ _ _ _ _ _ _) as [[? ?] ?].
  - exact Hin.
  - do 3 (split; [assumption|]).
    assert (Hencs : encs = ["com.esri.prt.codecs.OBJEncoder";
                            ENCODER_ID_CGA_REPORT; ENCODER_ID_CGA_PRINT]).
    { rewrite Hnamed by discriminate. reflexivity. }
    split; [exact Hencs|].
    destruct Hsink as [[Hpy _]|(e & dir & _ & _ & Hdir & ->)].
    + rewrite Hencs in Hpy. discriminate.
    + vm_compute in Hdir. by injection Hdir as <-.
Defined.

(** ** The geometry of a generation pass *)

(** X12. On a constructed instance, after any earlier calls, the shapes handed
    to a generation pass carry, in order, the geometry of the shapes the
    instance was constructed from: the file URI of a shape given by path,
    the vertices, indices and face counts of a shape given inline. *)
Theorem generateModel_geometry_handed_over (E : Engine) (myGeo : list InitialShape.t)
    (calls : list Call) (prtCtx : option PRTContext)
    (shapeAttributes : list (gmap string PyValue)) (rulePackagePath : string)
    (geometryEncoderName : string) (geometryEncoderOptions : gmap string PyValue)
    (out : Outcome) (g' : ModelGenerator) (evs : list Event)
    (shapes : list NativeInitialShape) (encs : list string)
    (eopts : list (option (gmap string AttrValue))) (sink : Sink) :
  generateModel E prtCtx shapeAttributes rulePackagePath geometryEncoderName
    geometryEncoderOptions (afterCalls E calls (ModelGenerator_of E myGeo)) = (out, g', evs) ->
  In (call_generate shapes encs eopts sink) evs ->
  nis_geometry <$> shapes = (fun shape => Some (geometryOf E shape)) <$> myGeo.
Proof.
  intros H Hin.
  pose proof (generateModel_anatomy E _ _ _ _ _ _ _ _ _ H)
    as (_ & _ & [(_ & _ & _ & Hec & _)|((Hv & _) & _ & _ & _ & Hsum)]).
  { apply engineCalls_nil_generateCalls in Hec. by apply no_generate_In in Hin. }
  destruct Hsum as [(Hgc & _)|(shapes' & encs' & eopts' & sink' & Hgc & Hargs & _)].
  { by apply no_generate_In in Hin. }
  apply (one_generate_In _ _ _ _ _ _ _ _ _ Hgc) in Hin as (-> & -> & -> & ->).
  destruct Hargs as (-> & _). rewrite afterCalls_geometries.
  destruct (afterCalls_frame E calls (ModelGenerator_of E myGeo)) as (_&_&_&_& Hvg &_).
  rewrite Hvg in Hv.
  destruct (ModelGenerator_new_inv E myGeo) as (_ & Hlen & _ & _ & _ & _ & _ & _ & _ & Hvalid & _).
  apply Hvalid in Hv.
  destruct (ModelGenerator_new_anatomy E myGeo) as (_ & _ & _ & Hslots).
  apply list_eq. intros k. unfold geometries. rewrite !list_lookup_fmap.
  destruct (myGeo !! k) as [shape|] eqn:Hk; simpl.
  - destruct (Hslots k shape Hk) as [Hyes _]. rewrite Hyes; [done|]. by apply Forall_take.
  - apply lookup_ge_None in Hk. rewrite lookup_ge_None_2; [done|lia].
Qed.

Lemma generateModel_geometry_handed_over_second_call :
  let r := generateModel demoEngine demoCtx [∅] "" "" ∅
             (afterCalls demoEngine [demoFirstCall]
                (ModelGenerator_of demoEngine [demoShape])) in
  exists shapes encs eopts sink,
    In (call_generate shapes encs eopts sink) r.2 /\
    nis_geometry <$> shapes = [Some (GeometryInline demoQuad [0; 1; 2; 3] [4])].
Proof.
  intros r.
  assert (Hin : exists shapes encs eopts sink, In (call_generate shapes encs eopts sink) r.2).
  { let l := eval vm_compute in r.2 in
    assert (Hl : r.2 = l) by (vm_compute; reflexivity).
    rewrite Hl. do 4 eexists. left. reflexivity. }
  destruct Hin as (shapes & encs & eopts & sink & Hin).
  exists shapes, encs, eopts, sink. split; [exact Hin|].
  apply (generateModel_geometry_handed_over demoEngine [demoShape]
           [demoFirstCall] demoCtx [∅] "" "" ∅ r.1.1 r.1.2 r.2 shapes encs eopts sink);
    [|exact Hin].
  subst r. by destruct (generateModel _ _ _ _ _ _ _) as [[? ?] ?].
Defined.

(** ** [generateAnotherModel] and the file-based encoders *)

(** X13. On a constructed instance whose encoder set, left by earlier calls, is
    that of a file-based encoder, [generateAnotherModel] never reaches a
    generation pass: it passes no encoder options, so no output directory
    is named, and the call returns an empty sequence with exactly one error
    logged. *)
Theorem generateAnotherModel_file_based (E : Engine) (myGeo : list InitialShape.t)
    (calls : list Call) (prtCtx : option PRTContext)
    (shapeAttributes : list (gmap string PyValue)) (e : string)
    (out : Outcome) (g' : ModelGenerator) (evs : list Event) :
  let g := afterCalls E calls (ModelGenerator_of E myGeo) in
  mEncodersNames g !! 0%nat = Some e ->
  e <> ENCODER_ID_PYTHON ->
  generateAnotherModel E prtCtx shapeAttributes g = (out, g', evs) ->
  out = Returned [] /\ generateCalls evs = [] /\ length (errors evs) = 1%nat.
Proof.
  intros g Hsel Hfile H. unfold generateAnotherModel in H.
  destruct (mResolveMap g) as [rm|]; [|by injection H as <- <- <-].
  assert (Hwf : wf g) by (apply afterCalls_wf, ModelGenerator_new_inv).
  assert (Hout : out = Returned [] /\ generateCalls evs = []).
  { apply generateModel_inv in H as [(Hv & -> & _ & ->)|[(_ & Hne & -> & _ & ->)|H]];
      [done..|].
    destruct H as (Hv & Hen & c & evt & Htry & -> & ->). rewrite generateCalls_outer.
    apply generateModel_try_paths in Htry as (_ & _ & _ & _ & Hpath).
    destruct Hwf as [Hbs Henc].
    destruct Hpath as [ Hc | cu ? ? ? ? ? Hnres Hrun Hcu | ? ? ? ? Hundef Hev
                      | ? ? ? ? Hundef Hev | ? ? ? ? ? ? ? Hs
                      | ? ? ? e' ? ? Hs ? Hdir Hev Hc
                      | ? ? ? e' dir' ? ? ? ? ? Hs ? Hdir ? Hev Hc ].
    - done.
    - done.
    - destruct Hundef. split; [by apply Hbs|]. by apply enoughAttributes_nonempty.
    - destruct Hundef. split; [done|]. unfold selectedEncoder. simpl.
      fold g. rewrite Hsel. by eexists.
    - unfold selectedEncoder in Hs. simpl in Hs. fold g in Hs. congruence.
    - split; [by destruct Hc as [->|[what ->]]|done].
    - unfold outputDirectory in Hdir. by rewrite lookup_empty in Hdir. }
  destruct Hout as [-> Hgc]. do 2 (split; [done|]).
  pose proof (generateModel_anatomy E _ _ _ _ _ _ _ _ _ H)
    as (_ & _ & [(_ & _ & _ & _ & Herr)|(_ & _ & _ & _ & Hsum)]); [done|].
  destruct Hsum as [(_ & [[? _]|[_ Herr]])|(? & ? & ? & ? & Hgc' & _)]; try done.
  by rewrite Hgc in Hgc'.
Qed.

Lemma generateAnotherModel_file_based_after_file_call :
  let r := generateAnotherModel demoEngine demoCtx [∅]
             (afterCalls demoEngine [demoFileCall]
                (ModelGenerator_of demoEngine [demoShape])) in
  r.1.1 = Returned [] /\ generateCalls r.2 = [] /\ length (errors r.2) = 1%nat.
Proof.
  intros r.
  apply (generateAnotherModel_file_based demoEngine [demoShape]
           [demoFileCall] demoCtx [∅] "com.esri.prt.codecs.OBJEncoder" r.1.1 r.1.2 r.2).
  - vm_compute. reflexivity.
  - intros Heq. vm_compute in Heq. discriminate.
  - subst r. by destruct (generateAnotherModel _ _ _ _) as [[? ?] ?].
Defined.

(** ** The constructor *)

(** X14. The builder slots of a constructed instance. The slot of a shape holds
    a builder with the geometry of that shape, and no attributes yet, when
    neither the shape nor any shape before it was rejected; it is empty as
    soon as the shape or one before it was rejected, even if the shape
    itself is acceptable. *)
Theorem ModelGenerator_new_builders (E : Engine) (myGeo : list InitialShape.t)
    (k : nat) (shape : InitialShape.t) :
  myGeo !! k = Some shape ->
  let g := ModelGenerator_of E myGeo in
  (Forall (fun s => ~ rejected E s) (take (S k) myGeo) ->
   mInitialShapesBuilders g !! k =
     Some (Some {| isb_geometry := Some (geometryOf E shape); isb_attributes := None |})) /\
  (Exists (rejected E) (take (S k) myGeo) -> mInitialShapesBuilders g !! k = Some None).
Proof.
  intros Hk g. destruct (ModelGenerator_new_anatomy E myGeo) as (_ & _ & _ & Hslots).
  by apply Hslots.
Qed.

Lemma ModelGenerator_new_builders_after_rejected :
  let myGeo := [demoShape; InitialShape.of_path "";
                demoShape] in
  let g := ModelGenerator_of demoEngine myGeo in
  mInitialShapesBuilders g !! 0%nat =
    Some (Some {| isb_geometry := Some (GeometryInline demoQuad [0; 1; 2; 3] [4]);
                  isb_attributes := None |}) /\
  mInitialShapesBuilders g !! 2%nat = Some None.
Proof.
  intros myGeo g. split.
  - apply (ModelGenerator_new_builders demoEngine myGeo 0 (demoShape)).
    + reflexivity.
    + repeat constructor. vm_compute. intros Heq. by apply Heq.
  - apply (ModelGenerator_new_builders demoEngine myGeo 2 (demoShape)).
    + reflexivity.
    + apply Exists_cons_tl, Exists_cons_hd. left. reflexivity.
Defined.

(** X15. The log of a construction: one error per rejected shape, no warning,
    no call of the rule-package or generation entry points of the Engine;
    and the instance is valid exactly when no error was logged. *)
Theorem ModelGenerator_new_log (E : Engine) (myGeo : list InitialShape.t) :
  let r := ModelGenerator_new E myGeo in
  length (errors r.2) = length (filter (rejected E) myGeo) /\
  (mValid r.1.2 = true <-> errors r.2 = []) /\
  warnings r.2 = [] /\ engineCalls r.2 = [].
Proof.
  intros r. subst r.
  destruct (ModelGenerator_new_anatomy E myGeo) as (Hec & Hw & Herr & _).
  destruct (ModelGenerator_new_inv E myGeo) as (_ & _ & _ & _ & _ & _ & _ & _ & _ & Hv & _).
  simpl in *. unfold ModelGenerator_of in Hv.
  split; [done|]. split; [|done].
  rewrite Hv. rewrite <- length_zero_iff_nil, Herr, length_zero_iff_nil.
  rewrite Forall_forall. split.
  - intros HF. apply elem_of_nil_inv. intros s [Hr Hin]%list_elem_of_filter.
    by apply (HF s).
  - intros Hnil s Hin Hr. by apply (filter_nil_not_elem_of _ _ s Hnil Hr).
Qed.

(** ** What a call never changes *)

(** X16. Validity and the number of shapes are decided at construction: after
    any sequence of calls the instance is valid exactly when no shape was
    rejected, holds one builder slot per shape, keeps the geometry it was
    constructed with, and on a valid instance every slot holds a builder. *)
Theorem validity_is_decided_at_construction (E : Engine) (myGeo : list InitialShape.t)
    (calls : list Call) :
  let g := afterCalls E calls (ModelGenerator_of E myGeo) in
  (mValid g = true <-> Forall (fun shape => ~ rejected E shape) myGeo) /\
  length (mInitialShapesBuilders g) = length myGeo /\
  geometries g = geometries (ModelGenerator_of E myGeo) /\
  (mValid g = true -> Forall is_Some (mInitialShapesBuilders g)).
Proof.
  intros g.
  destruct (afterCalls_frame E calls (ModelGenerator_of E myGeo)) as (_&_&_&_& Hv & Hlen).
  destruct (ModelGenerator_new_inv E myGeo) as (_ & Hl & _ & _ & _ & _ & _ & _ & _ & Hvalid & Hwf).
  fold g in Hv, Hlen. simpl in Hl, Hvalid.
  split; [by rewrite Hv|]. split; [congruence|].
  split; [apply afterCalls_geometries|].
  by apply (afterCalls_wf E calls) in Hwf as [? _].
Qed.

(** ** The attributes of a generation pass *)

(** X17. Every shape handed to a generation pass carries the attribute map
    converted from the dictionary chosen for it in this call, converted with
    a builder of its own, so that nothing is carried over from another shape
    or an earlier call; and a recognised key that the converted map holds
    with the expected type decides the rule file, the start rule, the seed
    or the shape name the Engine receives. *)
Theorem supplied_attributes_reach_the_engine (E : Engine) (prtCtx : option PRTContext)
    (shapeAttributes : list (gmap string PyValue)) (rulePackagePath : string)
    (geometryEncoderName : string) (geometryEncoderOptions : gmap string PyValue)
    (g : ModelGenerator) (out : Outcome) (g' : ModelGenerator) (evs : list Event)
    (shapes : list NativeInitialShape) (encs : list string)
    (eopts : list (option (gmap string AttrValue))) (sink : Sink)
    (k : nat) (shape : NativeInitialShape) :
  generateModel E prtCtx shapeAttributes rulePackagePath geometryEncoderName
    geometryEncoderOptions g = (out, g', evs) ->
  In (call_generate shapes encs eopts sink) evs ->
  shapes !! k = Some shape ->
  exists a sa,
    attrAt shapeAttributes k = Some a /\ nis_attributes shape = Some sa /\
    sa_attributes sa = (pcu_createAttributeMapFromPythonDict E a ∅).1 /\
    forall m, sa_attributes sa = Some m ->
      (AttributeMap.hasKey m "ruleFile" = true ->
       AttributeMap.getType m "ruleFile" = PT_STRING ->
       sa_ruleFile sa = AttributeMap.getString m "ruleFile") /\
      (AttributeMap.hasKey m "startRule" = true ->
       AttributeMap.getType m "startRule" = PT_STRING ->
       sa_startRule sa = AttributeMap.getString m "startRule") /\
      (AttributeMap.hasKey m "seed" = true ->
       AttributeMap.getType m "seed" = PT_INT ->
       sa_seed sa = AttributeMap.getInt m "seed") /\
      (AttributeMap.hasKey m "shapeName" = true ->
       AttributeMap.getType m "shapeName" = PT_STRING ->
       sa_shapeName sa = AttributeMap.getString m "shapeName").
Proof.
  intros H Hin Hk.
  destruct (generateModel_shapes _ _ _ _ _ _ _ _ _ _ _ _ _ _ H Hin) as [_ [_ Hprep]].
  apply Hprep in Hk as (a & Ha & Hattr). exists a, (shapeAttributesFor E g' a).
  do 2 (split; [done|]). unfold shapeAttributesFor, extractMainShapeAttributes. cbn.
  destruct (pcu_createAttributeMapFromPythonDict E a ∅).1 as [m'|] eqn:Hm; cbn.
  - split; [done|]. intros m [= <-].
    repeat split; intros -> ->; by rewrite bool_decide_eq_true_2.
  - split; [done|]. by intros m.
Qed.

Lemma supplied_attributes_reach_the_engine_seed :
  let r := runCall demoEngine demoFirstCall demoFresh in
  exists shapes encs eopts sink shape sa,
    In (call_generate shapes encs eopts sink) r.2 /\
    shapes !! 0%nat = Some shape /\ nis_attributes shape = Some sa /\ sa_seed sa = 42.
Proof.
  intros r.
  assert (Hin : exists shapes encs eopts sink shape,
             In (call_generate shapes encs eopts sink) r.2 /\ shapes !! 0%nat = Some shape).
  { let l := eval vm_compute in r.2 in
    assert (Hl : r.2 = l) by (vm_compute; reflexivity).
    rewrite Hl. do 5 eexists. split; [do 3 right; left; reflexivity|reflexivity]. }
  destruct Hin as (shapes & encs & eopts & sink & shape & Hin & Hshape).
  destruct (supplied_attributes_reach_the_engine demoEngine demoCtx
              [ {[ "seed" := PyInt 42 ]} ] "good.rpk" ENCODER_ID_PYTHON ∅ demoFresh
              r.1.1 r.1.2 r.2 shapes encs eopts sink 0 shape)
    as (a & sa & Ha & Hsa & Hattrs & Hkeys).
  - subst r. unfold runCall, demoFirstCall. cbn [call_prtCtx call_shapeAttributes
      call_rulePackagePath call_geometryEncoderName call_geometryEncoderOptions].
    by destruct (generateModel _ _ _ _ _ _ _) as [[? ?] ?].
  - exact Hin.
  - exact Hshape.
  - exists shapes, encs, eopts, sink, shape, sa. do 3 (split; [assumption|]).
    vm_compute in Ha. injection Ha as <-.
    destruct (Hkeys _ Hattrs) as (_ & _ & Hseed & _).
    rewrite Hseed; reflexivity.
Defined.

(** ** [generateAnotherModel] and the resolve map held *)

Lemma passesGuards_frame ctx attrs g g' :
  frame g g' -> passesGuards ctx attrs g' <-> passesGuards ctx attrs g.
Proof.
  unfold frame, passesGuards, enoughAttributes. intros (_ & _ & _ & _ & -> & ->). done.
Qed.

Lemma generateModel_held E ctx attrs path enc opts g :
  mResolveMap (generateModel E ctx attrs path enc opts g).1.2 =
  if decide (passesGuards ctx attrs g) then resolveMapAfter E path g else mResolveMap g.
Proof.
  destruct (generateModel E ctx attrs path enc opts g) as [[out g'] evs] eqn:H.
  pose proof (generateModel_anatomy E _ _ _ _ _ _ _ _ _ H)
    as (_ & _ & [(Hng & -> & _)|(Hg & Hrm & _)]); simpl.
  - by rewrite decide_False.
  - by rewrite decide_True.
Qed.

Lemma afterCalls_held E g0 calls : forall g,
  frame g0 g ->
  mResolveMap (afterCalls E calls g) = fold_left (heldAfterCall E g0) calls (mResolveMap g).
Proof.
  induction calls as [|c calls IH]; intros g Hf; [done|].
  cbn [afterCalls fold_left]. change (fold_left _ calls ?x) with (afterCalls E calls x) at 1.
  rewrite IH.
  - f_equal. unfold runCall. rewrite generateModel_held. unfold heldAfterCall, resolveMapAfter.
    pose proof (passesGuards_frame (call_prtCtx c) (call_shapeAttributes c) g0 g Hf) as Hiff.
    destruct (decide (passesGuards (call_prtCtx c) (call_shapeAttributes c) g)) as [Hg|Hg];
      destruct (decide (passesGuards (call_prtCtx c) (call_shapeAttributes c) g0))
        as [Hg0|Hg0]; tauto || done.
  - eapply frame_trans; [done|]. apply generateModel_frame.
Qed.

(** C7, as amended. On a constructed instance, after any earlier calls,
    [generateAnotherModel] returns an empty sequence with a reported error,
    the instance untouched, whenever the instance holds no resolve map, and
    otherwise its result is that of [generateModel] with an empty
    rule-package path, an empty encoder name and empty encoder options. The
    map held is [heldResolveMap]: none on a fresh instance and as long as
    every call was stopped by a guard, named no rule package, or had its
    resolution raise or return null; the map of the last resolution that
    returned, otherwise, whether or not that call succeeded. *)
Theorem generateAnotherModel_spec (E : Engine) (myGeo : list InitialShape.t)
    (calls : list Call) (prtCtx : option PRTContext)
    (shapeAttributes : list (gmap string PyValue)) :
  let g0 := ModelGenerator_of E myGeo in
  let g := afterCalls E calls g0 in
  mResolveMap g = heldResolveMap E g0 calls /\
  (heldResolveMap E g0 calls = None ->
   generateAnotherModel E prtCtx shapeAttributes g =
     (Returned [], g, [LOG_ERR "generate model with all required parameters"])) /\
  (is_Some (heldResolveMap E g0 calls) ->
   generateAnotherModel E prtCtx shapeAttributes g =
     generateModel E prtCtx shapeAttributes "" "" ∅ g).
Proof.
  intros g0 g.
  assert (Hheld : mResolveMap g = heldResolveMap E g0 calls).
  { unfold g, heldResolveMap. rewrite (afterCalls_held E g0 calls g0) by apply frame_refl.
    f_equal. apply ModelGenerator_new_inv. }
  split; [done|]. unfold generateAnotherModel. rewrite Hheld.
  split; [by intros ->|by intros [rm ->]].
Qed.

Lemma generateAnotherModel_fresh_and_used :
  generateAnotherModel demoEngine demoCtx [∅] demoFresh =
    (Returned [], demoFresh, [LOG_ERR "generate model with all required parameters"]) /\
  generateAnotherModel demoEngine demoCtx [∅] demoUsed =
    generateModel demoEngine demoCtx [∅] "" "" ∅ demoUsed.
Proof.
  destruct (generateAnotherModel_spec demoEngine [demoShape] [] demoCtx [∅])
    as (_ & Hnone & _).
  destruct (generateAnotherModel_spec demoEngine [demoShape] [demoFirstCall] demoCtx [∅])
    as (_ & _ & Hsome).
  split.
  - apply Hnone. reflexivity.
  - apply Hsome. vm_compute. eexists. reflexivity.
Defined.

(** C7, as stated, fails: a resolve map can be held although no call has
    succeeded. On a fresh instance, a first call whose resolution yields a
    map with a failure status returns empty with an error; the map stays,
    no encoder set exists, and [generateAnotherModel] then reads
    [mEncodersNames[0]] of an empty vector: undefined behaviour, no error
    reported. And a first call whose generation pass fails returns empty
    with an error; [generateAnotherModel] then runs a generation pass and
    returns a model, where the claim has it report a missing resolve map. *)
Lemma generateAnotherModel_after_failed_calls :
  let fresh := ModelGenerator_of demoUnreliableEngine [demoShape] in
  let half := generateModel demoUnreliableEngine demoCtx [∅] "half.rpk"
                ENCODER_ID_PYTHON ∅ fresh in
  let again := generateAnotherModel demoUnreliableEngine demoCtx [∅] half.1.2 in
  let failed := generateModel demoUnreliableEngine demoCtx [ {[ "seed" := PyInt 13 ]} ]
                  "good.rpk" ENCODER_ID_PYTHON ∅ fresh in
  let retry := generateAnotherModel demoUnreliableEngine demoCtx [∅] failed.1.2 in
  (half.1.1 = Returned [] /\ length (errors half.2) = 1%nat /\ generateCalls half.2 = [] /\
   again.1.1 = UndefinedBehaviour /\ errors again.2 = []) /\
  (failed.1.1 = Returned [] /\ length (errors failed.2) = 1%nat /\
   length (generateCalls retry.2) = 1%nat /\ errors retry.2 = [] /\
   exists m, retry.1.1 = Returned [m]).
Proof. vm_compute. repeat split; try reflexivity. eexists. reflexivity. Qed.
